(** * studio-go-runner: resource ledger, request codec and queue scheduler

    A shallow embedding of the parts of the runner that decide local disk
    admission (the disk tracker of package runner), resource fitting and
    request (un)marshalling (request.go) and the pubsub queue scheduler
    (the [Queuer] of the runner command), with the properties the
    specification states about them. *)

From Stdlib Require Import ZArith NArith Lia List Bool Ascii String.
From Stdlib Require Import DecimalString DecimalZ DecimalN DecimalPos.
From Stdlib Require Import Floats.SpecFloat.
From stdpp Require Import gmap strings list fin_maps sorting.

Local Open Scope Z_scope.

(** ** Machine integers

    Go's [uint64] is a [Z] in [0, 2^64); every arithmetic result is
    reduced explicitly. *)

Definition u64_modulus : Z := 2 ^ 64.

Definition wrap64 (z : Z) : Z := z mod u64_modulus.

Definition is_u64 (z : Z) : Prop := 0 <= z < u64_modulus.

Definition u64_add (a b : Z) : Z := wrap64 (a + b).
Definition u64_sub (a b : Z) : Z := wrap64 (a - b).
Definition u64_mul (a b : Z) : Z := wrap64 (a * b).

(** ** IEEE-754 binary64, as far as [SetDiskLimits] needs it

    [float64(x) * 0.85] converted back with [uint64(...)]: the
    conversion of the integer rounds to nearest-even, the product
    rounds to nearest-even, the conversion back truncates. *)

Module F64.

Definition prec : Z := 53.
Definition emax : Z := 1024.

(** [float64(x)] for an unsigned integer [x], and the float64 nearest
    to a whole number in general. *)
Definition of_u64 (x : Z) : spec_float := binary_normalize prec emax x 0 false.

(** [x <= y] *)
Definition leb (x y : spec_float) : bool := SFleb x y.

(** The constant [0.85]: the double nearest to 85/100 is
    7656119366529843 * 2^-53. *)
Definition c0_85 : spec_float := S754_finite false 7656119366529843 (-53).

Definition mul (x y : spec_float) : spec_float := SFmul prec emax x y.

(** [uint64(f)] for a finite non-negative [f] below 2^64: truncation.
    Other operands do not arise from [of_u64 x * 0.85]; they are sent to 0. *)
Definition to_u64 (f : spec_float) : Z :=
  match f with
  | S754_finite false m e =>
      if 0 <=? e then wrap64 (Z.shiftl (Zpos m) e) else Z.shiftr (Zpos m) (- e)
  | _ => 0
  end.

End F64.

(** ** Local disk space allocation (package runner) *)

Module Disk.

(** The two fields of [syscall.Statfs_t] the tracker reads. *)
Record Statfs_t := { Bavail : Z; Bsize : Z }.

(** The file systems of the host: [syscall.Statfs] fails on [None]. *)
Definition filesystems := string -> option Statfs_t.

Inductive error :=
| ErrStatfs (device : string)
| ErrInsufficient (left want : Z)
| ErrEmptyAllocation
| ErrUntracked (size : Z) (device : string).

Record diskTracker := {
  Device : string;
  AllocSpace : Z;
  SoftMinFree : Z;
  InitErr : option error
}.

Record DiskAllocated := { device : string; size : Z }.

(** [diskTrack = &diskTracker{}] *)
Definition diskTrack0 : diskTracker :=
  {| Device := EmptyString; AllocSpace := 0; SoftMinFree := 0; InitErr := None |}.

(** [fs.Bavail*uint64(fs.Bsize)] *)
Definition availBytes (fs : Statfs_t) : Z :=
  u64_mul (Bavail fs) (wrap64 (Bsize fs)).

(** [uint64(float64(fs.Bavail*uint64(fs.Bsize)) * 0.85)] *)
Definition headroom (fs : Statfs_t) : Z :=
  F64.to_u64 (F64.mul (F64.of_u64 (availBytes fs)) F64.c0_85).

Definition SetDiskLimits (host : filesystems) (dev : string) (minFree : Z)
    (t : diskTracker) : (Z * option error) * diskTracker :=
  match host dev with
  | None => ((0, Some (ErrStatfs dev)), t)
  | Some fs =>
      let softMinFree := headroom fs in
      let softMinFree :=
        if negb (minFree =? 0) && (minFree <? softMinFree) then minFree
        else softMinFree in
      let allocSpace :=
        if negb (String.eqb dev (Device t)) then 0 else AllocSpace t in
      let t' := {| Device := dev; AllocSpace := allocSpace;
                   SoftMinFree := softMinFree; InitErr := None |} in
      ((SoftMinFree t', None), t')
  end.

Definition initDiskResource (host : filesystems) (dev : string)
    (t : diskTracker) : option error * diskTracker :=
  let '((_, err), t') := SetDiskLimits host dev 0 t in
  (err, {| Device := Device t'; AllocSpace := AllocSpace t';
           SoftMinFree := SoftMinFree t'; InitErr := err |}).

Definition AllocDisk (host : filesystems) (maxSpace : Z) (t : diskTracker)
    : (option DiskAllocated * option error) * diskTracker :=
  match host (Device t) with
  | None => ((None, Some (ErrStatfs (Device t))), t)
  | Some fs =>
      if SoftMinFree t <? u64_sub (availBytes fs) (u64_add (AllocSpace t) maxSpace)
      then ((None, Some (ErrInsufficient (u64_sub (Bavail fs) (AllocSpace t)) maxSpace)), t)
      else
        let t' := {| Device := Device t;
                     AllocSpace := u64_add (AllocSpace t) maxSpace;
                     SoftMinFree := SoftMinFree t; InitErr := None |} in
        ((Some {| device := Device t'; size := maxSpace |}, None), t')
  end.

(** [alloc] is the receiver pointer; [None] is the nil receiver. *)
Definition Release (alloc : option DiskAllocated) (t : diskTracker)
    : option error * diskTracker :=
  match alloc with
  | None => (Some ErrEmptyAllocation, t)
  | Some a =>
      match InitErr t with
      | Some e => (Some e, t)
      | None =>
          if negb (String.eqb (device a) (Device t))
          then (Some (ErrUntracked (size a) (device a)), t)
          else (None, {| Device := Device t;
                         AllocSpace := u64_sub (AllocSpace t) (size a);
                         SoftMinFree := SoftMinFree t; InitErr := InitErr t |})
      end
  end.

(** A host with one file system mounted at ["/data"]. *)
Definition host1 (fs : Statfs_t) : filesystems :=
  fun dev => if String.eqb dev "/data" then Some fs else None.

End Disk.

(** ** Well-formed UTF-8

    [encoding/json] writes a Go string, and reads the text of a string
    literal, a rune at a time with [utf8.DecodeRuneInString]; where
    that returns [RuneError] with width 1 it puts U+FFFD for the
    byte. *)

Module Utf8.

(** A continuation byte. *)
Definition isCont (b : ascii) : bool :=
  (128 <=? N_of_ascii b)%N && (N_of_ascii b <=? 191)%N.

(** The number of bytes the first byte of an encoding announces, 0
    for a byte that starts none. *)
Definition size (a : ascii) : nat :=
  let x := N_of_ascii a in
  if (x <? 128)%N then 1
  else if (x <? 194)%N then 0
  else if (x <? 224)%N then 2
  else if (x <? 240)%N then 3
  else if (x <? 245)%N then 4
  else 0.

(** The second bytes a first byte accepts. *)
Definition accepts (a b : ascii) : bool :=
  let x := N_of_ascii a in
  let y := N_of_ascii b in
  if (x =? 224)%N then (160 <=? y)%N && (y <=? 191)%N
  else if (x =? 237)%N then (128 <=? y)%N && (y <=? 159)%N
  else if (x =? 240)%N then (144 <=? y)%N && (y <=? 191)%N
  else if (x =? 244)%N then (128 <=? y)%N && (y <=? 143)%N
  else isCont b.

(** The width [utf8.DecodeRuneInString] returns for the text that
    starts with [a] and goes on with [s], 0 where it returns
    [RuneError] with width 1. *)
Definition width (a : ascii) (s : string) : nat :=
  match size a, s with
  | 1%nat, _ => 1
  | 2%nat, String b _ => if accepts a b then 2 else 0
  | 3%nat, String b (String c _) => if accepts a b && isCont c then 3 else 0
  | 4%nat, String b (String c (String d _)) =>
      if accepts a b && isCont c && isCont d then 4 else 0
  | _, _ => 0
  end.

(** The text with each byte that belongs to no well-formed encoding
    replaced by the three bytes of U+FFFD. *)
Fixpoint coerce (s : string) : string :=
  match s with
  | EmptyString => EmptyString
  | String a s1 =>
      match width a s1, s1 with
      | 1%nat, _ => String a (coerce s1)
      | 2%nat, String b s2 => String a (String b (coerce s2))
      | 3%nat, String b (String c s3) => String a (String b (String c (coerce s3)))
      | 4%nat, String b (String c (String d s4)) =>
          String a (String b (String c (String d (coerce s4))))
      | _, _ => String "239" (String "191" (String "189" (coerce s1)))
      end
  end.

End Utf8.

(** ** Resources and requests (request.go) *)

Module Runner.

(** [uint] is 64 bits wide on the platforms the runner is built for. *)
Record Resource := {
  Cpus : N;
  Gpus : N;
  Hdd : string;
  Ram : string;
  GpuMem : string
}.

Inductive FitError :=
| ErrLeftRam
| ErrRightRam
| ErrLeftHdd
| ErrRightHdd
| ErrLeftGpuMem (left_mem : string)
| ErrRightGpuMem (right : string).

Section Fit.

(** [humanize.ParseBytes] of github.com/dustin/go-humanize: the
    parsed byte count and whether an error came with it. *)
Variable ParseBytes : string -> N * bool.

(** The later revision, which reports what it could not parse. *)
Definition Fit (l r : Resource) : bool * option FitError :=
  let '(lRam, errGo) := ParseBytes (Ram l) in
  if errGo then (false, Some ErrLeftRam) else
  let '(rRam, errGo) := ParseBytes (Ram r) in
  if errGo then (false, Some ErrRightRam) else
  let '(lHdd, errGo) := ParseBytes (Hdd l) in
  if errGo then (false, Some ErrLeftHdd) else
  let '(rHdd, errGo) := ParseBytes (Hdd r) in
  if errGo then (false, Some ErrRightHdd) else
  let '(lGpuMem, errGo) := ParseBytes (GpuMem l) in
  if negb (Nat.eqb 0 (String.length (GpuMem l))) && errGo
  then (false, Some (ErrLeftGpuMem (GpuMem l))) else
  let '(rGpuMem, errGo) := ParseBytes (GpuMem r) in
  if negb (Nat.eqb 0 (String.length (GpuMem r))) && errGo
  then (false, Some (ErrRightGpuMem (GpuMem r))) else
  ((Cpus l <=? Cpus r)%N && (Gpus l <=? Gpus r)%N && (lHdd <=? rHdd)%N
     && (lRam <=? rRam)%N && (lGpuMem <=? rGpuMem)%N, None).

(** The earlier revision, which drops every parse error. *)
Definition Fit_v0 (l r : Resource) : bool :=
  let '(lRam, _) := ParseBytes (Ram l) in
  let '(rRam, _) := ParseBytes (Ram r) in
  let '(lHdd, _) := ParseBytes (Hdd l) in
  let '(rHdd, _) := ParseBytes (Hdd r) in
  let '(lGpuMem, _) := ParseBytes (GpuMem l) in
  let '(rGpuMem, _) := ParseBytes (GpuMem r) in
  (Cpus l <=? Cpus r)%N && (Gpus l <=? Gpus r)%N && (lHdd <=? rHdd)%N
    && (lRam <=? rRam)%N && (lGpuMem <=? rGpuMem)%N.

End Fit.

(** [Clone] copies through a gob encode and decode; for this flat
    record the copy is the value itself and neither step fails. *)
Definition Clone (l : Resource) : option Resource := Some l.

(** *** The request data model

    Slices and maps are [option]s: [None] is Go's nil, which
    [encoding/json] writes as [null], [Some []] and [Some ∅] are the
    empty non-nil values, written [[]] and [{}]. [int64] fields are
    [Z], [uint] fields are [N]; [float64] is binary64 held as a
    [spec_float]. Strings are texts in UTF-8: a byte that is not,
    [encoding/json] writes as U+FFFD, and no such string is meant
    here. A field whose Go name is also the name of its type,
    or of a field of another struct, carries a trailing underscore or
    the struct's initial. *)

Definition float64 : Type := spec_float.

(** What [encoding/json] stores in an [interface{}]: nil, bool,
    float64, string, [[]interface{}] and [map[string]interface{}]. *)
#[warnings="-register-all"] Inductive any :=
| AnyNil
| AnyBool (b : bool)
| AnyFloat (f : float64)
| AnyString (s : string)
| AnySlice (l : list any)
| AnyMap (m : gmap string any).

Record RunnerCustom := { SlackDest : string }.

Record Database := {
  ApiKey : string;
  AuthDomain : string;
  DatabaseURL : string;
  MessagingSenderId : Z;
  ProjectId : string;
  StorageBucket : string;
  Type_ : string;
  UseEmailAuth : bool
}.

Record Config := {
  Cloud : any;
  Database_ : Database;
  SaveWorkspaceFrequency : string;
  Lifetime : string;
  Verbose : string;
  Env : option (gmap string string);
  Pip : option (list string);
  Runner : RunnerCustom
}.

Record Info := { }.

Record Artifact := {
  Bucket : string;
  AKey : string;
  Hash : string;
  Local_ : string;
  Mutable : bool;
  Unpack : bool;
  Qualified : string
}.

Record Experiment := {
  Args : option (list string);
  Artifacts : option (gmap string Artifact);
  Filename : string;
  Git : any;
  Info_ : Info;
  Key : string;
  Metric : any;
  Project : any;
  Pythonenv : option (list string);
  PythonVer : Z;
  Resource_ : Resource;
  Status : string;
  TimeAdded : float64;
  MaxDuration : string;
  TimeFinished : any;
  TimeLastCheckpoint : any;
  TimeStarted : any
}.

Record Request := {
  Config_ : Config;
  Experiment_ : Experiment
}.

(** The zero values [&Request{}] starts from. *)
Definition zeroResource : Resource :=
  {| Cpus := 0; Gpus := 0; Hdd := EmptyString; Ram := EmptyString;
     GpuMem := EmptyString |}.
Definition zeroRunnerCustom : RunnerCustom := {| SlackDest := EmptyString |}.
Definition zeroDatabase : Database :=
  {| ApiKey := EmptyString; AuthDomain := EmptyString; DatabaseURL := EmptyString;
     MessagingSenderId := 0; ProjectId := EmptyString; StorageBucket := EmptyString;
     Type_ := EmptyString; UseEmailAuth := false |}.
Definition zeroConfig : Config :=
  {| Cloud := AnyNil; Database_ := zeroDatabase;
     SaveWorkspaceFrequency := EmptyString; Lifetime := EmptyString;
     Verbose := EmptyString; Env := None; Pip := None;
     Runner := zeroRunnerCustom |}.
Definition zeroArtifact : Artifact :=
  {| Bucket := EmptyString; AKey := EmptyString; Hash := EmptyString;
     Local_ := EmptyString; Mutable := false; Unpack := false;
     Qualified := EmptyString |}.
Definition zeroExperiment : Experiment :=
  {| Args := None; Artifacts := None; Filename := EmptyString; Git := AnyNil;
     Info_ := Build_Info; Key := EmptyString; Metric := AnyNil; Project := AnyNil;
     Pythonenv := None; PythonVer := 0; Resource_ := zeroResource;
     Status := EmptyString; TimeAdded := S754_zero false;
     MaxDuration := EmptyString; TimeFinished := AnyNil;
     TimeLastCheckpoint := AnyNil; TimeStarted := AnyNil |}.
Definition zeroRequest : Request :=
  {| Config_ := zeroConfig; Experiment_ := zeroExperiment |}.

(** *** JSON documents

    The message bytes as [encoding/json]'s scanner delivers them: a
    number is its literal text, a string or a member name the bytes of
    its literal with the escapes resolved, an object its members in
    the order of the text. Bytes that are no UTF-8 are let through by
    the scanner; the decoders and the encoders see to them. *)
#[warnings="-register-all"] Inductive json :=
| JNull
| JBool (b : bool)
| JNum (lit : string)
| JStr (s : string)
| JArr (elems : list json)
| JObj (members : list (string * json)).

(** **** Member names

    A member is routed to the struct field whose tag equals its name
    after case folding: ASCII letters fold to upper case, and the two
    other characters that fold onto an ASCII letter are U+017F (long
    s, bytes C5 BF) and U+212A (Kelvin sign, bytes E2 84 AA). No two
    tags of one struct fold to the same text, so the exact match that
    [encoding/json] prefers is the folded match. *)
Definition toUpper (a : ascii) : ascii :=
  let n := N_of_ascii a in
  if (97 <=? n)%N && (n <=? 122)%N then ascii_of_N (n - 32) else a.

Definition isLongS (a b : ascii) : bool :=
  (N_of_ascii a =? 197)%N && (N_of_ascii b =? 191)%N.

Definition isKelvin (a b c : ascii) : bool :=
  (N_of_ascii a =? 226)%N && (N_of_ascii b =? 132)%N && (N_of_ascii c =? 170)%N.

Fixpoint foldName (s : string) : string :=
  match s with
  | EmptyString => EmptyString
  | String a s1 =>
      match s1 with
      | String b s2 =>
          if isLongS a b then String "S" (foldName s2)
          else match s2 with
               | String c s3 =>
                   if isKelvin a b c then String "K" (foldName s3)
                   else String (toUpper a) (foldName s1)
               | EmptyString => String (toUpper a) (foldName s1)
               end
      | EmptyString => String (toUpper a) EmptyString
      end
  end.

Definition fieldIs (tag key : string) : bool :=
  String.eqb (foldName key) (foldName tag).

(** **** Integers as decimal literals ([strconv]) *)
Definition FormatInt (z : Z) : string := NilZero.string_of_int (Z.to_int z).

Definition ParseInt (lit : string) : option Z :=
  d ← NilZero.int_of_string lit;
  let z := Z.of_int d in
  if (- 2 ^ 63 <=? z) && (z <? 2 ^ 63) then Some z else None.

Definition FormatUint (n : N) : string := NilZero.string_of_uint (N.to_uint n).

Definition ParseUint (lit : string) : option N :=
  d ← NilZero.uint_of_string lit;
  let n := N.of_uint d in
  if (n <? 2 ^ 64)%N then Some n else None.

Section Codec.

(** [strconv]'s shortest decimal text of a float64, which
    [json.Marshal] refuses for NaN and the infinities ([None]), and
    the float64 nearest to a literal, refused when out of range. *)
Variable FormatFloat : float64 -> option string.
Variable ParseFloat : string -> option float64.

(** **** Decoding

    A decoder takes the value the destination holds and the JSON
    value; [None] is an [UnmarshalTypeError], which makes
    [json.Unmarshal] as a whole return an error. [null] leaves
    scalars and structs as they are and sets slices, maps and
    interfaces to nil. The text of a string and of a member name
    is coerced to well-formed UTF-8 as it is read. *)
Definition decString (cur : string) (j : json) : option string :=
  match j with
  | JNull => Some cur
  | JStr s => Some (Utf8.coerce s)
  | _ => None
  end.

Definition decBool (cur : bool) (j : json) : option bool :=
  match j with
  | JNull => Some cur
  | JBool b => Some b
  | _ => None
  end.

Definition decInt64 (cur : Z) (j : json) : option Z :=
  match j with
  | JNull => Some cur
  | JNum lit => ParseInt lit
  | _ => None
  end.

Definition decUint (cur : N) (j : json) : option N :=
  match j with
  | JNull => Some cur
  | JNum lit => ParseUint lit
  | _ => None
  end.

Definition decFloat64 (cur : float64) (j : json) : option float64 :=
  match j with
  | JNull => Some cur
  | JNum lit => ParseFloat lit
  | _ => None
  end.

(** Into an [interface{}]: the generic value; a repeated member
    name of an object keeps the last value. *)
Fixpoint decValue (j : json) : option any :=
  match j with
  | JNull => Some AnyNil
  | JBool b => Some (AnyBool b)
  | JNum lit => AnyFloat <$> ParseFloat lit
  | JStr s => Some (AnyString (Utf8.coerce s))
  | JArr elems => AnySlice <$> mapM decValue elems
  | JObj members =>
      AnyMap <$>
        (fix go (ms : list (string * json)) (acc : gmap string any) :=
           match ms with
           | [] => Some acc
           | (k, v) :: ms' => a ← decValue v; go ms' (<[Utf8.coerce k:=a]> acc)
           end) members ∅
  end.

Definition decAny (cur : any) (j : json) : option any := decValue j.

(** The elements of an array into the elements of a backing array,
    in order; past its end an element starts from the zero value. *)
Fixpoint decElems (backing : list string) (elems : list json)
    : option (list string) :=
  match elems with
  | [] => Some []
  | j :: elems' =>
      x ← decString (hd EmptyString backing) j;
      xs ← decElems (tl backing) elems';
      Some (x :: xs)
  end.

(** Into a [[]string], which is the slice and, second, what its
    backing array holds beyond the length of the slice. The slice is
    lengthened one element at a time over its backing array, and
    where that has to grow the new part is zero; so each element is
    decoded into what the backing array holds at its place, which a
    [null] leaves there, and at the end the length is that of the
    array read. An empty array gives a new slice of no capacity, a
    [null] the nil slice. *)
Definition decStrings (cur : option (list string) * list string) (j : json)
    : option (option (list string) * list string) :=
  match j with
  | JNull => Some (None, [])
  | JArr [] => Some (Some [], [])
  | JArr elems =>
      let backing := default [] cur.1 ++ cur.2 in
      l ← decElems backing elems;
      Some (Some l, drop (length elems) backing)
  | _ => None
  end.

(** Into a map: entries are added to the map already there, each
    value decoded from the zero value of the element type. *)
Fixpoint decEntries {V} (dec : json -> option V) (ms : list (string * json))
    (acc : gmap string V) : option (gmap string V) :=
  match ms with
  | [] => Some acc
  | (k, v) :: ms' => x ← dec v; decEntries dec ms' (<[Utf8.coerce k:=x]> acc)
  end.

Definition decMap {V} (dec : json -> option V) (cur : option (gmap string V))
    (j : json) : option (option (gmap string V)) :=
  match j with
  | JNull => Some None
  | JObj ms => Some <$> decEntries dec ms (default ∅ cur)
  | _ => None
  end.

(** Into a struct: [decode] routes the members of an object. *)
Definition decStruct {T} (decode : T -> list (string * json) -> option T)
    (cur : T) (j : json) : option T :=
  match j with
  | JNull => Some cur
  | JObj ms => decode cur ms
  | _ => None
  end.

(** The members of an object routed to the field tagged [tag],
    decoded one after the other into that field. The decoder walks
    the members once and fields do not overlap, so what a field
    ends with is fixed by the members routed to it, in order. *)
Definition field {T} (dec : T -> json -> option T) (tag : string)
    (ms : list (string * json)) (cur : T) : option T :=
  fold_left
    (fun acc kv =>
       if fieldIs tag (Utf8.coerce kv.1) then cur ← acc; dec cur kv.2 else acc)
    ms (Some cur).

Definition decodeResource (cur : Resource) (ms : list (string * json))
    : option Resource :=
  cpus ← field decUint "cpus" ms (Cpus cur);
  gpus ← field decUint "gpus" ms (Gpus cur);
  hdd ← field decString "hdd" ms (Hdd cur);
  ram ← field decString "ram" ms (Ram cur);
  gpuMem ← field decString "gpuMem" ms (GpuMem cur);
  Some {| Cpus := cpus; Gpus := gpus; Hdd := hdd; Ram := ram; GpuMem := gpuMem |}.

Definition decodeRunnerCustom (cur : RunnerCustom) (ms : list (string * json))
    : option RunnerCustom :=
  slack ← field decString "slack_destination" ms (SlackDest cur);
  Some {| SlackDest := slack |}.

Definition decodeDatabase (cur : Database) (ms : list (string * json))
    : option Database :=
  apiKey ← field decString "apiKey" ms (ApiKey cur);
  authDomain ← field decString "authDomain" ms (AuthDomain cur);
  databaseURL ← field decString "databaseURL" ms (DatabaseURL cur);
  sender ← field decInt64 "messagingSenderId" ms (MessagingSenderId cur);
  projectId ← field decString "projectId" ms (ProjectId cur);
  bucket ← field decString "storageBucket" ms (StorageBucket cur);
  type ← field decString "type" ms (Type_ cur);
  emailAuth ← field decBool "use_email_auth" ms (UseEmailAuth cur);
  Some {| ApiKey := apiKey; AuthDomain := authDomain; DatabaseURL := databaseURL;
          MessagingSenderId := sender; ProjectId := projectId;
          StorageBucket := bucket; Type_ := type; UseEmailAuth := emailAuth |}.

(** A [Config] under decoding comes with what the backing array of
    [Pip] holds beyond its length. *)
Definition decodeConfig (cur : Config * list string) (ms : list (string * json))
    : option (Config * list string) :=
  cloud ← field decAny "cloud" ms (Cloud cur.1);
  database ← field (decStruct decodeDatabase) "database" ms (Database_ cur.1);
  freq ← field decString "saveWorkspaceFrequency" ms (SaveWorkspaceFrequency cur.1);
  lifetime ← field decString "experimentLifetime" ms (Lifetime cur.1);
  verbose ← field decString "verbose" ms (Verbose cur.1);
  env ← field (decMap (decString EmptyString)) "env" ms (Env cur.1);
  pip ← field decStrings "pip" ms (Pip cur.1, cur.2);
  runner ← field (decStruct decodeRunnerCustom) "runner" ms (Runner cur.1);
  Some ({| Cloud := cloud; Database_ := database; SaveWorkspaceFrequency := freq;
           Lifetime := lifetime; Verbose := verbose; Env := env; Pip := pip.1;
           Runner := runner |}, pip.2).

(** [Info] has no fields: every member of its object is dropped. *)
Definition decodeInfo (cur : Info) (ms : list (string * json)) : option Info :=
  Some cur.

Definition decodeArtifact (cur : Artifact) (ms : list (string * json))
    : option Artifact :=
  bucket ← field decString "bucket" ms (Bucket cur);
  key ← field decString "key" ms (AKey cur);
  hash ← field decString "hash" ms (Hash cur);
  loc ← field decString "local" ms (Local_ cur);
  mutable ← field decBool "mutable" ms (Mutable cur);
  unpack ← field decBool "unpack" ms (Unpack cur);
  qualified ← field decString "qualified" ms (Qualified cur);
  Some {| Bucket := bucket; AKey := key; Hash := hash; Local_ := loc;
          Mutable := mutable; Unpack := unpack; Qualified := qualified |}.

(** An [Experiment] under decoding comes with what the backing
    arrays of [Args] and of [Pythonenv] hold beyond their lengths. *)
Definition decodeExperiment (cur : Experiment * (list string * list string))
    (ms : list (string * json)) : option (Experiment * (list string * list string)) :=
  args ← field decStrings "args" ms (Args cur.1, cur.2.1);
  artifacts ← field (decMap (decStruct decodeArtifact zeroArtifact)) "artifacts" ms
                (Artifacts cur.1);
  filename ← field decString "filename" ms (Filename cur.1);
  git ← field decAny "git" ms (Git cur.1);
  info ← field (decStruct decodeInfo) "info" ms (Info_ cur.1);
  key ← field decString "key" ms (Key cur.1);
  metric ← field decAny "metric" ms (Metric cur.1);
  project ← field decAny "project" ms (Project cur.1);
  pythonenv ← field decStrings "pythonenv" ms (Pythonenv cur.1, cur.2.2);
  pythonver ← field decInt64 "pythonver" ms (PythonVer cur.1);
  resource ← field (decStruct decodeResource) "resources_needed" ms (Resource_ cur.1);
  status ← field decString "status" ms (Status cur.1);
  timeAdded ← field decFloat64 "time_added" ms (TimeAdded cur.1);
  maxDuration ← field decString "max_duration" ms (MaxDuration cur.1);
  timeFinished ← field decAny "time_finished" ms (TimeFinished cur.1);
  timeLast ← field decAny "time_last_checkpoint" ms (TimeLastCheckpoint cur.1);
  timeStarted ← field decAny "time_started" ms (TimeStarted cur.1);
  Some ({| Args := args.1; Artifacts := artifacts; Filename := filename; Git := git;
           Info_ := info; Key := key; Metric := metric; Project := project;
           Pythonenv := pythonenv.1; PythonVer := pythonver; Resource_ := resource;
           Status := status; TimeAdded := timeAdded; MaxDuration := maxDuration;
           TimeFinished := timeFinished; TimeLastCheckpoint := timeLast;
           TimeStarted := timeStarted |}, (args.2, pythonenv.2)).

(** [cur] is a request that has not been decoded into, as the one
    [UnmarshalRequest] makes: its slices have no backing array beyond
    their lengths. *)
Definition decodeRequest (cur : Request) (ms : list (string * json))
    : option Request :=
  config ← field (decStruct decodeConfig) "config" ms (Config_ cur, []);
  experiment ← field (decStruct decodeExperiment) "experiment" ms
                 (Experiment_ cur, ([], []));
  Some {| Config_ := config.1; Experiment_ := experiment.1 |}.

(** [r = &Request{}; json.Unmarshal(data, r)]: the request, or
    [None] for [(nil, err)]. *)
Definition UnmarshalRequest (data : json) : option Request :=
  decStruct decodeRequest zeroRequest data.

(** **** Encoding

    Struct fields are written in declaration order under their
    tags, map entries sorted by key, a field tagged [omitempty] is
    left out when it is empty. A string and the key of a map entry
    are written coerced to well-formed UTF-8; the entries are sorted
    by the keys the map has. *)
Definition encString (s : string) : json := JStr (Utf8.coerce s).

Definition byKey {V} (x y : string * V) : Prop := String.le x.1 y.1.

#[local] Instance byKey_dec {V} : RelDecision (@byKey V).
Proof. intros x y. unfold byKey. apply _. Defined.

Definition sortMembers {V} (ms : list (string * V)) : list (string * V) :=
  merge_sort byKey ms.

Definition encEntries {V} (enc : V -> json) (m : gmap string V)
    : list (string * json) :=
  prod_map Utf8.coerce id <$> sortMembers (map_to_list (enc <$> m)).

Definition encMap {V} (enc : V -> json) (m : option (gmap string V)) : json :=
  match m with
  | None => JNull
  | Some m => JObj (encEntries enc m)
  end.

Definition encStrings (l : option (list string)) : json :=
  match l with
  | None => JNull
  | Some l => JArr (encString <$> l)
  end.

Definition sequenceMembers (ms : list (string * option json))
    : option (list (string * json)) :=
  mapM (fun kv => j ← kv.2; Some (Utf8.coerce kv.1, j)) ms.

Fixpoint encAny (a : any) : option json :=
  match a with
  | AnyNil => Some JNull
  | AnyBool b => Some (JBool b)
  | AnyFloat f => JNum <$> FormatFloat f
  | AnyString s => Some (encString s)
  | AnySlice l => JArr <$> mapM encAny l
  | AnyMap m => JObj <$> sequenceMembers (sortMembers (map_to_list (encAny <$> m)))
  end.

Definition omitempty (tag : string) (s : string) : list (string * json) :=
  if String.eqb s EmptyString then [] else [(tag, encString s)].

Definition encResource (r : Resource) : json :=
  JObj [("cpus", JNum (FormatUint (Cpus r)));
        ("gpus", JNum (FormatUint (Gpus r)));
        ("hdd", encString (Hdd r));
        ("ram", encString (Ram r));
        ("gpuMem", encString (GpuMem r))].

Definition encRunnerCustom (r : RunnerCustom) : json :=
  JObj [("slack_destination", encString (SlackDest r))].

Definition encDatabase (d : Database) : json :=
  JObj [("apiKey", encString (ApiKey d));
        ("authDomain", encString (AuthDomain d));
        ("databaseURL", encString (DatabaseURL d));
        ("messagingSenderId", JNum (FormatInt (MessagingSenderId d)));
        ("projectId", encString (ProjectId d));
        ("storageBucket", encString (StorageBucket d));
        ("type", encString (Type_ d));
        ("use_email_auth", JBool (UseEmailAuth d))].

Definition encConfig (c : Config) : option json :=
  cloud ← encAny (Cloud c);
  Some (JObj [("cloud", cloud);
              ("database", encDatabase (Database_ c));
              ("saveWorkspaceFrequency", encString (SaveWorkspaceFrequency c));
              ("experimentLifetime", encString (Lifetime c));
              ("verbose", encString (Verbose c));
              ("env", encMap encString (Env c));
              ("pip", encStrings (Pip c));
              ("runner", encRunnerCustom (Runner c))]).

Definition encArtifact (a : Artifact) : json :=
  JObj ([("bucket", encString (Bucket a)); ("key", encString (AKey a))]
          ++ omitempty "hash" (Hash a)
          ++ omitempty "local" (Local_ a)
          ++ [("mutable", JBool (Mutable a));
              ("unpack", JBool (Unpack a));
              ("qualified", encString (Qualified a))]).

Definition encExperiment (e : Experiment) : option json :=
  git ← encAny (Git e);
  metric ← encAny (Metric e);
  project ← encAny (Project e);
  timeAdded ← FormatFloat (TimeAdded e);
  timeFinished ← encAny (TimeFinished e);
  timeLast ← encAny (TimeLastCheckpoint e);
  timeStarted ← encAny (TimeStarted e);
  Some (JObj [("args", encStrings (Args e));
              ("artifacts", encMap encArtifact (Artifacts e));
              ("filename", encString (Filename e));
              ("git", git);
              ("info", JObj []);
              ("key", encString (Key e));
              ("metric", metric);
              ("project", project);
              ("pythonenv", encStrings (Pythonenv e));
              ("pythonver", JNum (FormatInt (PythonVer e)));
              ("resources_needed", encResource (Resource_ e));
              ("status", encString (Status e));
              ("time_added", JNum timeAdded);
              ("max_duration", encString (MaxDuration e));
              ("time_finished", timeFinished);
              ("time_last_checkpoint", timeLast);
              ("time_started", timeStarted)]).

(** [json.Marshal(r)]: the document, or [None] for the error. *)
Definition Marshal (r : Request) : option json :=
  config ← encConfig (Config_ r);
  experiment ← encExperiment (Experiment_ r);
  Some (JObj [("config", config); ("experiment", experiment)]).

End Codec.

End Runner.

(** ** Byte sizes

    [humanize.ParseBytes] of github.com/dustin/go-humanize, on the
    bytes of the text. The number is the leading run of digits, points
    and commas; with the commas taken out it is read by
    [strconv.ParseFloat] as a float64, multiplied by the unit that
    follows, and converted back. A number without a digit or with more
    than one point, a number beyond the float64s, an unknown unit and a
    product of 2^64 or more are errors, which come with the value 0.

    The library goes through the text rune by rune and also takes a
    digit beyond ASCII into the number, which [strconv.ParseFloat] then
    refuses; here such a digit ends the number and is no unit: an
    error either way. *)

Module Humanize.

Definition isDigit (a : ascii) : bool :=
  let n := N_of_ascii a in (48 <=? n)%N && (n <=? 57)%N.

(** The number with its commas taken out: its digits as a whole
    number, how many of them stand after the first point, the points,
    and whether there is a digit at all. *)
Record numeral := {
  mantissa : N;
  fraction : N;
  points : nat;
  sawDigit : bool
}.

Definition numeral0 : numeral :=
  {| mantissa := 0; fraction := 0; points := 0; sawDigit := false |}.

(** Splits off the leading digits, points and commas. *)
Fixpoint number (acc : numeral) (s : string) : numeral * string :=
  match s with
  | String a s' =>
      if isDigit a then
        number {| mantissa := 10 * mantissa acc + (N_of_ascii a - 48);
                  fraction := if (0 <? points acc)%nat then fraction acc + 1
                              else fraction acc;
                  points := points acc;
                  sawDigit := true |} s'
      else if (N_of_ascii a =? 46)%N then
        number {| mantissa := mantissa acc; fraction := fraction acc;
                  points := S (points acc); sawDigit := sawDigit acc |} s'
      else if (N_of_ascii a =? 44)%N then number acc s'
      else (acc, s)
  | EmptyString => (acc, s)
  end.

(** [strconv.ParseFloat(num, 64)] on such a number: the float64
    nearest to its value, ties to even; [None] for the syntax error
    of a number without a digit or with two points, and for a value
    out of range. The quotient by the power of ten is taken with
    [1100 + 4 * fraction] binary places and a sticky bit below them,
    which is beneath the place any float64 of that size is rounded
    at. *)
Definition ParseFloat (num : numeral) : option spec_float :=
  if negb (sawDigit num) || (1 <? points num)%nat then None
  else
    let k := Z.of_N (fraction num) in
    let places := 1100 + 4 * k in
    let scaled := Z.of_N (mantissa num) * 2 ^ places in
    let sticky := if scaled mod 10 ^ k =? 0 then 0 else 1 in
    match binary_normalize F64.prec F64.emax (2 * (scaled / 10 ^ k) + sticky)
                           (- (places + 1)) false with
    | S754_zero sg => Some (S754_zero sg)
    | S754_finite sg m e => Some (S754_finite sg m e)
    | _ => None
    end.

(** [unicode.IsSpace] on the UTF-8 bytes of a rune: of one byte the
    tab to the carriage return and the space; of two bytes U+0085 and
    U+00A0; of three bytes U+1680, U+2000 to U+200A, U+2028, U+2029,
    U+202F, U+205F and U+3000. *)
Definition isSpace (a : ascii) : bool :=
  let n := N_of_ascii a in (n =? 32)%N || ((9 <=? n)%N && (n <=? 13)%N).

Definition isSpace2 (a b : ascii) : bool :=
  (N_of_ascii a =? 194)%N && ((N_of_ascii b =? 133)%N || (N_of_ascii b =? 160)%N).

Definition isSpace3 (a b c : ascii) : bool :=
  let '(x, y, z) := (N_of_ascii a, N_of_ascii b, N_of_ascii c) in
  ((x =? 225) && (y =? 154) && (z =? 128))%N
  || ((x =? 226) && (y =? 128)
      && (((128 <=? z) && (z <=? 138)) || (z =? 168) || (z =? 169) || (z =? 175)))%N
  || ((x =? 226) && (y =? 129) && (z =? 159))%N
  || ((x =? 227) && (y =? 128) && (z =? 128))%N.

Fixpoint trimLeft (s : string) : string :=
  match s with
  | String a s1 =>
      if isSpace a then trimLeft s1
      else match s1 with
           | String b s2 =>
               if isSpace2 a b then trimLeft s2
               else match s2 with
                    | String c s3 => if isSpace3 a b c then trimLeft s3 else s
                    | EmptyString => s
                    end
           | EmptyString => s
           end
  | EmptyString => EmptyString
  end.

(** The same from the end, on the text reversed. *)
Fixpoint trimRight (reversed : string) : string :=
  match reversed with
  | String c s1 =>
      if isSpace c then trimRight s1
      else match s1 with
           | String b s2 =>
               if isSpace2 b c then trimRight s2
               else match s2 with
                    | String a s3 => if isSpace3 a b c then trimRight s3 else reversed
                    | EmptyString => reversed
                    end
           | EmptyString => reversed
           end
  | EmptyString => EmptyString
  end.

Definition trimSpace (s : string) : string :=
  String.rev (trimRight (String.rev (trimLeft s))).

Definition toLower (a : ascii) : ascii :=
  let n := N_of_ascii a in
  if (65 <=? n)%N && (n <=? 90)%N then ascii_of_N (n + 32) else a.

(** [strings.ToLower] as far as the names of the units, which are
    ASCII, can tell: the letters of ASCII, and the two runes beyond
    ASCII whose lower case is a letter of ASCII, U+0130 for [i] and
    the Kelvin sign U+212A for [k]. Any other rune beyond ASCII is
    lowered to a rune beyond ASCII and is left as it is. *)
Fixpoint lower (s : string) : string :=
  match s with
  | String a s1 =>
      match s1 with
      | String b s2 =>
          if ((N_of_ascii a =? 196) && (N_of_ascii b =? 176))%N
          then String "i" (lower s2)
          else match s2 with
               | String c s3 =>
                   if ((N_of_ascii a =? 226) && (N_of_ascii b =? 132)
                       && (N_of_ascii c =? 170))%N
                   then String "k" (lower s3)
                   else String (toLower a) (lower s1)
               | EmptyString => String (toLower a) (lower s1)
               end
      | EmptyString => String (toLower a) EmptyString
      end
  | EmptyString => EmptyString
  end.

Definition bytesSizeTable : list (string * Z) :=
  [("b", 1); ("kib", 2 ^ 10); ("kb", 10 ^ 3); ("mib", 2 ^ 20); ("mb", 10 ^ 6);
   ("gib", 2 ^ 30); ("gb", 10 ^ 9); ("tib", 2 ^ 40); ("tb", 10 ^ 12);
   ("pib", 2 ^ 50); ("pb", 10 ^ 15); ("eib", 2 ^ 60); ("eb", 10 ^ 18);
   (EmptyString, 1); ("ki", 2 ^ 10); ("k", 10 ^ 3); ("mi", 2 ^ 20); ("m", 10 ^ 6);
   ("gi", 2 ^ 30); ("g", 10 ^ 9); ("ti", 2 ^ 40); ("t", 10 ^ 12);
   ("pi", 2 ^ 50); ("p", 10 ^ 15); ("ei", 2 ^ 60); ("e", 10 ^ 18)]%string.

Definition unitOf (extra : string) : option Z :=
  snd <$> List.find (fun kv => String.eqb kv.1 extra) bytesSizeTable.

Definition ParseBytes (s : string) : N * bool :=
  let '(num, rest) := number numeral0 s in
  match ParseFloat num with
  | None => (0%N, true)
  | Some f =>
      match unitOf (lower (trimSpace rest)) with
      | Some m =>
          let f := F64.mul f (F64.of_u64 m) in
          if F64.leb (F64.of_u64 (2 ^ 64 - 1)) f then (0%N, true)
          else (Z.to_N (F64.to_u64 f), false)
      | None => (0%N, true)
      end
  end.

End Humanize.

(** ** The functions of Go's package [strings] the runner uses *)

Module GoStrings.

Definition HasPrefix (s prefix : string) : bool := String.prefix prefix s.

Fixpoint drop (n : nat) (s : string) : string :=
  match n, s with
  | O, _ => s
  | S n', String _ s' => drop n' s'
  | S _, EmptyString => EmptyString
  end.

Definition HasSuffix (s suffix : string) : bool :=
  (String.length suffix <=? String.length s)%nat
  && String.eqb (drop (String.length s - String.length suffix) s) suffix.

Definition Join (elems : list string) (sep : string) : string :=
  String.concat sep elems.

(** [Split] for a separator that is not empty: [skip] counts the
    characters of the separator found that are still to be passed,
    [piece] holds the piece being read, last character first. *)
Fixpoint splitFrom (sep : string) (skip : nat) (piece : string) (s : string)
    : list string :=
  match s with
  | EmptyString => [String.rev piece]
  | String c s' =>
      match skip with
      | S k => splitFrom sep k piece s'
      | O =>
          if String.prefix sep s
          then String.rev piece :: splitFrom sep (String.length sep - 1) EmptyString s'
          else splitFrom sep O (String c piece) s'
      end
  end.

Definition Split (s sep : string) : list string := splitFrom sep O EmptyString s.

(** [SplitN(s, sep, 2)]: around the first separator, or [s] alone. *)
Definition SplitN2 (s sep : string) : list string :=
  match String.index 0 sep s with
  | Some i =>
      [String.substring 0 i s;
       drop (i + String.length sep) s]
  | None => [s]
  end.

End GoStrings.

(** ** The queue scheduler (the [Queuer] of the runner command) *)

Module Queue.

Import Runner.

(** [time.Duration] and clock readings are nanoseconds. *)
Definition second : Z := 1000000000.
Definition minute : Z := 60 * second.
Definition hour : Z := 60 * minute.

(** *** The back-off cache (github.com/karlmutch/go-cache)

    Every stored object is [true]; an entry is its expiry time, 0 for
    an entry that never expires. The janitor only removes entries that
    [Get] no longer reports. *)
Record Cache := {
  defaultExpiration : Z;
  items : gmap string Z
}.

Definition New (defaultExpiration cleanupInterval : Z) : Cache :=
  {| defaultExpiration := defaultExpiration; items := ∅ |}.

(** [c.Set(k, true, d)] at clock reading [now]. *)
Definition Set_ (c : Cache) (k : string) (d : Z) (now : Z) : Cache :=
  let d := if d =? 0 then defaultExpiration c else d in
  let e := if 0 <? d then now + d else 0 in
  {| defaultExpiration := defaultExpiration c; items := <[k:=e]> (items c) |}.

(** [_, isPresent := c.Get(k)] at clock reading [now]. *)
Definition Get (c : Cache) (k : string) (now : Z) : bool :=
  match items c !! k with
  | None => false
  | Some e => if 0 <? e then negb (e <? now) else true
  end.

(** [backoffs = cache.New(10*time.Second, time.Minute)] *)
Definition backoffs0 : Cache := New (10 * second) minute.

(** *** Subscriptions *)
Record Subscription := {
  name : string;
  rsc : option Resource;
  cnt : N
}.

Record Queuer := {
  project : string;
  cred : string;
  subs : gmap string Subscription
}.

Record subRequest := {
  project_ : string;
  subscription : string;
  creds : string
}.

Definition NewQueuer (projectID credFile : string) : Queuer :=
  {| project := projectID; cred := credFile; subs := ∅ |}.

Inductive subsError :=
| ErrClearResource (name : string)
| ErrNotPresent (name : string).

Definition setResources (name : string) (rsc : option Resource)
    (subs : gmap string Subscription) : option subsError * gmap string Subscription :=
  match rsc with
  | None => (Some (ErrClearResource name), subs)
  | Some r =>
      match subs !! name with
      | None => (Some (ErrNotPresent name), subs)
      | Some q =>
          (None, <[name := {| name := Queue.name q; rsc := Some r; cnt := cnt q |}]> subs)
      end
  end.

Section Ranging.

(** The order in which a [for ... range] statement visits the keys of
    a map: Go leaves it open, and so does this. *)
Variable rangeKeys : forall V, gmap string V -> list string.

Definition rangeValues {V} (m : gmap string V) : list V :=
  omap (fun k => m !! k) (rangeKeys V m).

Definition alignAdd (acc : gmap string Subscription * list string) (sub : string)
    : gmap string Subscription * list string :=
  match acc.1 !! sub with
  | None => (<[sub := {| name := sub; rsc := None; cnt := 0 |}]> acc.1, acc.2 ++ [sub])
  | Some _ => acc
  end.

Definition alignRemove {V} (expected : gmap string V)
    (acc : gmap string Subscription * list string) (sub : string)
    : gmap string Subscription * list string :=
  match expected !! sub with
  | None => (delete sub acc.1, acc.2 ++ [sub])
  | Some _ => acc
  end.

(** [align] returns [added], [removed] and the catalog it leaves. The
    second loop deletes only the key it is visiting, so it visits every
    key the catalog has when the loop starts. *)
Definition align {V} (expected : gmap string V) (subs : gmap string Subscription)
    : list string * list string * gmap string Subscription :=
  let '(subs1, added) := fold_left alignAdd (rangeKeys V expected) (subs, []) in
  let '(subs2, removed) :=
    fold_left (alignRemove expected) (rangeKeys Subscription subs1) (subs1, []) in
  (added, removed, subs2).

Definition byCnt (a b : Subscription) : Prop := (cnt a <= cnt b)%N.

#[local] Instance byCnt_dec : RelDecision byCnt.
Proof. intros a b. unfold byCnt. apply _. Defined.

(** [rank]: a copy of every subscription, ascending by [cnt]. *)
Definition rank (qr : Queuer) : list Subscription :=
  merge_sort byCnt (rangeValues (subs qr)).

End Ranging.

(** [slc[r], slc[i] = slc[i], slc[r]] *)
Definition swap {A} (i r : nat) (slc : list A) : list A :=
  match slc !! i, slc !! r with
  | Some x, Some y => <[i:=y]> (<[r:=x]> slc)
  | _, _ => slc
  end.

(** The Fisher-Yates loop from index [i], [k] rounds to go; [rnd] are
    the raw draws, [rand.Intn(n-i)] is the next draw reduced below
    [n-i]. *)
Fixpoint shuffleFrom (k i : nat) (rnd : list nat) (slc : list Subscription)
    : list Subscription :=
  match k with
  | O => slc
  | S k' =>
      let r := (i + hd 0 rnd mod (length slc - i))%nat in
      shuffleFrom k' (S i) (tl rnd) (swap i r slc)
  end.

Definition shuffle (rnd : list nat) (slc : list Subscription) : list Subscription :=
  shuffleFrom (length slc) 0 rnd slc.

(** *** The producer and its probe *)

Inductive checkError :=
| ErrStage1Busy
| ErrSubscriptionNotFound (fqName : string)
| ErrFit (e : FitError)
| ErrNotAccomodated (fqName : string) (need have : Resource)
| ErrStage2Busy.

(** The receiving end of the unbuffered request channel, as [check]
    meets it: [ready1] is whether a receiver is waiting at the instant
    of the non-blocking first send, [ready2] whether a receiver takes
    the second send within its two seconds. *)
Record consumerEnd := {
  ready1 : bool;
  ready2 : bool
}.

Section Scheduling.

Variable ParseBytes : string -> N * bool.
Variable rangeKeys : forall V, gmap string V -> list string.

(** [check] returns its error and the requests it handed over;
    [machine] is what [getMachineResources()] reports. *)
Definition check (qr : Queuer) (name : string) (machine : Resource)
    (rQ : consumerEnd) : option checkError * list subRequest :=
  let fqName := (project qr ++ ":" ++ name)%string in
  if negb (ready1 rQ) then (Some ErrStage1Busy, [])
  else
    let sentinel := {| project_ := EmptyString; subscription := EmptyString;
                       creds := EmptyString |} in
    match subs qr !! name with
    | None => (Some (ErrSubscriptionNotFound fqName), [sentinel])
    | Some sub =>
        let refused :=
          match rsc sub with
          | Some need =>
              let '(fit, err) := Fit ParseBytes need machine in
              if negb fit then
                match err with
                | Some e => Some (ErrFit e)
                | None => Some (ErrNotAccomodated fqName need machine)
                end
              else None
          | None => None
          end in
        match refused with
        | Some e => (Some e, [sentinel])
        | None =>
            if ready2 rQ
            then (None, [sentinel;
                         {| project_ := project qr; subscription := name;
                            creds := cred qr |}])
            else (Some ErrStage2Busy, [sentinel])
        end
    end.

Record producerState := {
  lastReady : Z;
  lastReadyAbs : Z
}.

Record ticked := {
  backoffs' : Cache;
  state' : producerState;
  sent : list subRequest;
  warned : bool
}.

(** The subscriptions with nothing running here and no back-off. *)
Definition idleOf (qr : Queuer) (backoffs : Cache) (now : Z)
    (ranked : list Subscription) : list Subscription :=
  List.filter
    (fun sub => (cnt sub =? 0)%N
                && negb (Get backoffs (project qr ++ ":" ++ name sub) now))
    ranked.

(** The check for having gone an hour without asking for work. *)
Definition lastReadyCheck (backoffs : Cache) (st : producerState) (now : Z)
    (sent : list subRequest) : ticked :=
  if lastReady st <? now - hour
  then {| backoffs' := backoffs;
          state' := {| lastReady := lastReady st + 10 * minute;
                       lastReadyAbs := lastReadyAbs st |};
          sent := sent; warned := true |}
  else {| backoffs' := backoffs; state' := st; sent := sent; warned := false |}.

(** One firing of the producer's ticker: [t0] is the clock while the
    idle queues are collected, [t1] the clock once [check] is back. *)
Definition tick (qr : Queuer) (backoffs : Cache) (st : producerState)
    (t0 t1 : Z) (rnd : list nat) (machine : Resource) (rQ : consumerEnd) : ticked :=
  let ranked := rank rangeKeys qr in
  let idle := idleOf qr backoffs t0 ranked in
  match shuffle rnd idle with
  | [] => lastReadyCheck backoffs st t1 []
  | first :: _ =>
      let '(err, sent) := check qr (name first) machine rQ in
      match err with
      | Some _ =>
          {| backoffs' := Set_ backoffs (project qr ++ ":" ++ name first) minute t1;
             state' := st; sent := sent; warned := false |}
      | None =>
          lastReadyCheck backoffs {| lastReady := t1; lastReadyAbs := t1 |} t1 sent
      end
  end.

End Scheduling.

(** *** The message handler of [doWork] *)

Record Message := {
  ID : string;
  Data : string
}.

Record processor := {
  Request_ : Request
}.

Inductive disposition := Ack | Nack.

Record handled := {
  reply : disposition;
  cancelled : bool;
  queuer' : Queuer;
  cache' : Cache
}.

Section Handling.

(** [newProcessor(subscription, msg, cred, quitC)], which reads the
    message into a request and prepares its working area, and
    [proc.Process(msg)], which runs it: errors are their texts. *)
Variable newProcessor : string -> Message -> string -> string + processor.
Variable Process : processor -> Message -> Z * bool * option string.

(** The function [doWork] passes to [sub.Receive], for one message.
    [t0] is the clock on entry, [t1] the clock when [Process] is back;
    [meanwhile] is what the other goroutines did to the back-off cache
    while [Process] ran. *)
Definition handler (qr : Queuer) (request : subRequest) (backoffs : Cache)
    (t0 : Z) (msg : Message) (meanwhile : Cache -> Cache) (t1 : Z) : handled :=
  let key := (project_ request ++ ":" ++ subscription request)%string in
  if Get backoffs key t0
  then {| reply := Nack; cancelled := true; queuer' := qr; cache' := backoffs |}
  else
    match newProcessor (subscription request) msg (cred qr) with
    | inl err =>
        {| reply := Nack; cancelled := true; queuer' := qr; cache' := backoffs |}
    | inr proc =>
        let subs1 :=
          (setResources (subscription request)
                        (Clone (Resource_ (Experiment_ (Request_ proc))))
                        (subs qr)).2 in
        let qr1 := {| project := project qr; cred := cred qr; subs := subs1 |} in
        let '(backoff, ack, err) := Process proc msg in
        let backoffs1 := meanwhile backoffs in
        match err with
        | Some _ =>
            {| reply := if ack then Ack else Nack; cancelled := true;
               queuer' := qr1; cache' := Set_ backoffs1 key backoff t1 |}
        | None =>
            {| reply := Ack; cancelled := false; queuer' := qr1;
               cache' := if Get backoffs1 key t1
                         then Set_ backoffs1 key second t1
                         else backoffs1 |}
        end
    end.

End Handling.

(** *** Refreshing the catalog *)

(** The summary [refresh] logs and sends to slack, if any. *)
Definition refreshMessage (project : string) (added removed : list string)
    : option string :=
  let msg := EmptyString in
  let msg :=
    if negb (Nat.eqb 0 (length added))
    then (msg ++ ("added queues " ++ GoStrings.Join added ", "))%string
    else msg in
  let msg :=
    if negb (Nat.eqb 0 (length removed))
    then GoStrings.Join
           [msg; ("removed queues " ++ GoStrings.Join removed ", ")%string] ", and "
    else msg in
  if negb (Nat.eqb 0 (String.length msg))
  then Some ("project " ++ project ++ " " ++ msg)%string
  else None.

Record refreshed := {
  failed : bool;
  logged : option string;
  catalog : Queuer
}.

Section Refreshing.

Variable rangeKeys : forall V, gmap string V -> list string.

(** [refresh], from the listing on: [known] holds the IDs of the
    subscriptions the project has, [None] when the client could not
    be made or the listing failed. *)
Definition refresh {V} (known : option (gmap string V)) (qr : Queuer) : refreshed :=
  match known with
  | None => {| failed := true; logged := None; catalog := qr |}
  | Some known =>
      let '(added, removed, subs') := align rangeKeys known (subs qr) in
      {| failed := false;
         logged := refreshMessage (project qr) added removed;
         catalog := {| project := project qr; cred := cred qr; subs := subs' |} |}
  end.

End Refreshing.

End Queue.

(** ** The SQS queues

    The AWS service is what it answers: a listing of queue URLs, any of
    which may be a nil pointer, or a failure of the session or of the
    call. *)

Module Sqs.

Import Runner.

Record SQS := {
  project : string;
  region : string
}.

Inductive error :=
| ErrService
| ErrUrlParse (qURL : string)
| ErrCancel.

Section Service.

(** [url.Parse(qURL)] and the [Path] of what it returns, [None] for
    its error. *)
Variable urlPath : string -> option string.

(** The loop of [listQueues] that keeps the URLs whose last path
    element matches. *)
Fixpoint matching (qNameMatch : string -> bool) (urls : list (option string))
    : error + list (option string) :=
  match urls with
  | [] => inr []
  | None :: urls' => matching qNameMatch urls'
  | Some qURL :: urls' =>
      match urlPath qURL with
      | None => inl (ErrUrlParse qURL)
      | Some path =>
          let paths := GoStrings.Split path "/" in
          match matching qNameMatch urls' with
          | inl e => inl e
          | inr queues =>
              if qNameMatch (List.last paths EmptyString)
              then inr (Some qURL :: queues)
              else inr queues
          end
      end
  end.

(** [qNameMatch] is the compiled expression, [None] for nil. *)
Definition listQueues (listed : option (list (option string)))
    (qNameMatch : option (string -> bool)) : error + list (option string) :=
  match listed with
  | None => inl ErrService
  | Some qs =>
      match qNameMatch with
      | None => inr qs
      | Some m => matching m qs
      end
  end.

Definition refresh (listed : option (list (option string)))
    (qNameMatch : option (string -> bool)) : list string * option error :=
  match listQueues listed qNameMatch with
  | inl e => ([], Some e)
  | inr result => (omap id result, None)
  end.

(** [Refresh]: the queues found, each under [region:url]; every value
    is the credentials of [sq], left out here. *)
Definition Refresh (sq : SQS) (listed : option (list (option string)))
    (qNameMatch : option (string -> bool)) : option (gmap string unit) * option error :=
  match refresh listed qNameMatch with
  | (_, Some e) => (None, Some e)
  | (found, None) =>
      (Some (fold_left (fun known url => <[(region sq ++ ":" ++ url)%string := tt]> known)
                       found ∅),
       None)
  end.

Definition Exists (listed : option (list (option string))) (subscription : string)
    : bool * option error :=
  match listQueues listed None with
  | inl e => (true, Some e)
  | inr queues =>
      (existsb (fun q => match q with
                         | Some q => GoStrings.HasSuffix subscription q
                         | None => false
                         end) queues,
       None)
  end.

End Service.

Record QueueTask := {
  FQProject : string;
  Project : string;
  QueueType : string;
  Subscription : string;
  Credentials : string;
  Msg : string
}.

Record Message := {
  Body : string;
  ReceiptHandle : string
}.

(** The calls made on the service while [Work] runs. *)
Inductive call :=
| ReceiveMessage (QueueUrl : string) (VisibilityTimeout WaitTimeSeconds : Z)
| DeleteMessage (QueueUrl ReceiptHandle : string)
| ChangeMessageVisibility (QueueUrl ReceiptHandle : string) (VisibilityTimeout : Z).

(** [calls] are the calls [Work] makes itself, in order; [renewals]
    are those of the goroutine it starts once it holds a message,
    which run beside the handler and beside the last call of [Work]. *)
Record worked := {
  msgCnt : Z;
  resource : option Resource;
  err : option error;
  calls : list call;
  renewals : list call;
  handled : option QueueTask
}.

(** [Work] for one poll. [session] is whether the session could be
    made, [received] what [ReceiveMessage] answers, [done] whether the
    context is done when it is looked at, [Handler] the handler of the
    task with the task it is given. [None] is the panic of indexing
    past the one element a subscription without a colon splits into.

    The goroutine changes the visibility of the message each time its
    timer of half the visibility timeout fires before it sees the
    channel closed that [Work] closes when the handler is back. Its
    calls pass a pointer to the variable holding the timeout, which is
    30 until [Work], the handler not having acknowledged, sets it to
    0: [renewed] has one entry for each call the goroutine gets to
    make, which says whether that call reads the variable after
    [Work] has set it. The service fills [Body] and [ReceiptHandle]
    of a message it delivers. *)
Definition Work (sq : SQS) (qt : QueueTask) (session : bool)
    (received : option (list Message)) (done : bool)
    (Handler : QueueTask -> option Resource * bool) (renewed : list bool)
    : option worked :=
  match GoStrings.SplitN2 (Subscription qt) ":" with
  | _ :: url :: _ =>
      let nothing calls e :=
        Some {| msgCnt := 0; resource := None; err := e; calls := calls;
                renewals := []; handled := None |} in
      if negb session then nothing [] (Some ErrService)
      else
        let receive := ReceiveMessage url 30 5 in
        match received with
        | None => nothing [receive] (Some ErrService)
        | Some [] => nothing [receive] None
        | Some (m :: _) =>
            if done then nothing [receive] (Some ErrCancel)
            else
              let qt' := {| FQProject := FQProject qt; Project := project sq;
                            QueueType := QueueType qt; Subscription := url;
                            Credentials := Credentials qt; Msg := Body m |} in
              let '(rsc, ack) := Handler qt' in
              let renew (late : bool) :=
                ChangeMessageVisibility url (ReceiptHandle m)
                                        (if late && negb ack then 0 else 30) in
              if ack
              then Some {| msgCnt := 1; resource := rsc; err := None;
                           calls := [receive; DeleteMessage url (ReceiptHandle m)];
                           renewals := map renew renewed;
                           handled := Some qt' |}
              else Some {| msgCnt := 1; resource := None; err := None;
                           calls := [receive;
                                     ChangeMessageVisibility url (ReceiptHandle m) 0];
                           renewals := map renew renewed;
                           handled := Some qt' |}
        end
  | _ => None
  end.

End Sqs.

(** ** Choosing the queue implementation *)

Module TaskQueue.

Inductive implementation := PubSub | RabbitMQ | SQS.

(** [NewTaskQueue] goes on to the constructor of the implementation it
    picks, or fails on the first credentials file [os.Stat] cannot
    find. [stat] is whether [os.Stat] finds a file. *)
Definition NewTaskQueue (stat : string -> bool) (project creds : string)
    : string + implementation :=
  if GoStrings.HasSuffix creds ".json" then inr PubSub
  else if GoStrings.HasPrefix project "amqp://" then inr RabbitMQ
  else
    match List.find (fun file => negb (stat file)) (GoStrings.Split creds ",") with
    | Some file => inl file
    | None => inr SQS
    end.

End TaskQueue.

(** ** The packages of the python environment (pythonenv.go) *)

Module PythonEnv.

Import Runner.

(** [Allocated] as far as [pythonModules] reads it: the GPU
    allocations, of a type left open. *)
Record Allocated (G : Type) := { GPU : list G }.

Arguments GPU {G} _.

(** What one of the two loops of [pythonModules] has built. *)
Record groomed := {
  pkgs : list string;
  studioML : string;
  tfVer : string;
  gpuSeen : bool
}.

(** The body of either loop, for one package. *)
Definition groom (hasGPU : bool) (st : groomed) (pkg : string) : groomed :=
  if GoStrings.HasPrefix pkg "studioml=="
  then {| pkgs := pkgs st; studioML := pkg; tfVer := tfVer st; gpuSeen := gpuSeen st |}
  else if GoStrings.HasPrefix pkg "pkg-resources" then st
  else
    let gpuSeen := if GoStrings.HasPrefix pkg "tensorflow_gpu" then true else gpuSeen st in
    if hasGPU && negb gpuSeen
       && (GoStrings.HasPrefix pkg "tensorflow==" || String.eqb pkg "tensorflow")
    then
      let spec := GoStrings.Split pkg "==" in
      if (length spec <? 2)%nat
      then {| pkgs := pkgs st ++ ["tensorflow_gpu"%string]; studioML := studioML st;
              tfVer := tfVer st; gpuSeen := gpuSeen |}
      else {| pkgs := pkgs st ++ [("tensorflow_gpu==" ++ nth 1 spec EmptyString)%string];
              studioML := studioML st; tfVer := nth 1 spec EmptyString;
              gpuSeen := gpuSeen |}
    else {| pkgs := pkgs st ++ [pkg]; studioML := studioML st; tfVer := tfVer st;
            gpuSeen := gpuSeen |}.

(** [general], [configured], [studioML] and [tfVer]. *)
Definition pythonModules {G} (rqst : Request) (alloc : Allocated G)
    : list string * list string * string * string :=
  let hasGPU := negb (Nat.eqb (length (GPU alloc)) 0) in
  let general :=
    fold_left (groom hasGPU) (default [] (Pythonenv (Experiment_ rqst)))
              {| pkgs := []; studioML := EmptyString; tfVer := EmptyString;
                 gpuSeen := false |} in
  let configured :=
    fold_left (groom hasGPU) (default [] (Pip (Config_ rqst)))
              {| pkgs := []; studioML := studioML general; tfVer := tfVer general;
                 gpuSeen := gpuSeen general |} in
  (pkgs general, pkgs configured, studioML configured, tfVer configured).

End PythonEnv.

(** ** The manifest of an experiment (firebase.go) *)

Module Firebase.

Import Runner.

Record Artifact := {
  Archive : string;
  Mutable : bool
}.

(** [GetManifest] panics ([Panics]) where a type assertion fails. *)
Inductive manifested :=
| Panics
| Fails
| Manifest (manifest : gmap string Artifact).

(** The body of the loop for one artifact: [None] where it panics,
    the manifest with or without a new entry otherwise. *)
Definition manifestEntry (manifest : gmap string Artifact) (name : string)
    (artifact : any) : option (gmap string Artifact) :=
  match artifact with
  | AnyMap m =>
      match m !! "key"%string, m !! "mutable"%string with
      | Some archive, Some mutable =>
          match archive, mutable with
          | AnyString archive, AnyBool mutable =>
              Some (<[name := {| Archive := archive; Mutable := mutable |}]> manifest)
          | _, _ => None
          end
      | _, _ => Some manifest
      end
  | _ => None
  end.

Section Ranging.

Variable rangeKeys : forall V, gmap string V -> list string.

(** [artifacts] is what the database returns under
    [experiments/<experiment>/artifacts], [None] for its error. *)
Definition GetManifest (artifacts : option (gmap string any)) : manifested :=
  match artifacts with
  | None => Fails
  | Some artifacts =>
      match fold_left
              (fun acc name =>
                 manifest ← acc;
                 artifact ← artifacts !! name;
                 manifestEntry manifest name artifact)
              (rangeKeys any artifacts) (Some ∅) with
      | Some manifest => Manifest manifest
      | None => Panics
      end
  end.

End Ranging.

End Firebase.

(** ** The consumer and its workers

    [consumer] starts a goroutine running [filterWork] for every
    request that names a subscription; what the goroutines share is
    [busyQs], which they read and write under its lock. *)

Module Consumer.

Import Queue.

(** What one receive on [readyC] leads to. *)
Inductive consumed :=
| Returns
| Continues
| Spawns (request : subRequest).

(** [request] is what was received, [None] the nil of a closed
    channel. *)
Definition consumer (request : option subRequest) : consumed :=
  match request with
  | None => Returns
  | Some request =>
      if Nat.eqb (String.length (subscription request)) 0 then Continues
      else Spawns request
  end.

Definition busyKey (request : subRequest) : string :=
  (project_ request ++ ":" ++ subscription request)%string.

(** [filterWork] up to its call of [doWork]: whether it goes on to
    [doWork], and [busyQs] as it leaves it. *)
Definition filterWorkEnter (request : subRequest) (backoffs : Cache) (now : Z)
    (busyQs : gset string) : bool * gset string :=
  if Get backoffs (busyKey request) now then (false, busyQs)
  else if decide (busyKey request ∈ busyQs) then (false, busyQs)
  else (true, {[busyKey request]} ∪ busyQs).

(** The function a [filterWork] that goes on to [doWork] has
    deferred, which runs when [doWork] is back or has panicked. *)
Definition filterWorkLeave (request : subRequest) (busyQs : gset string) : gset string :=
  busyQs ∖ {[busyKey request]}.

(** The goroutines of [filterWork]: [working] holds the requests
    whose [doWork] has been called and is not back. *)
Record workers := {
  busyQs : gset string;
  working : list subRequest
}.

Definition idle : workers := {| busyQs := ∅; working := [] |}.

(** A goroutine passes the locked section of [filterWork], or one
    whose [doWork] is back runs its deferred function. *)
Inductive step : workers -> workers -> Prop :=
| step_enter request backoffs now w :
    step w {| busyQs := (filterWorkEnter request backoffs now (busyQs w)).2;
              working := if (filterWorkEnter request backoffs now (busyQs w)).1
                         then request :: working w else working w |}
| step_leave i request w :
    working w !! i = Some request ->
    step w {| busyQs := filterWorkLeave request (busyQs w);
              working := delete i (working w) |}.

End Consumer.

(** ** Polling RabbitMQ

    One firing of the timer of [serviceRMQ]. [time.Duration] is a
    64 bit signed integer. *)

Module Rabbit.

Definition wrap_i64 (z : Z) : Z := (z + 2 ^ 63) mod 2 ^ 64 - 2 ^ 63.

Record fired {V : Type} := {
  qCheck : Z;
  ignored : bool;
  lifecycle : option (gmap string V)
}.

Arguments fired : clear implicits.

(** [running] is whether the state is [types.K8sRunning], [found]
    and [failed] what [rmq.GetKnown] returns. The result is the wait
    before the next firing, whether the firing was counted as
    ignored, and the queues [live.Lifecycle] is called with, if it
    is. *)
Definition serviceRMQ {V} (checkInterval : Z) (running : bool)
    (found : gmap string V) (failed : bool) : fired V :=
  let qCheck := checkInterval in
  if negb running
  then {| qCheck := qCheck; ignored := true; lifecycle := None |}
  else
    let qCheck := if failed then wrap_i64 (qCheck * 2) else qCheck in
    if Nat.eqb (size found) 0
    then {| qCheck := wrap_i64 (qCheck * 2); ignored := false; lifecycle := None |}
    else {| qCheck := qCheck; ignored := false; lifecycle := Some found |}.

End Rabbit.

(** ** Vocabulary of the properties *)

(** The tracker after [SetDiskLimits("/data", 100)] on a host whose
    ["/data"] has 1000 bytes available. *)
Definition tracker_1000 : Disk.diskTracker :=
  (Disk.SetDiskLimits (Disk.host1 {| Disk.Bavail := 250; Disk.Bsize := 4 |})
                      "/data" 100 Disk.diskTrack0).2.

(** A size text is usable when [ParseBytes] reads it without error. *)
Definition parses (ParseBytes : string -> N * bool) (s : string) : Prop :=
  (ParseBytes s).2 = false.

(** The byte count [Fit] compares for a size text. *)
Definition bytesOf (ParseBytes : string -> N * bool) (s : string) : N :=
  (ParseBytes s).1.

(** Componentwise at-most on the parsed sizes. *)
Definition fits (ParseBytes : string -> N * bool) (need have : Runner.Resource) : Prop :=
  (Runner.Cpus need <= Runner.Cpus have)%N
  /\ (Runner.Gpus need <= Runner.Gpus have)%N
  /\ (bytesOf ParseBytes (Runner.Hdd need) <= bytesOf ParseBytes (Runner.Hdd have))%N
  /\ (bytesOf ParseBytes (Runner.Ram need) <= bytesOf ParseBytes (Runner.Ram have))%N
  /\ (bytesOf ParseBytes (Runner.GpuMem need)
      <= bytesOf ParseBytes (Runner.GpuMem have))%N.

(** The sizes [Fit] insists on reading: [Ram] and [Hdd] of both
    sides, and each [GpuMem] that is not empty. *)
Definition readable_sizes (ParseBytes : string -> N * bool)
    (l r : Runner.Resource) : Prop :=
  parses ParseBytes (Runner.Ram l) /\ parses ParseBytes (Runner.Ram r)
  /\ parses ParseBytes (Runner.Hdd l) /\ parses ParseBytes (Runner.Hdd r)
  /\ (Runner.GpuMem l = EmptyString \/ parses ParseBytes (Runner.GpuMem l))
  /\ (Runner.GpuMem r = EmptyString \/ parses ParseBytes (Runner.GpuMem r)).

(** The record [align] creates for a queue it has not seen. *)
Definition newSubscription (sub : string) : Queue.Subscription :=
  {| Queue.name := sub; Queue.rsc := None; Queue.cnt := 0 |}.

(** One admissible order for ranging over a map. *)
Definition rangeInOrder (V : Type) (m : gmap string V) : list string :=
  (map_to_list m).*1.

(** An order is admissible when it lists every key once. *)
Definition ranges (rangeKeys : forall V, gmap string V -> list string) : Prop :=
  forall V (m : gmap string V), rangeKeys V m ≡ₚ (map_to_list m).*1.

(** A catalog with a busy queue that stays and an idle one that goes,
    and a broker report that brings a new queue. *)
Definition catalog0 : gmap string Queue.Subscription :=
  <["q1" := {| Queue.name := "q1";
               Queue.rsc := Some {| Runner.Cpus := 2; Runner.Gpus := 0;
                                    Runner.Hdd := "10Gb"; Runner.Ram := "4Gb";
                                    Runner.GpuMem := EmptyString |};
               Queue.cnt := 1 |}]>
    (<["gone" := newSubscription "gone"]> ∅).

Definition reported0 : gmap string bool :=
  <["q1" := true]> (<["q2" := true]> ∅).

(** A scheduler for project ["proj"] over [catalog0], a probe of its
    queue ["q1"] and a message from it. *)
Definition queuer0 : Queue.Queuer :=
  {| Queue.project := "proj"; Queue.cred := "cred.json"; Queue.subs := catalog0 |}.

Definition request0 : Queue.subRequest :=
  {| Queue.project_ := "proj"; Queue.subscription := "q1"; Queue.creds := "cred.json" |}.

Definition msg0 : Queue.Message := {| Queue.ID := "1"; Queue.Data := "{" |}.

(** A [newProcessor] that cannot read the message, one that can, and a
    [Process] that succeeds. *)
Definition unreadable (sub : string) (msg : Queue.Message) (cred : string)
    : string + Queue.processor :=
  inl "unexpected end of JSON input"%string.

Definition readable (sub : string) (msg : Queue.Message) (cred : string)
    : string + Queue.processor :=
  inr {| Queue.Request_ := Runner.zeroRequest |}.

Definition succeeds (proc : Queue.processor) (msg : Queue.Message)
    : Z * bool * option string :=
  (0, true, None).

(** A scheduler whose only queue is idle and has no resource hint, the
    producer state at start, and a consumer that is not listening. *)
Definition queuer1 : Queue.Queuer :=
  {| Queue.project := "proj"; Queue.cred := "cred.json";
     Queue.subs := <["q1" := newSubscription "q1"]> ∅ |}.

Definition started : Queue.producerState :=
  {| Queue.lastReady := 0; Queue.lastReadyAbs := 0 |}.

Definition machine0 : Runner.Resource :=
  {| Runner.Cpus := 8; Runner.Gpus := 2; Runner.Hdd := "500Gb";
     Runner.Ram := "64Gb"; Runner.GpuMem := "16Gb" |}.

Definition deaf : Queue.consumerEnd :=
  {| Queue.ready1 := false; Queue.ready2 := false |}.

(** Every record of the catalog is filed under its own name, as
    [align] files them and [setResources] leaves them. *)
Definition filed (subs : gmap string Queue.Subscription) : Prop :=
  forall key sub, subs !! key = Some sub -> Queue.name sub = key.

(** The empty request [check] sends first, to see whether anybody is
    listening. *)
Definition sentinel : Queue.subRequest :=
  {| Queue.project_ := EmptyString; Queue.subscription := EmptyString;
     Queue.creds := EmptyString |}.

(** A consumer that takes both sends of [check]. *)
Definition listening : Queue.consumerEnd :=
  {| Queue.ready1 := true; Queue.ready2 := true |}.


(** The queue a call is made on. *)
Definition calledOn (c : Sqs.call) : string :=
  match c with
  | Sqs.ReceiveMessage url _ _ => url
  | Sqs.DeleteMessage url _ => url
  | Sqs.ChangeMessageVisibility url _ _ => url
  end.

(** A package name [pythonModules] leaves out of both lists. *)
Definition groomedOut (pkg : string) : bool :=
  GoStrings.HasPrefix pkg "studioml==" || GoStrings.HasPrefix pkg "pkg-resources".

(** A package name that asks for the plain build of tensorflow. *)
Definition plainTensorflow (pkg : string) : bool :=
  GoStrings.HasPrefix pkg "tensorflow==" || String.eqb pkg "tensorflow".

(** The packages of a request, those of the experiment first. *)
Definition packagesOf (rqst : Runner.Request) : list string :=
  default [] (Runner.Pythonenv (Runner.Experiment_ rqst))
  ++ default [] (Runner.Pip (Runner.Config_ rqst)).

(** A request with the given packages and nothing else. *)
Definition requestWith (pythonenv pip : list string) : Runner.Request :=
  {| Runner.Config_ :=
       {| Runner.Cloud := Runner.AnyNil; Runner.Database_ := Runner.zeroDatabase;
          Runner.SaveWorkspaceFrequency := EmptyString; Runner.Lifetime := EmptyString;
          Runner.Verbose := EmptyString; Runner.Env := None; Runner.Pip := Some pip;
          Runner.Runner := Runner.zeroRunnerCustom |};
     Runner.Experiment_ :=
       {| Runner.Args := None; Runner.Artifacts := None; Runner.Filename := EmptyString;
          Runner.Git := Runner.AnyNil; Runner.Info_ := Runner.Build_Info;
          Runner.Key := EmptyString; Runner.Metric := Runner.AnyNil;
          Runner.Project := Runner.AnyNil; Runner.Pythonenv := Some pythonenv;
          Runner.PythonVer := 0; Runner.Resource_ := Runner.zeroResource;
          Runner.Status := EmptyString; Runner.TimeAdded := S754_zero false;
          Runner.MaxDuration := EmptyString; Runner.TimeFinished := Runner.AnyNil;
          Runner.TimeLastCheckpoint := Runner.AnyNil;
          Runner.TimeStarted := Runner.AnyNil |} |}.

(** What [GetManifest] makes of an artifact that has both a key and
    a mutable flag of the right types. *)
Definition described (artifact : Runner.any) : option Firebase.Artifact :=
  match artifact with
  | Runner.AnyMap m =>
      match m !! "key"%string, m !! "mutable"%string with
      | Some (Runner.AnyString archive), Some (Runner.AnyBool mutable) =>
          Some {| Firebase.Archive := archive; Firebase.Mutable := mutable |}
      | _, _ => None
      end
  | _ => None
  end.

(** An artifact on which no type assertion of [GetManifest] fails:
    an object that lacks the key or the flag, or has a string for the
    one and a boolean for the other. *)
Definition asserted (artifact : Runner.any) : bool :=
  match artifact with
  | Runner.AnyMap m =>
      match m !! "key"%string, m !! "mutable"%string with
      | Some archive, Some mutable =>
          match archive, mutable with
          | Runner.AnyString _, Runner.AnyBool _ => true
          | _, _ => false
          end
      | _, _ => true
      end
  | _ => false
  end.

(** Every queue that is marked busy is being worked, and by one
    worker. *)
Definition exclusive (w : Consumer.workers) : Prop :=
  NoDup (Consumer.busyKey <$> Consumer.working w)
  /\ forall key, key ∈ Consumer.busyQs w
                 <-> key ∈ Consumer.busyKey <$> Consumer.working w.

(** The integer fields of a request are within their Go types. *)
Definition is_int64 (z : Z) : Prop := - 2 ^ 63 <= z < 2 ^ 63.

Definition is_uint (n : N) : Prop := (n < 2 ^ 64)%N.

Definition validRequest (r : Runner.Request) : Prop :=
  is_int64 (Runner.MessagingSenderId (Runner.Database_ (Runner.Config_ r)))
  /\ is_int64 (Runner.PythonVer (Runner.Experiment_ r))
  /\ is_uint (Runner.Cpus (Runner.Resource_ (Runner.Experiment_ r)))
  /\ is_uint (Runner.Gpus (Runner.Resource_ (Runner.Experiment_ r))).

(** The text of a request is well-formed UTF-8: a string is, when
    coercing it changes nothing; an interface value is, when every
    string and every key of a map in it is. *)
Definition wellFormed (s : string) : Prop := Utf8.coerce s = s.

#[warnings="-register-all"] Inductive textAny : Runner.any -> Prop :=
  | text_nil : textAny Runner.AnyNil
  | text_bool b : textAny (Runner.AnyBool b)
  | text_float f : textAny (Runner.AnyFloat f)
  | text_string s : wellFormed s -> textAny (Runner.AnyString s)
  | text_slice l : Forall textAny l -> textAny (Runner.AnySlice l)
  | text_map m :
      (forall k v, m !! k = Some v -> wellFormed k /\ textAny v) ->
      textAny (Runner.AnyMap m).

Definition textStrings (l : option (list string)) : Prop :=
  Forall wellFormed (default [] l).

Definition textMap {V} (P : V -> Prop) (m : option (gmap string V)) : Prop :=
  forall k v, default ∅ m !! k = Some v -> wellFormed k /\ P v.

Definition textResource (r : Runner.Resource) : Prop :=
  wellFormed (Runner.Hdd r) /\ wellFormed (Runner.Ram r) /\ wellFormed (Runner.GpuMem r).

Definition textDatabase (d : Runner.Database) : Prop :=
  wellFormed (Runner.ApiKey d) /\ wellFormed (Runner.AuthDomain d)
  /\ wellFormed (Runner.DatabaseURL d) /\ wellFormed (Runner.ProjectId d)
  /\ wellFormed (Runner.StorageBucket d) /\ wellFormed (Runner.Type_ d).

Definition textArtifact (a : Runner.Artifact) : Prop :=
  wellFormed (Runner.Bucket a) /\ wellFormed (Runner.AKey a)
  /\ wellFormed (Runner.Hash a) /\ wellFormed (Runner.Local_ a)
  /\ wellFormed (Runner.Qualified a).

Definition textConfig (c : Runner.Config) : Prop :=
  textAny (Runner.Cloud c) /\ textDatabase (Runner.Database_ c)
  /\ wellFormed (Runner.SaveWorkspaceFrequency c) /\ wellFormed (Runner.Lifetime c)
  /\ wellFormed (Runner.Verbose c) /\ textMap wellFormed (Runner.Env c)
  /\ textStrings (Runner.Pip c) /\ wellFormed (Runner.SlackDest (Runner.Runner c)).

Definition textExperiment (e : Runner.Experiment) : Prop :=
  textStrings (Runner.Args e) /\ textMap textArtifact (Runner.Artifacts e)
  /\ wellFormed (Runner.Filename e) /\ textAny (Runner.Git e)
  /\ wellFormed (Runner.Key e) /\ textAny (Runner.Metric e)
  /\ textAny (Runner.Project e) /\ textStrings (Runner.Pythonenv e)
  /\ textResource (Runner.Resource_ e) /\ wellFormed (Runner.Status e)
  /\ wellFormed (Runner.MaxDuration e) /\ textAny (Runner.TimeFinished e)
  /\ textAny (Runner.TimeLastCheckpoint e) /\ textAny (Runner.TimeStarted e).

Definition textRequest (r : Runner.Request) : Prop :=
  textConfig (Runner.Config_ r) /\ textExperiment (Runner.Experiment_ r).

(** A name of bytes below 128. *)
Fixpoint isASCII (s : string) : bool :=
  match s with
  | EmptyString => true
  | String a s1 => (N_of_ascii a <? 128)%N && isASCII s1
  end.

(** The member names of an object, in order. *)
Definition memberNames (j : Runner.json) : list string :=
  match j with
  | Runner.JObj ms => ms.*1
  | _ => []
  end.

(** The member of an object under a name, if it has one. *)
Definition member (key : string) (j : Runner.json) : option Runner.json :=
  match j with
  | Runner.JObj ms => snd <$> List.find (fun kv => String.eqb kv.1 key) ms
  | _ => None
  end.

(** [strconv]'s float texts on positive zero, the one float the
    examples carry. *)
Definition FormatZero (f : Runner.float64) : option string :=
  match f with
  | S754_zero false => Some "0"%string
  | _ => None
  end.

Definition ParseZero (lit : string) : option Runner.float64 :=
  if String.eqb lit "0" then Some (S754_zero false) else None.

(** A message with a key beside [config] and [experiment], a key under
    [info] and a key under [cloud]. *)
Definition message0 : Runner.json :=
  Runner.JObj
    [("config"%string,
      Runner.JObj [("cloud"%string,
                    Runner.JObj [("zone"%string, Runner.JStr "us-east")]);
                   ("verbose"%string, Runner.JStr "debug")]);
     ("trace_id"%string, Runner.JStr "abc");
     ("experiment"%string,
      Runner.JObj [("key"%string, Runner.JStr "k1");
                   ("info"%string, Runner.JObj [("owner"%string, Runner.JStr "me")]);
                   ("pythonver"%string, Runner.JNum "3")])].

(** The request [message0] is read into. *)
Definition request1 : Runner.Request :=
  default Runner.zeroRequest (Runner.UnmarshalRequest ParseZero message0).

(** A request whose key is the one byte 255, which is no UTF-8. *)
Definition request2 : Runner.Request :=
  {| Runner.Config_ := Runner.zeroConfig;
     Runner.Experiment_ :=
       {| Runner.Args := None; Runner.Artifacts := None;
          Runner.Filename := EmptyString; Runner.Git := Runner.AnyNil;
          Runner.Info_ := Runner.Build_Info; Runner.Key := String "255" EmptyString;
          Runner.Metric := Runner.AnyNil; Runner.Project := Runner.AnyNil;
          Runner.Pythonenv := None; Runner.PythonVer := 0;
          Runner.Resource_ := Runner.zeroResource; Runner.Status := EmptyString;
          Runner.TimeAdded := S754_zero false; Runner.MaxDuration := EmptyString;
          Runner.TimeFinished := Runner.AnyNil;
          Runner.TimeLastCheckpoint := Runner.AnyNil;
          Runner.TimeStarted := Runner.AnyNil |} |}.

(** The values of the members of an object, in order. *)
Definition memberValues (j : Runner.json) : list Runner.json :=
  match j with
  | Runner.JObj ms => ms.*2
  | _ => []
  end.

(** * Properties *)

(** ** The disk ledger *)

Lemma u64_sub_borrow a b :
  is_u64 a -> is_u64 b -> a < b -> u64_sub a b = a - b + u64_modulus.
Proof.
  unfold is_u64, u64_sub, wrap64, u64_modulus. intros Ha Hb Hlt.
  symmetry. apply Z.mod_unique with (q := -1); lia.
Qed.

Lemma u64_sub_sub a b c : u64_sub (u64_sub a b) c = wrap64 (a - b - c).
Proof.
  unfold u64_sub, wrap64, u64_modulus.
  rewrite Zminus_mod_idemp_l. reflexivity.
Qed.

Lemma String_eqb_refl_neg s : negb (String.eqb s s) = false.
Proof. rewrite String.eqb_refl. reflexivity. Qed.

(** What [AllocDisk] does on a tracked device that can be read: it
    refuses exactly when the space left after the request is above
    [SoftMinFree], and books the request otherwise. *)
Lemma AllocDisk_guard host maxSpace t fs :
  host (Disk.Device t) = Some fs ->
  let left := u64_sub (Disk.availBytes fs) (u64_add (Disk.AllocSpace t) maxSpace) in
  (Disk.SoftMinFree t < left ->
     exists l w, Disk.AllocDisk host maxSpace t
                 = ((None, Some (Disk.ErrInsufficient l w)), t))
  /\ (left <= Disk.SoftMinFree t ->
        exists t', Disk.AllocDisk host maxSpace t
                 = ((Some {| Disk.device := Disk.Device t; Disk.size := maxSpace |}, None), t')
                   /\ Disk.AllocSpace t' = u64_add (Disk.AllocSpace t) maxSpace).
Proof.
  intros Hfs left. unfold Disk.AllocDisk. rewrite Hfs. fold left. split; intros H.
  - apply Z.ltb_lt in H. rewrite H. eauto.
  - apply Z.ltb_ge in H. rewrite H. eexists. split; reflexivity.
Qed.

(** C1. [AllocDisk] is to grant a request exactly when the available
    space less what is allocated and requested exceeds [SoftMinFree].
    On 1000 available bytes, nothing allocated and a reserve of 100, a
    request for 10 bytes leaves 990 > 100 and is refused as
    insufficient, and a request for 950 bytes leaves 50 <= 100 and is
    granted: the guard is the wrong way round. *)
Theorem AllocDisk_guard_inverted :
  let host := Disk.host1 {| Disk.Bavail := 250; Disk.Bsize := 4 |} in
  Disk.SoftMinFree tracker_1000 = 100
  /\ Disk.AllocSpace tracker_1000 = 0
  /\ Disk.AllocDisk host 10 tracker_1000
     = ((None, Some (Disk.ErrInsufficient 250 10)), tracker_1000)
  /\ (Disk.AllocDisk host 950 tracker_1000).1
     = (Some {| Disk.device := "/data"; Disk.size := 950 |}, None)
  /\ Disk.AllocSpace (Disk.AllocDisk host 950 tracker_1000).2 = 950.
Proof. vm_compute. repeat split; reflexivity. Qed.

(** C3, as stated: the limit returned is the larger of [minFree] and
    85% of the available space. With 1000 bytes available and
    [minFree] = 100 the larger is 850, and 100 is returned. *)
Lemma SetDiskLimits_not_max :
  let fs := {| Disk.Bavail := 250; Disk.Bsize := 4 |} in
  Disk.headroom fs = 850
  /\ (Disk.SetDiskLimits (Disk.host1 fs) "/data" 100 Disk.diskTrack0).1
     = (100, None)
  /\ (Disk.SetDiskLimits (Disk.host1 fs) "/data" 100 Disk.diskTrack0).1.1
     <> Z.max 100 (Disk.headroom fs).
Proof. vm_compute. repeat split; try reflexivity. discriminate. Qed.

(** C3, amended. On a device that can be read [SetDiskLimits] stores
    and returns 85% of the available space, computed in float64 and
    truncated, unless [minFree] is non-zero and smaller, in which case
    it stores and returns [minFree]; it keeps the allocated total when
    the device is the one already tracked and zeroes it otherwise. *)
Theorem SetDiskLimits_min host dev minFree t fs :
  host dev = Some fs ->
  let soft := if minFree =? 0 then Disk.headroom fs
              else Z.min minFree (Disk.headroom fs) in
  Disk.SetDiskLimits host dev minFree t
  = ((soft, None),
     {| Disk.Device := dev;
        Disk.AllocSpace := if String.eqb dev (Disk.Device t)
                           then Disk.AllocSpace t else 0;
        Disk.SoftMinFree := soft;
        Disk.InitErr := None |}).
Proof.
  intros Hfs soft. unfold Disk.SetDiskLimits. rewrite Hfs. cbn.
  assert (Hsoft : (if negb (minFree =? 0) && (minFree <? Disk.headroom fs)
                   then minFree else Disk.headroom fs) = soft).
  { unfold soft. destruct (Z.eqb_spec minFree 0) as [->|Hne]; cbn; [reflexivity|].
    destruct (Z.ltb_spec minFree (Disk.headroom fs)); lia. }
  rewrite Hsoft. destruct (String.eqb dev (Disk.Device t)); reflexivity.
Qed.

Lemma SetDiskLimits_min_witness :
  let fs := {| Disk.Bavail := 250; Disk.Bsize := 4 |} in
  Disk.SetDiskLimits (Disk.host1 fs) "/data" 100 tracker_1000
  = ((100, None), tracker_1000).
Proof.
  intros fs.
  rewrite (SetDiskLimits_min (Disk.host1 fs) "/data" 100 tracker_1000 fs eq_refl).
  vm_compute. reflexivity.
Defined.

(** C9. A release that is accepted subtracts the reservation from the
    allocated total in 64-bit unsigned arithmetic and checks nothing
    else: a reservation larger than the total wraps it around 2^64,
    and the same reservation is accepted a second time. *)
Theorem Release_wraps (a : Disk.DiskAllocated) (t : Disk.diskTracker) :
  Disk.InitErr t = None ->
  Disk.device a = Disk.Device t ->
  is_u64 (Disk.AllocSpace t) ->
  is_u64 (Disk.size a) ->
  let once := Disk.Release (Some a) t in
  let twice := Disk.Release (Some a) once.2 in
  once = (None, {| Disk.Device := Disk.Device t;
                   Disk.AllocSpace := wrap64 (Disk.AllocSpace t - Disk.size a);
                   Disk.SoftMinFree := Disk.SoftMinFree t;
                   Disk.InitErr := None |})
  /\ (Disk.AllocSpace t < Disk.size a ->
        Disk.AllocSpace once.2 = Disk.AllocSpace t - Disk.size a + 2 ^ 64)
  /\ twice.1 = None
  /\ Disk.AllocSpace twice.2 = wrap64 (Disk.AllocSpace t - Disk.size a - Disk.size a).
Proof.
  intros Hinit Hdev Ht Ha once twice.
  assert (Honce : once = (None, {| Disk.Device := Disk.Device t;
                   Disk.AllocSpace := wrap64 (Disk.AllocSpace t - Disk.size a);
                   Disk.SoftMinFree := Disk.SoftMinFree t;
                   Disk.InitErr := None |})).
  { unfold once, Disk.Release. rewrite Hinit, Hdev, String_eqb_refl_neg. reflexivity. }
  split; [exact Honce|]. split.
  - intros Hlt. rewrite Honce. cbn. apply (u64_sub_borrow _ _ Ht Ha Hlt).
  - unfold twice. rewrite Honce. unfold Disk.Release. cbn.
    rewrite Hdev, String_eqb_refl_neg. cbn. split; [reflexivity|].
    apply u64_sub_sub.
Qed.

Lemma Release_wraps_witness :
  let a := {| Disk.device := "/data"; Disk.size := 10 |} in
  let t := (Disk.AllocDisk (Disk.host1 {| Disk.Bavail := 250; Disk.Bsize := 4 |})
                           950 tracker_1000).2 in
  Disk.AllocSpace (Disk.Release (Some a) (Disk.Release (Some a) t).2).2 = 930
  /\ Disk.AllocSpace (Disk.Release (Some a) tracker_1000).2 = 2 ^ 64 - 10
  /\ Disk.AllocSpace (Disk.Release (Some a) (Disk.Release (Some a) tracker_1000).2).2
     = 2 ^ 64 - 20.
Proof.
  intros a t.
  assert (Hu : forall z, 0 <= z < 2 ^ 64 -> is_u64 z) by (intros z Hz; exact Hz).
  destruct (Release_wraps a t eq_refl eq_refl (Hu 950 ltac:(lia)) (Hu 10 ltac:(lia)))
    as (_ & _ & _ & H2).
  destruct (Release_wraps a tracker_1000 eq_refl eq_refl (Hu 0 ltac:(lia)) (Hu 10 ltac:(lia)))
    as (H1' & Hw & _ & H2').
  split; [rewrite H2; reflexivity|]. split.
  - rewrite (Hw ltac:(vm_compute; reflexivity)). reflexivity.
  - rewrite H2'. reflexivity.
Defined.

(** ** Fitting a request into what a machine has *)

Section FitFacts.

Context (ParseBytes : string -> N * bool).

Lemma fits_leb need have :
  ((Runner.Cpus need <=? Runner.Cpus have)%N
   && (Runner.Gpus need <=? Runner.Gpus have)%N
   && ((ParseBytes (Runner.Hdd need)).1 <=? (ParseBytes (Runner.Hdd have)).1)%N
   && ((ParseBytes (Runner.Ram need)).1 <=? (ParseBytes (Runner.Ram have)).1)%N
   && ((ParseBytes (Runner.GpuMem need)).1 <=? (ParseBytes (Runner.GpuMem have)).1)%N)
  = true
  <-> fits ParseBytes need have.
Proof.
  unfold fits, bytesOf. rewrite !andb_true_iff, !N.leb_le. tauto.
Qed.

(** C4. When the sizes of both records parse, a [GpuMem] being allowed
    to be empty instead, [Fit need have] is true exactly when every
    component of [need] is at most that of [have]; both revisions
    agree on it and the later one reports no error. An empty [GpuMem]
    counts as the 0 the parser returns with its error, so a need
    without [GpuMem] is fitted on the other four components alone. *)
Theorem Fit_componentwise (need have : Runner.Resource) :
  bytesOf ParseBytes EmptyString = 0%N ->
  parses ParseBytes (Runner.Hdd need) -> parses ParseBytes (Runner.Ram need) ->
  parses ParseBytes (Runner.Hdd have) -> parses ParseBytes (Runner.Ram have) ->
  Runner.GpuMem need = EmptyString \/ parses ParseBytes (Runner.GpuMem need) ->
  Runner.GpuMem have = EmptyString \/ parses ParseBytes (Runner.GpuMem have) ->
  exists didFit : bool,
    Runner.Fit ParseBytes need have = (didFit, None)
    /\ Runner.Fit_v0 ParseBytes need have = didFit
    /\ (didFit = true <-> fits ParseBytes need have)
    /\ (Runner.GpuMem need = EmptyString ->
        (didFit = true <->
           (Runner.Cpus need <= Runner.Cpus have)%N
           /\ (Runner.Gpus need <= Runner.Gpus have)%N
           /\ (bytesOf ParseBytes (Runner.Hdd need)
               <= bytesOf ParseBytes (Runner.Hdd have))%N
           /\ (bytesOf ParseBytes (Runner.Ram need)
               <= bytesOf ParseBytes (Runner.Ram have))%N)).
Proof.
  intros Hempty Hh Hr Hh' Hr' Hg Hg'.
  exists ((Runner.Cpus need <=? Runner.Cpus have)%N
          && (Runner.Gpus need <=? Runner.Gpus have)%N
          && ((ParseBytes (Runner.Hdd need)).1 <=? (ParseBytes (Runner.Hdd have)).1)%N
          && ((ParseBytes (Runner.Ram need)).1 <=? (ParseBytes (Runner.Ram have)).1)%N
          && ((ParseBytes (Runner.GpuMem need)).1
              <=? (ParseBytes (Runner.GpuMem have)).1)%N).
  assert (Hfits := fits_leb need have).
  unfold fits, parses, bytesOf in *.
  unfold Runner.Fit, Runner.Fit_v0.
  destruct (ParseBytes (Runner.Ram need)) as [lRam e1] eqn:E1.
  destruct (ParseBytes (Runner.Ram have)) as [rRam e2] eqn:E2.
  destruct (ParseBytes (Runner.Hdd need)) as [lHdd e3] eqn:E3.
  destruct (ParseBytes (Runner.Hdd have)) as [rHdd e4] eqn:E4.
  destruct (ParseBytes (Runner.GpuMem need)) as [lGpu e5] eqn:E5.
  destruct (ParseBytes (Runner.GpuMem have)) as [rGpu e6] eqn:E6.
  cbn [fst snd] in *. subst e1 e2 e3 e4.
  assert (H5 : negb (Nat.eqb 0 (String.length (Runner.GpuMem need))) && e5 = false).
  { destruct Hg as [-> | ->]; [reflexivity | apply andb_false_r]. }
  assert (H6 : negb (Nat.eqb 0 (String.length (Runner.GpuMem have))) && e6 = false).
  { destruct Hg' as [-> | ->]; [reflexivity | apply andb_false_r]. }
  rewrite H5, H6.
  split; [reflexivity|]. split; [reflexivity|].
  split; [exact Hfits|].
  intros Hnone. rewrite Hfits. rewrite Hnone in E5. rewrite E5 in Hempty.
  cbn in Hempty. subst lGpu.
  split; [tauto|]. intros (?&?&?&?). repeat split; try assumption. apply N.le_0_l.
Qed.

End FitFacts.

(** A job that names no GPU memory on a machine with 16 GB of it. *)
Lemma Fit_componentwise_witness :
  let need := {| Runner.Cpus := 2; Runner.Gpus := 1; Runner.Hdd := "10Gb";
                 Runner.Ram := "4Gb"; Runner.GpuMem := EmptyString |} in
  let have := {| Runner.Cpus := 8; Runner.Gpus := 2; Runner.Hdd := "500Gb";
                 Runner.Ram := "64Gb"; Runner.GpuMem := "16Gb" |} in
  exists didFit : bool,
    Runner.Fit Humanize.ParseBytes need have = (didFit, None)
    /\ Runner.Fit_v0 Humanize.ParseBytes need have = didFit
    /\ (didFit = true <-> fits Humanize.ParseBytes need have).
Proof.
  intros need have.
  destruct (Fit_componentwise Humanize.ParseBytes need have) as (b & H1 & H2 & H3 & _);
    try reflexivity; try (left; reflexivity); try (right; reflexivity).
  exists b. auto.
Defined.

(** ** Aligning the catalog of subscriptions *)

Lemma ranges_NoDup rangeKeys V (m : gmap string V) :
  ranges rangeKeys -> NoDup (rangeKeys V m).
Proof. intros H. rewrite (H V m). apply NoDup_fst_map_to_list. Qed.

Lemma ranges_elem_of rangeKeys V (m : gmap string V) k :
  ranges rangeKeys -> k ∈ rangeKeys V m <-> is_Some (m !! k).
Proof.
  intros H. rewrite (H V m), list_elem_of_fmap. split.
  - intros ([k' v] & -> & Hin). apply elem_of_map_to_list in Hin. eauto.
  - intros [v Hv]. exists (k, v). split; [reflexivity|].
    apply elem_of_map_to_list. exact Hv.
Qed.

Lemma alignAdd_lookup l (s : gmap string Queue.Subscription) a k :
  (fold_left Queue.alignAdd l (s, a)).1 !! k
  = match s !! k with
    | Some v => Some v
    | None => if decide (k ∈ l) then Some (newSubscription k) else None
    end.
Proof.
  revert s a. induction l as [|k0 l IH]; intros s a; cbn [fold_left].
  - cbn. destruct (s !! k); [reflexivity|]. rewrite decide_False; [reflexivity|].
    apply not_elem_of_nil.
  - unfold Queue.alignAdd at 2. cbn [fst snd].
    destruct (s !! k0) eqn:E0.
    + rewrite IH. destruct (s !! k) eqn:E; [reflexivity|].
      assert (Hne : k <> k0) by congruence.
      apply decide_ext. rewrite elem_of_cons. tauto.
    + rewrite IH. destruct (decide (k = k0)) as [->|Hne].
      * rewrite lookup_insert_eq, E0. rewrite decide_True; [reflexivity | left].
      * rewrite lookup_insert_ne by congruence.
        destruct (s !! k); [reflexivity|].
        apply decide_ext. rewrite elem_of_cons. tauto.
Qed.

Lemma filter_ext_in {A} (P1 P2 : A -> Prop)
    `{!forall x, Decision (P1 x), !forall x, Decision (P2 x)} (l : list A) :
  (forall x, x ∈ l -> P1 x <-> P2 x) -> filter P1 l = filter P2 l.
Proof.
  induction l as [|x l IH]; intros Hext; [reflexivity|].
  assert (Hl : filter P1 l = filter P2 l).
  { apply IH. intros y Hy. apply Hext. right. exact Hy. }
  destruct (decide (P1 x)) as [Hx|Hx].
  - rewrite !filter_cons_True; [rewrite Hl; reflexivity | | assumption].
    apply Hext; [left | assumption].
  - rewrite !filter_cons_False; [exact Hl | | assumption].
    intros Hx'. apply Hx. apply Hext; [left | assumption].
Qed.

Lemma alignAdd_added l (s : gmap string Queue.Subscription) a :
  NoDup l ->
  (fold_left Queue.alignAdd l (s, a)).2 = a ++ filter (fun k => s !! k = None) l.
Proof.
  revert s a. induction l as [|k0 l IH]; intros s a Hnd; cbn [fold_left].
  - cbn. rewrite app_nil_r. reflexivity.
  - apply NoDup_cons in Hnd as [Hk0 Hnd].
    unfold Queue.alignAdd at 2. cbn [fst snd].
    destruct (s !! k0) eqn:E0.
    + rewrite IH by assumption. rewrite filter_cons_False; [reflexivity|].
      rewrite E0. discriminate.
    + rewrite IH by assumption. rewrite filter_cons_True by assumption.
      rewrite <- app_assoc. cbn. do 2 f_equal.
      apply filter_ext_in. intros k Hk.
      rewrite lookup_insert_ne; [reflexivity|]. intros ->. contradiction.
Qed.

Lemma alignRemove_lookup {V} (expected : gmap string V) l
    (s : gmap string Queue.Subscription) r k :
  (fold_left (Queue.alignRemove expected) l (s, r)).1 !! k
  = if decide (k ∈ l /\ expected !! k = None) then None else s !! k.
Proof.
  revert s r. induction l as [|k0 l IH]; intros s r; cbn [fold_left].
  - cbn. rewrite decide_False; [reflexivity|]. intros [H _]. inversion H.
  - unfold Queue.alignRemove at 2. cbn [fst snd].
    destruct (expected !! k0) eqn:E0.
    + rewrite IH. apply decide_ext. split; intros [Hin Hk]; split; try assumption.
      * right. exact Hin.
      * apply elem_of_cons in Hin as [->|Hin]; [congruence | exact Hin].
    + rewrite IH. destruct (decide (k = k0)) as [->|Hne].
      * rewrite lookup_delete_eq. rewrite (decide_True (P := k0 ∈ k0 :: l /\ _)).
        -- destruct (decide _); reflexivity.
        -- split; [left | exact E0].
      * rewrite lookup_delete_ne by congruence.
        apply decide_ext. split; intros [Hin Hk]; split; try assumption.
        -- right. exact Hin.
        -- apply elem_of_cons in Hin as [->|Hin]; [congruence | exact Hin].
Qed.

Lemma alignRemove_removed {V} (expected : gmap string V) l
    (s : gmap string Queue.Subscription) r :
  (fold_left (Queue.alignRemove expected) l (s, r)).2
  = r ++ filter (fun k => expected !! k = None) l.
Proof.
  revert s r. induction l as [|k0 l IH]; intros s r; cbn [fold_left].
  - cbn. rewrite app_nil_r. reflexivity.
  - unfold Queue.alignRemove at 2. cbn [fst snd].
    destruct (expected !! k0) eqn:E0.
    + rewrite IH. rewrite filter_cons_False; [reflexivity|]. rewrite E0. discriminate.
    + rewrite IH. rewrite filter_cons_True by assumption.
      rewrite <- app_assoc. reflexivity.
Qed.

Section AlignFacts.

Context (rangeKeys : forall V, gmap string V -> list string).
Context (Hranges : ranges rangeKeys).
Context {V : Type}.

(** [align] spelled out: what it adds, what it removes, what it leaves. *)
Lemma align_unfold (expected : gmap string V) (subs : gmap string Queue.Subscription) :
  exists subs1,
    (forall k, subs1 !! k = match subs !! k with
                           | Some v => Some v
                           | None => if decide (is_Some (expected !! k))
                                     then Some (newSubscription k) else None
                           end)
    /\ (Queue.align rangeKeys expected subs).1.1
       = filter (fun k => subs !! k = None) (rangeKeys V expected)
    /\ (Queue.align rangeKeys expected subs).1.2
       = filter (fun k => expected !! k = None) (rangeKeys Queue.Subscription subs1)
    /\ (forall k, (Queue.align rangeKeys expected subs).2 !! k
                  = if decide (is_Some (expected !! k)) then subs1 !! k else None).
Proof.
  unfold Queue.align.
  destruct (fold_left Queue.alignAdd (rangeKeys V expected) (subs, [])) as [subs1 added] eqn:E1.
  destruct (fold_left (Queue.alignRemove expected) (rangeKeys Queue.Subscription subs1)
              (subs1, [])) as [subs2 removed] eqn:E2.
  assert (H1 : forall k, subs1 !! k = match subs !! k with
                           | Some v => Some v
                           | None => if decide (is_Some (expected !! k))
                                     then Some (newSubscription k) else None
                           end).
  { intros k. pose proof (alignAdd_lookup (rangeKeys V expected) subs [] k) as H.
    rewrite E1 in H. cbn in H. rewrite H. destruct (subs !! k); [reflexivity|].
    apply decide_ext. apply ranges_elem_of. exact Hranges. }
  exists subs1. split; [exact H1|]. cbn [fst snd]. split; [|split].
  - pose proof (alignAdd_added (rangeKeys V expected) subs []
                  (ranges_NoDup _ _ _ Hranges)) as H.
    rewrite E1 in H. exact H.
  - pose proof (alignRemove_removed expected (rangeKeys Queue.Subscription subs1) subs1 [])
      as H.
    rewrite E2 in H. exact H.
  - intros k.
    pose proof (alignRemove_lookup expected (rangeKeys Queue.Subscription subs1) subs1 [] k)
      as H.
    rewrite E2 in H. cbn in H. rewrite H.
    destruct (expected !! k) as [v|] eqn:Ek.
    + rewrite decide_False by (intros [_ ?]; discriminate).
      rewrite decide_True by eauto. reflexivity.
    + rewrite (decide_False (P := is_Some None)) by (intros [? ?]; discriminate).
      destruct (decide _) as [_|Hn]; [reflexivity|].
      destruct (subs1 !! k) eqn:Es; [|reflexivity].
      exfalso. apply Hn. split; [|reflexivity].
      apply ranges_elem_of; [exact Hranges | eauto].
Qed.

End AlignFacts.

Lemma rangeInOrder_ranges : ranges rangeInOrder.
Proof. intros V m. reflexivity. Qed.

Lemma filter_none {A} (P : A -> Prop) `{!forall x, Decision (P x)} (l : list A) :
  (forall x, x ∈ l -> ~ P x) -> filter P l = [].
Proof.
  induction l as [|x l IH]; intros Hno; [reflexivity|].
  rewrite filter_cons_False by (apply Hno; left).
  apply IH. intros y Hy. apply Hno. right. exact Hy.
Qed.

(** C8. Whatever order the two loops range in, one [align] leaves the
    catalog with exactly the reported names, returns as added the
    reported names that were not in it and as removed its names that
    were not reported, each once; aligning again to the same report
    changes nothing any more. *)
Theorem align_converges (rangeKeys : forall V, gmap string V -> list string)
    {V} (expected : gmap string V) (subs : gmap string Queue.Subscription) :
  ranges rangeKeys ->
  let r := Queue.align rangeKeys expected subs in
  dom r.2 = dom expected
  /\ (forall x, x ∈ r.1.1 <-> x ∈ dom expected /\ x ∉ dom subs)
  /\ (forall x, x ∈ r.1.2 <-> x ∈ dom subs /\ x ∉ dom expected)
  /\ NoDup r.1.1 /\ NoDup r.1.2
  /\ Queue.align rangeKeys expected r.2 = ([], [], r.2).
Proof.
  intros Hranges r.
  destruct (align_unfold rangeKeys Hranges expected subs)
    as (subs1 & H1 & Hadd & Hrem & Hleft).
  fold r in Hadd, Hrem, Hleft.
  assert (Hdom : dom r.2 = dom expected).
  { apply set_eq. intros k. rewrite !elem_of_dom, Hleft, H1.
    destruct (decide (is_Some (expected !! k))) as [Hk|Hk].
    - split; [intros _; exact Hk|]. intros _. destruct (subs !! k); eauto.
    - split; [intros [? ?]; discriminate | intros ?; contradiction]. }
  split; [exact Hdom|]. split; [|split; [|split; [|split]]].
  - intros x. rewrite Hadd, list_elem_of_filter, (ranges_elem_of _ _ _ _ Hranges).
    rewrite !elem_of_dom, eq_None_not_Some. tauto.
  - intros x. rewrite Hrem, list_elem_of_filter, (ranges_elem_of _ _ _ _ Hranges).
    rewrite !elem_of_dom, H1, eq_None_not_Some.
    destruct (subs !! x) eqn:Ex.
    + split; [intros [? _]; split; [eauto | assumption] | intros [_ ?]; split; eauto].
    + destruct (decide (is_Some (expected !! x))).
      * split; [intros [? _]; contradiction | intros [[? ?] _]; discriminate].
      * split; [intros [_ [? ?]]; discriminate | intros [[? ?] _]; discriminate].
  - rewrite Hadd. apply NoDup_filter, (ranges_NoDup _ _ _ Hranges).
  - rewrite Hrem. apply NoDup_filter, (ranges_NoDup _ _ _ Hranges).
  - destruct (align_unfold rangeKeys Hranges expected r.2)
      as (subs1' & H1' & Hadd' & Hrem' & Hleft').
    assert (Hin : forall k, is_Some (expected !! k) <-> is_Some (r.2 !! k)).
    { intros k. rewrite <- !elem_of_dom, Hdom. reflexivity. }
    assert (Hsame : subs1' = r.2).
    { apply map_eq. intros k. rewrite H1'.
      destruct (r.2 !! k) eqn:Ek; [reflexivity|].
      rewrite decide_False; [reflexivity|].
      rewrite Hin, Ek. intros [? ?]; discriminate. }
    destruct (Queue.align rangeKeys expected r.2) as [[added' removed'] subs'].
    cbn [fst snd] in *. f_equal; [f_equal|].
    + rewrite Hadd'. apply filter_none. intros x Hx.
      apply (ranges_elem_of _ _ _ _ Hranges), Hin in Hx.
      rewrite eq_None_not_Some. tauto.
    + rewrite Hrem', Hsame. apply filter_none. intros x Hx.
      apply (ranges_elem_of _ _ _ _ Hranges), Hin in Hx.
      rewrite eq_None_not_Some. tauto.
    + apply map_eq. intros k. rewrite Hleft', Hsame.
      destruct (decide (is_Some (expected !! k))) as [Hk|Hk]; [reflexivity|].
      rewrite Hin in Hk. symmetry. apply eq_None_not_Some. exact Hk.
Qed.

Lemma align_converges_witness :
  let r := Queue.align rangeInOrder reported0 catalog0 in
  dom r.2 = dom reported0
  /\ (forall x, x ∈ r.1.1 <-> x ∈ dom reported0 /\ x ∉ dom catalog0)
  /\ (forall x, x ∈ r.1.2 <-> x ∈ dom catalog0 /\ x ∉ dom reported0)
  /\ NoDup r.1.1 /\ NoDup r.1.2
  /\ Queue.align rangeInOrder reported0 r.2 = ([], [], r.2).
Proof.
  exact (align_converges rangeInOrder reported0 catalog0 rangeInOrder_ranges).
Defined.

(** C10. [align] leaves the record of every subscription that is both
    in the catalog and in the report as it was: its name, its resource
    hint and its count of running instances. *)
Theorem align_keeps_known (rangeKeys : forall V, gmap string V -> list string)
    {V} (expected : gmap string V) (subs : gmap string Queue.Subscription)
    (k : string) (sub : Queue.Subscription) :
  ranges rangeKeys ->
  subs !! k = Some sub ->
  is_Some (expected !! k) ->
  (Queue.align rangeKeys expected subs).2 !! k = Some sub.
Proof.
  intros Hranges Hsub Hk.
  destruct (align_unfold rangeKeys Hranges expected subs)
    as (subs1 & H1 & _ & _ & Hleft).
  rewrite Hleft, decide_True by assumption. rewrite H1, Hsub. reflexivity.
Qed.

Lemma align_keeps_known_witness :
  exists sub, catalog0 !! "q1" = Some sub
    /\ Queue.cnt sub = 1%N
    /\ (Queue.align rangeInOrder reported0 catalog0).2 !! "q1" = Some sub.
Proof.
  eexists. split; [reflexivity|]. split; [reflexivity|].
  apply (align_keeps_known rangeInOrder reported0 catalog0 "q1" _ rangeInOrder_ranges).
  - reflexivity.
  - eexists. reflexivity.
Defined.

(** ** The back-off cache *)

Lemma Get_Set_live c k d now t :
  0 < d -> t <= now + d -> Queue.Get (Queue.Set_ c k d now) k t = true.
Proof.
  intros Hd Ht. unfold Queue.Get, Queue.Set_. cbn.
  rewrite lookup_insert_eq.
  destruct (Z.eqb_spec d 0) as [->|_]; [lia|].
  destruct (Z.ltb_spec 0 d); [|lia].
  destruct (0 <? now + d); [|reflexivity].
  destruct (Z.ltb_spec (now + d) t); [lia | reflexivity].
Qed.

Lemma Set_items c k d now :
  0 < d ->
  Queue.items (Queue.Set_ c k d now) !! k = Some (now + d).
Proof.
  intros Hd. unfold Queue.Set_. cbn. rewrite lookup_insert_eq.
  destruct (Z.eqb_spec d 0) as [->|_]; [lia|].
  destruct (Z.ltb_spec 0 d); [reflexivity | lia].
Qed.

(** ** The message handler *)

(** C2, as stated: a message that cannot be read into a request is
    acknowledged. The handler answers it with a negative
    acknowledgement. *)
Lemma handler_unreadable_not_acked :
  Queue.reply (Queue.handler unreadable succeeds queuer0 request0 Queue.backoffs0
                             0 msg0 (fun c => c) 0)
  <> Queue.Ack.
Proof. vm_compute. discriminate. Qed.

(** C2, amended. When [newProcessor] fails on a message, which is
    where a message that does not parse ends, the handler answers with
    a negative acknowledgement and cancels the receive; it leaves the
    back-off cache and the catalog as they were. *)
Theorem handler_unreadable_nacks
    (newProcessor : string -> Queue.Message -> string -> string + Queue.processor)
    (Process : Queue.processor -> Queue.Message -> Z * bool * option string)
    (qr : Queue.Queuer) (request : Queue.subRequest) (backoffs : Queue.Cache)
    (t0 t1 : Z) (msg : Queue.Message) (meanwhile : Queue.Cache -> Queue.Cache)
    (err : string) :
  newProcessor (Queue.subscription request) msg (Queue.cred qr) = inl err ->
  Queue.handler newProcessor Process qr request backoffs t0 msg meanwhile t1
  = {| Queue.reply := Queue.Nack; Queue.cancelled := true;
       Queue.queuer' := qr; Queue.cache' := backoffs |}.
Proof.
  intros Herr. unfold Queue.handler. rewrite Herr.
  destruct (Queue.Get backoffs _ t0); reflexivity.
Qed.

Lemma handler_unreadable_nacks_witness :
  Queue.handler unreadable succeeds queuer0 request0 Queue.backoffs0
                0 msg0 (fun c => c) 0
  = {| Queue.reply := Queue.Nack; Queue.cancelled := true;
       Queue.queuer' := queuer0; Queue.cache' := Queue.backoffs0 |}.
Proof.
  apply (handler_unreadable_nacks unreadable succeeds queuer0 request0 Queue.backoffs0
           0 0 msg0 (fun c => c) "unexpected end of JSON input").
  reflexivity.
Defined.

(** C7, as stated: after a success the queue has a one second
    back-off. With no back-off in the cache the message is
    acknowledged and the cache still has none. *)
Lemma handler_success_no_backoff :
  let r := Queue.handler readable succeeds queuer0 request0 Queue.backoffs0
                         0 msg0 (fun c => c) 5 in
  Queue.reply r = Queue.Ack
  /\ Queue.items (Queue.cache' r) !! "proj:q1" = None
  /\ Queue.Get (Queue.cache' r) "proj:q1" 5 = false.
Proof. vm_compute. repeat split; reflexivity. Qed.

(** C7, amended. When [Process] returns without error the handler
    acknowledges the message and does not cancel the receive; if by
    then the cache holds a live back-off for the queue it replaces it
    by one of a second, and if it holds none it installs none. *)
Theorem handler_success_acks
    (newProcessor : string -> Queue.Message -> string -> string + Queue.processor)
    (Process : Queue.processor -> Queue.Message -> Z * bool * option string)
    (qr : Queue.Queuer) (request : Queue.subRequest) (backoffs : Queue.Cache)
    (t0 t1 : Z) (msg : Queue.Message) (meanwhile : Queue.Cache -> Queue.Cache)
    (proc : Queue.processor) (backoff : Z) (ack : bool) :
  let key := (Queue.project_ request ++ ":" ++ Queue.subscription request)%string in
  Queue.Get backoffs key t0 = false ->
  newProcessor (Queue.subscription request) msg (Queue.cred qr) = inr proc ->
  Process proc msg = (backoff, ack, None) ->
  let r := Queue.handler newProcessor Process qr request backoffs t0 msg meanwhile t1 in
  Queue.reply r = Queue.Ack
  /\ Queue.cancelled r = false
  /\ (Queue.Get (meanwhile backoffs) key t1 = true ->
        Queue.cache' r = Queue.Set_ (meanwhile backoffs) key Queue.second t1
        /\ Queue.items (Queue.cache' r) !! key = Some (t1 + Queue.second))
  /\ (Queue.Get (meanwhile backoffs) key t1 = false ->
        Queue.cache' r = meanwhile backoffs
        /\ Queue.Get (Queue.cache' r) key t1 = false).
Proof.
  intros key Hfree Hproc Hdone r. unfold r, Queue.handler. fold key.
  rewrite Hfree, Hproc, Hdone. cbn.
  split; [reflexivity|]. split; [reflexivity|]. split; intros Hlive; rewrite Hlive.
  - split; [reflexivity|]. apply Set_items. reflexivity.
  - split; [reflexivity | exact Hlive].
Qed.

Lemma handler_success_acks_witness :
  let meanwhile := fun c => Queue.Set_ c "proj:q1" Queue.minute 3 in
  let r := Queue.handler readable succeeds queuer0 request0 Queue.backoffs0
                         0 msg0 meanwhile 5 in
  Queue.reply r = Queue.Ack
  /\ Queue.items (Queue.cache' r) !! "proj:q1" = Some (5 + Queue.second).
Proof.
  intros meanwhile r.
  destruct (handler_success_acks readable succeeds queuer0 request0 Queue.backoffs0
              0 5 msg0 meanwhile {| Queue.Request_ := Runner.zeroRequest |} 0 true
              eq_refl eq_refl eq_refl) as (Hack & _ & Hlive & _).
  split; [exact Hack|]. apply Hlive. reflexivity.
Defined.

(** ** The producer *)

(** C6, as stated: when nobody takes the first, empty request the
    producer gives the tick up without a back-off for the queue it had
    picked. It hands nothing over and the queue has a back-off. *)
Lemma tick_stage1_backs_off :
  let r := Queue.tick Humanize.ParseBytes rangeInOrder queuer1 Queue.backoffs0 started
                      0 0 [] machine0 deaf in
  Queue.sent r = []
  /\ Queue.Get Queue.backoffs0 "proj:q1" 0 = false
  /\ Queue.Get (Queue.backoffs' r) "proj:q1" 1 = true
  /\ Queue.items (Queue.backoffs' r) !! "proj:q1" = Some Queue.minute.
Proof. vm_compute. repeat split; reflexivity. Qed.

(** C6, amended. When nobody takes the first, empty request, the
    producer hands nothing over, leaves its ready times alone, and
    installs a back-off of one minute for the queue it had picked. *)
Theorem tick_stage1_busy
    (ParseBytes : string -> N * bool)
    (rangeKeys : forall V, gmap string V -> list string)
    (qr : Queue.Queuer) (backoffs : Queue.Cache) (st : Queue.producerState)
    (t0 t1 : Z) (rnd : list nat) (machine : Runner.Resource) (rQ : Queue.consumerEnd)
    (first : Queue.Subscription) (rest : list Queue.Subscription) :
  Queue.shuffle rnd (Queue.idleOf qr backoffs t0 (Queue.rank rangeKeys qr))
  = first :: rest ->
  Queue.ready1 rQ = false ->
  let key := (Queue.project qr ++ ":" ++ Queue.name first)%string in
  let r := Queue.tick ParseBytes rangeKeys qr backoffs st t0 t1 rnd machine rQ in
  r = {| Queue.backoffs' := Queue.Set_ backoffs key Queue.minute t1;
         Queue.state' := st; Queue.sent := []; Queue.warned := false |}
  /\ Queue.items (Queue.backoffs' r) !! key = Some (t1 + Queue.minute)
  /\ (forall t, t <= t1 + Queue.minute -> Queue.Get (Queue.backoffs' r) key t = true).
Proof.
  intros Hpick Hbusy key r.
  assert (Hr : r = {| Queue.backoffs' := Queue.Set_ backoffs key Queue.minute t1;
                      Queue.state' := st; Queue.sent := []; Queue.warned := false |}).
  { unfold r, Queue.tick. rewrite Hpick. unfold Queue.check. rewrite Hbusy. reflexivity. }
  split; [exact Hr|]. rewrite Hr. cbn [Queue.backoffs']. split.
  - apply Set_items. reflexivity.
  - intros t Ht. apply Get_Set_live; [reflexivity | exact Ht].
Qed.

Lemma tick_stage1_busy_witness :
  let r := Queue.tick Humanize.ParseBytes rangeInOrder queuer1 Queue.backoffs0 started
                      0 7 [] machine0 deaf in
  r = {| Queue.backoffs' := Queue.Set_ Queue.backoffs0 "proj:q1" Queue.minute 7;
         Queue.state' := started; Queue.sent := []; Queue.warned := false |}.
Proof.
  intros r.
  destruct (tick_stage1_busy Humanize.ParseBytes rangeInOrder queuer1 Queue.backoffs0
              started 0 7 [] machine0 deaf (newSubscription "q1") [] eq_refl eq_refl)
    as (Hr & _).
  exact Hr.
Defined.

(** ** Requests as JSON *)

Lemma ParseInt_FormatInt z : is_int64 z -> Runner.ParseInt (Runner.FormatInt z) = Some z.
Proof.
  intros Hz. unfold Runner.ParseInt, Runner.FormatInt.
  rewrite NilZero.isi.
  - cbn. rewrite DecimalZ.of_to.
    destruct Hz as [Hlo Hhi].
    apply Z.leb_le in Hlo. apply Z.ltb_lt in Hhi. rewrite Hlo, Hhi. reflexivity.
  - destruct z; cbn; intros H; inversion H as [H'].
    apply (DecimalPos.Unsigned.to_uint_nonnil _ H').
  - destruct z; cbn; intros H; inversion H as [H'].
    apply (DecimalPos.Unsigned.to_uint_nonnil _ H').
Qed.

Lemma ParseUint_FormatUint n : is_uint n -> Runner.ParseUint (Runner.FormatUint n) = Some n.
Proof.
  intros Hn. unfold Runner.ParseUint, Runner.FormatUint.
  rewrite NilZero.usu.
  - cbn. rewrite DecimalN.Unsigned.of_to.
    apply N.ltb_lt in Hn. rewrite Hn. reflexivity.
  - destruct n; cbn; [discriminate | apply DecimalPos.Unsigned.to_uint_nonnil].
Qed.

(** *** Text coerced to UTF-8 *)

(** One step of [coerce]. *)
Lemma coerce_unfold a s1 :
  (Utf8.size a = 1%nat /\ Utf8.coerce (String a s1) = String a (Utf8.coerce s1))
  \/ (exists b s2, s1 = String b s2 /\ Utf8.size a = 2%nat /\ Utf8.accepts a b = true
       /\ Utf8.coerce (String a s1) = String a (String b (Utf8.coerce s2)))
  \/ (exists b c s3, s1 = String b (String c s3) /\ Utf8.size a = 3%nat
       /\ Utf8.accepts a b = true /\ Utf8.isCont c = true
       /\ Utf8.coerce (String a s1) = String a (String b (String c (Utf8.coerce s3))))
  \/ (exists b c d s4, s1 = String b (String c (String d s4)) /\ Utf8.size a = 4%nat
       /\ Utf8.accepts a b = true /\ Utf8.isCont c = true /\ Utf8.isCont d = true
       /\ Utf8.coerce (String a s1)
          = String a (String b (String c (String d (Utf8.coerce s4)))))
  \/ ((128 <= N_of_ascii a)%N
      /\ Utf8.coerce (String a s1)
         = String "239" (String "191" (String "189" (Utf8.coerce s1)))).
Proof.
  assert (Hbig : Utf8.size a <> 1%nat -> (128 <= N_of_ascii a)%N).
  { unfold Utf8.size. destruct (N.ltb_spec (N_of_ascii a) 128) as [Hlt|Hge];
      [intros Hne; contradiction | intros _; exact Hge]. }
  cbn [Utf8.coerce]. unfold Utf8.width.
  destruct (Utf8.size a) as [|[|[|[|[|n]]]]] eqn:Hsize.
  - do 4 right. split; [apply Hbig; discriminate|].
    destruct s1 as [|b [|c [|d s4]]]; reflexivity.
  - left. split; reflexivity.
  - destruct s1 as [|b s2].
    + do 4 right. split; [apply Hbig; discriminate | reflexivity].
    + destruct (Utf8.accepts a b) eqn:Hb.
      * right. left. exists b, s2. repeat split. exact Hb.
      * do 4 right. split; [apply Hbig; discriminate|].
        destruct s2 as [|c [|d s4]]; reflexivity.
  - destruct s1 as [|b [|c s3]];
      try (do 4 right; split; [apply Hbig; discriminate | reflexivity]).
    destruct (Utf8.accepts a b) eqn:Hb, (Utf8.isCont c) eqn:Hc; cbn [andb];
      try (do 4 right; split; [apply Hbig; discriminate|];
           destruct s3 as [|d s4]; reflexivity).
    right. right. left. exists b, c, s3. repeat split; assumption.
  - destruct s1 as [|b [|c [|d s4]]];
      try (do 4 right; split; [apply Hbig; discriminate | reflexivity]).
    destruct (Utf8.accepts a b) eqn:Hb, (Utf8.isCont c) eqn:Hc, (Utf8.isCont d) eqn:Hd;
      cbn [andb];
      try (do 4 right; split; [apply Hbig; discriminate | reflexivity]).
    right. right. right. left. exists b, c, d, s4. repeat split; assumption.
  - do 4 right. split; [apply Hbig; discriminate|].
    destruct s1 as [|b [|c [|d s4]]]; reflexivity.
Qed.

Lemma coerce_1 a t : Utf8.size a = 1%nat -> Utf8.coerce (String a t) = String a (Utf8.coerce t).
Proof. intros H. cbn [Utf8.coerce]. unfold Utf8.width. rewrite H. reflexivity. Qed.

Lemma coerce_2 a b t :
  Utf8.size a = 2%nat -> Utf8.accepts a b = true ->
  Utf8.coerce (String a (String b t)) = String a (String b (Utf8.coerce t)).
Proof. intros H Hb. cbn [Utf8.coerce]. unfold Utf8.width. rewrite H, Hb. reflexivity. Qed.

Lemma coerce_3 a b c t :
  Utf8.size a = 3%nat -> Utf8.accepts a b = true -> Utf8.isCont c = true ->
  Utf8.coerce (String a (String b (String c t)))
  = String a (String b (String c (Utf8.coerce t))).
Proof.
  intros H Hb Hc. cbn [Utf8.coerce]. unfold Utf8.width. rewrite H, Hb, Hc. reflexivity.
Qed.

Lemma coerce_4 a b c d t :
  Utf8.size a = 4%nat -> Utf8.accepts a b = true -> Utf8.isCont c = true ->
  Utf8.isCont d = true ->
  Utf8.coerce (String a (String b (String c (String d t))))
  = String a (String b (String c (String d (Utf8.coerce t)))).
Proof.
  intros H Hb Hc Hd. cbn [Utf8.coerce]. unfold Utf8.width. rewrite H, Hb, Hc, Hd.
  reflexivity.
Qed.

Lemma coerce_RuneError t :
  Utf8.coerce (String "239" (String "191" (String "189" t)))
  = String "239" (String "191" (String "189" (Utf8.coerce t))).
Proof. apply coerce_3; reflexivity. Qed.

(** What has been coerced is well formed. *)
Lemma coerce_idempotent s : Utf8.coerce (Utf8.coerce s) = Utf8.coerce s.
Proof.
  remember (String.length s) as n eqn:Hn. revert s Hn.
  induction n as [n IH] using lt_wf_ind. intros s Hn.
  destruct s as [|a s1]; [reflexivity|]. cbn [String.length] in Hn.
  destruct (coerce_unfold a s1)
    as [(Hsize & ->)
       | [(b & s2 & -> & Hsize & Hb & ->)
         | [(b & c & s3 & -> & Hsize & Hb & Hc & ->)
           | [(b & c & d & s4 & -> & Hsize & Hb & Hc & Hd & ->) | (_ & ->)]]]].
  - rewrite coerce_1 by assumption. f_equal. apply (IH (String.length s1)); [lia | reflexivity].
  - rewrite coerce_2 by assumption. do 2 f_equal.
    apply (IH (String.length s2)); [cbn [String.length] in Hn; lia | reflexivity].
  - rewrite coerce_3 by assumption. do 3 f_equal.
    apply (IH (String.length s3)); [cbn [String.length] in Hn; lia | reflexivity].
  - rewrite coerce_4 by assumption. do 4 f_equal.
    apply (IH (String.length s4)); [cbn [String.length] in Hn; lia | reflexivity].
  - rewrite coerce_RuneError. do 3 f_equal.
    apply (IH (String.length s1)); [lia | reflexivity].
Qed.

Lemma wellFormed_coerce s : wellFormed (Utf8.coerce s).
Proof. apply coerce_idempotent. Qed.

Lemma wellFormed_empty : wellFormed EmptyString.
Proof. reflexivity. Qed.

Lemma toUpper_high a : (128 <= N_of_ascii a)%N -> Runner.toUpper a = a.
Proof.
  intros H. unfold Runner.toUpper.
  destruct (N.leb_spec 97 (N_of_ascii a)), (N.leb_spec (N_of_ascii a) 122);
    cbn; try reflexivity. lia.
Qed.

(** A name whose first byte is neither that of a long s nor that of
    a Kelvin sign folds byte by byte. *)
Lemma foldName_plain a s1 :
  N_of_ascii a <> 197%N -> N_of_ascii a <> 226%N ->
  Runner.foldName (String a s1) = String (Runner.toUpper a) (Runner.foldName s1).
Proof.
  intros H1 H2. cbn [Runner.foldName]. unfold Runner.isLongS, Runner.isKelvin.
  apply N.eqb_neq in H1, H2. rewrite H1, H2. cbn [andb].
  destruct s1 as [|b [|c s3]]; reflexivity.
Qed.

Lemma isASCII_high a s : (128 <= N_of_ascii a)%N -> isASCII (String a s) = false.
Proof.
  intros H. cbn. destruct (N.ltb_spec (N_of_ascii a) 128); [lia | reflexivity].
Qed.

(** A name that folds to ASCII is well formed: the only bytes above
    ASCII it can hold are those of long s and Kelvin signs. *)
Lemma isASCII_foldName_coerce k :
  isASCII (Runner.foldName (Utf8.coerce k)) = true -> Utf8.coerce k = k.
Proof.
  remember (String.length k) as n eqn:Hn. revert k Hn.
  induction n as [n IH] using lt_wf_ind. intros k Hn Hfold.
  destruct k as [|a s1]; [reflexivity|]. cbn [String.length] in Hn.
  assert (Hhigh : forall t, (128 <= N_of_ascii a)%N ->
            N_of_ascii a <> 197%N -> N_of_ascii a <> 226%N ->
            isASCII (Runner.foldName (String a t)) = true -> False).
  { intros t Ha H1 H2 H. rewrite foldName_plain, toUpper_high, isASCII_high in H by assumption.
    discriminate. }
  destruct (coerce_unfold a s1)
    as [(Hsize & Hco)
       | [(b & s2 & -> & Hsize & Hb & Hco)
         | [(b & c & s3 & -> & Hsize & Hb & Hc & Hco)
           | [(b & c & d & s4 & -> & Hsize & Hb & Hc & Hd & Hco) | (Ha & Hco)]]]];
    rewrite Hco in Hfold |- *.
  - f_equal. apply (IH (String.length s1)); [lia | reflexivity|].
    assert (Hlow : (N_of_ascii a < 128)%N).
    { unfold Utf8.size in Hsize. destruct (N.ltb_spec (N_of_ascii a) 128); [assumption|].
      destruct (_ <? 194)%N; [discriminate|]. destruct (_ <? 224)%N; [discriminate|].
      destruct (_ <? 240)%N; [discriminate|]. destruct (_ <? 245)%N; discriminate. }
    rewrite foldName_plain in Hfold by lia. cbn [isASCII] in Hfold.
    apply andb_true_iff in Hfold as [_ Hfold]. exact Hfold.
  - do 2 f_equal. apply (IH (String.length s2)); [cbn [String.length] in Hn; lia | reflexivity|].
    assert (Ha : (194 <= N_of_ascii a < 224)%N).
    { unfold Utf8.size in Hsize. destruct (N.ltb_spec (N_of_ascii a) 128); [discriminate|].
      destruct (N.ltb_spec (N_of_ascii a) 194); [discriminate|].
      destruct (N.ltb_spec (N_of_ascii a) 224); [lia|].
      destruct (_ <? 240)%N; [discriminate|]. destruct (_ <? 245)%N; discriminate. }
    cbn [Runner.foldName] in Hfold. destruct (Runner.isLongS a b) eqn:Hs.
    + cbn [isASCII] in Hfold. apply andb_true_iff in Hfold as [_ Hfold]. exact Hfold.
    + exfalso. unfold Runner.isKelvin in Hfold.
      destruct (N.eqb_spec (N_of_ascii a) 226) as [Heq|Hne]; [lia|]. cbn [andb] in Hfold.
      assert (Hup : isASCII (String (Runner.toUpper a)
                               (Runner.foldName (String b (Utf8.coerce s2))))
                    = true).
      { destruct (Utf8.coerce s2); exact Hfold. }
      rewrite toUpper_high, isASCII_high in Hup by lia. discriminate.
  - do 3 f_equal. apply (IH (String.length s3)); [cbn [String.length] in Hn; lia | reflexivity|].
    assert (Ha : (224 <= N_of_ascii a < 240)%N).
    { unfold Utf8.size in Hsize. destruct (N.ltb_spec (N_of_ascii a) 128); [discriminate|].
      destruct (N.ltb_spec (N_of_ascii a) 194); [discriminate|].
      destruct (N.ltb_spec (N_of_ascii a) 224); [discriminate|].
      destruct (N.ltb_spec (N_of_ascii a) 240); [lia|].
      destruct (_ <? 245)%N; discriminate. }
    cbn [Runner.foldName] in Hfold. unfold Runner.isLongS in Hfold.
    destruct (N.eqb_spec (N_of_ascii a) 197) as [Heq|Hne]; [lia|]. cbn [andb] in Hfold.
    destruct (Runner.isKelvin a b c) eqn:Hk.
    + cbn [isASCII] in Hfold. apply andb_true_iff in Hfold as [_ Hfold]. exact Hfold.
    + exfalso. rewrite toUpper_high, isASCII_high in Hfold by lia. discriminate.
  - exfalso.
    assert (Ha : (240 <= N_of_ascii a)%N).
    { unfold Utf8.size in Hsize. destruct (N.ltb_spec (N_of_ascii a) 128); [discriminate|].
      destruct (N.ltb_spec (N_of_ascii a) 194); [discriminate|].
      destruct (N.ltb_spec (N_of_ascii a) 224); [discriminate|].
      destruct (N.ltb_spec (N_of_ascii a) 240); [discriminate | assumption]. }
    apply (Hhigh _ ltac:(lia) ltac:(lia) ltac:(lia) Hfold).
  - exfalso. revert Hfold. rewrite foldName_plain by (vm_compute; discriminate).
    rewrite isASCII_high by (vm_compute; discriminate). discriminate.
Qed.

(** A name that does not match a tag of ASCII letters does not match
    it after coercion either. *)
Lemma fieldIs_coerce tag k :
  isASCII (Runner.foldName tag) = true ->
  Runner.fieldIs tag k = false -> Runner.fieldIs tag (Utf8.coerce k) = false.
Proof.
  intros Htag Hk. destruct (Runner.fieldIs tag (Utf8.coerce k)) eqn:Hco; [|reflexivity].
  unfold Runner.fieldIs in Hco. apply String.eqb_eq in Hco.
  rewrite <- Hco in Htag. apply isASCII_foldName_coerce in Htag.
  rewrite Htag in Hco. unfold Runner.fieldIs in Hk. rewrite Hco, String.eqb_refl in Hk.
  discriminate.
Qed.


Section FieldFacts.

Context {T : Type} (dec : T -> Runner.json -> option T) (tag : string).

Lemma field_nil cur : Runner.field dec tag [] cur = Some cur.
Proof. reflexivity. Qed.

Lemma field_miss k v ms cur :
  Runner.fieldIs tag (Utf8.coerce k) = false ->
  Runner.field dec tag ((k, v) :: ms) cur = Runner.field dec tag ms cur.
Proof. intros H. unfold Runner.field. cbn [fold_left fst snd]. rewrite H. reflexivity. Qed.

Lemma field_hit k v ms cur x :
  Runner.fieldIs tag (Utf8.coerce k) = true ->
  dec cur v = Some x ->
  Runner.field dec tag ((k, v) :: ms) cur = Runner.field dec tag ms x.
Proof.
  intros H Hx. unfold Runner.field. cbn [fold_left fst snd]. rewrite H. cbn.
  rewrite Hx. reflexivity.
Qed.

End FieldFacts.

(** The decoders that read back what their encoder wrote. *)
Create HintDb codec.

(** Routing the members of a written object to the fields: every tag
    test is on two literal names and is computed. *)
Ltac decoded :=
  first [ eassumption
        | solve [ cbn [Runner.Env Runner.Artifacts Runner.Pip Runner.Args Runner.Pythonenv
                       Runner.Config_ Runner.Experiment_ fst snd
                       Runner.zeroConfig Runner.zeroExperiment Runner.zeroRequest];
                  eauto 3 with codec nocore ]
        | cbn; first [ apply ParseUint_FormatUint | apply ParseInt_FormatInt ]; assumption
        | reflexivity ].

Ltac route :=
  repeat lazymatch goal with
    | |- context [Runner.field ?dec ?tag ((?k, ?v) :: ?ms) ?cur] =>
        let b := eval vm_compute in (Runner.fieldIs tag (Utf8.coerce k)) in
        lazymatch b with
        | false => rewrite (field_miss dec tag k v ms cur eq_refl)
        | true => erewrite (field_hit dec tag k v ms cur _ eq_refl); [ | decoded ]
        end
    | |- context [Runner.field ?dec ?tag [] ?cur] =>
        rewrite (field_nil dec tag cur)
    end.

Lemma decString_enc cur s :
  wellFormed s -> Runner.decString cur (Runner.encString s) = Some s.
Proof.
  intros Hs. cbn. rewrite coerce_idempotent. f_equal. exact Hs.
Qed.

#[local] Hint Resolve decString_enc : codec.

Lemma decodeResource_enc cur r :
  is_uint (Runner.Cpus r) -> is_uint (Runner.Gpus r) -> textResource r ->
  Runner.decStruct Runner.decodeResource cur (Runner.encResource r) = Some r.
Proof.
  intros Hc Hg (Hh & Hr & Hm).
  unfold Runner.encResource, Runner.decStruct, Runner.decodeResource.
  route. destruct r; reflexivity.
Qed.

#[local] Hint Resolve decodeResource_enc : codec.

Lemma decodeRunnerCustom_enc cur r :
  wellFormed (Runner.SlackDest r) ->
  Runner.decStruct Runner.decodeRunnerCustom cur (Runner.encRunnerCustom r) = Some r.
Proof.
  intros Hs. unfold Runner.encRunnerCustom, Runner.decStruct, Runner.decodeRunnerCustom.
  route. destruct r; reflexivity.
Qed.

#[local] Hint Resolve decodeRunnerCustom_enc : codec.

Lemma decodeDatabase_enc cur d :
  is_int64 (Runner.MessagingSenderId d) -> textDatabase d ->
  Runner.decStruct Runner.decodeDatabase cur (Runner.encDatabase d) = Some d.
Proof.
  intros Hs (Ha & Hd & Hu & Hp & Hb & Ht).
  unfold Runner.encDatabase, Runner.decStruct, Runner.decodeDatabase.
  route. destruct d; reflexivity.
Qed.

#[local] Hint Resolve decodeDatabase_enc : codec.

Lemma omitempty_eq tag s :
  (s = EmptyString /\ Runner.omitempty tag s = [])
  \/ Runner.omitempty tag s = [(tag, Runner.encString s)].
Proof.
  unfold Runner.omitempty. destruct (String.eqb_spec s EmptyString); [left | right]; auto.
Qed.

(** An artifact is read back into a fresh element, as the entries of a
    map are: a field left out as empty is then empty again. *)
Lemma decodeArtifact_enc a :
  textArtifact a ->
  Runner.decStruct Runner.decodeArtifact Runner.zeroArtifact (Runner.encArtifact a)
  = Some a.
Proof.
  intros (Hb & Hk & Hh & Hl & Hq).
  unfold Runner.encArtifact, Runner.decStruct, Runner.decodeArtifact.
  destruct (omitempty_eq "hash" (Runner.Hash a)) as [[Hh0 ->] | ->];
    destruct (omitempty_eq "local" (Runner.Local_ a)) as [[Hl0 ->] | ->];
    cbn [app]; route; destruct a; cbn in *; subst; reflexivity.
Qed.

Lemma decElems_enc backing l :
  Forall wellFormed l ->
  Runner.decElems backing (Runner.encString <$> l) = Some l.
Proof.
  intros Hl. revert backing. induction Hl as [|s l Hs _ IH]; intros backing.
  - reflexivity.
  - cbn [fmap list_fmap Runner.decElems]. rewrite (decString_enc _ s Hs). cbn.
    rewrite IH. reflexivity.
Qed.

(** A slice that is nil and has no backing array reads back what was
    written. *)
Lemma decStrings_enc l :
  textStrings l ->
  Runner.decStrings (None, []) (Runner.encStrings l) = Some (l, []).
Proof.
  destruct l as [l|]; [|reflexivity]. unfold textStrings. cbn [default]. intros Hl.
  destruct l as [|s l]; [reflexivity|].
  pose proof (decElems_enc [] (s :: l) Hl) as Hread.
  unfold Runner.encStrings, Runner.decStrings.
  cbn [fmap list_fmap fst snd default app] in Hread |- *.
  rewrite Hread. reflexivity.
Qed.

#[local] Hint Resolve decStrings_enc : codec.

(** Inserting entries with distinct keys one after the other builds
    the map of the entries, whatever their order. *)
Lemma insert_entries {V} (ps : list (string * V)) (acc : gmap string V) :
  NoDup ps.*1 ->
  fold_left (fun m p => <[p.1:=p.2]> m) ps acc = list_to_map ps ∪ acc.
Proof.
  revert acc. induction ps as [|[k v] ps IH]; intros acc Hnd; cbn.
  - rewrite (left_id_L ∅ (∪)). reflexivity.
  - apply NoDup_cons in Hnd as [Hk Hnd]. rewrite IH by assumption.
    rewrite <- insert_union_l. rewrite insert_union_r; [reflexivity|].
    apply not_elem_of_list_to_map_1. exact Hk.
Qed.

Lemma decEntries_fold {V} (dec : Runner.json -> option V)
    (ms : list (string * Runner.json)) (ps : list (string * V)) (acc : gmap string V) :
  Forall2 (fun kv p => Utf8.coerce kv.1 = p.1 /\ dec kv.2 = Some p.2) ms ps ->
  Runner.decEntries dec ms acc = Some (fold_left (fun m p => <[p.1:=p.2]> m) ps acc).
Proof.
  intros H. revert acc. induction H as [|[k j] [k' v] ms ps [Hk Hv] _ IH]; intros acc.
  - reflexivity.
  - cbn in Hk, Hv. subst k'. cbn. rewrite Hv. cbn. apply IH.
Qed.

Lemma decEntries_members {V} (dec : Runner.json -> option V)
    (ms : list (string * Runner.json)) (ps : list (string * V)) (m : gmap string V) :
  Forall2 (fun kv p => Utf8.coerce kv.1 = p.1 /\ dec kv.2 = Some p.2) ms ps ->
  ps ≡ₚ map_to_list m ->
  Runner.decEntries dec ms ∅ = Some m.
Proof.
  intros Hms Hps. rewrite (decEntries_fold dec ms ps ∅ Hms). f_equal.
  rewrite insert_entries.
  - rewrite (right_id_L ∅ (∪)).
    rewrite (list_to_map_proper ps (map_to_list m)); [apply list_to_map_to_list | | exact Hps].
    rewrite Hps. apply NoDup_fst_map_to_list.
  - rewrite Hps. apply NoDup_fst_map_to_list.
Qed.

Lemma sortMembers_Permutation {V} (ms : list (string * V)) :
  Runner.sortMembers ms ≡ₚ ms.
Proof. unfold Runner.sortMembers. apply merge_sort_Permutation. Qed.

(** The entries written for a map are those of the map, in some
    order, each under its key coerced. *)
Lemma encEntries_members {V} (enc : V -> Runner.json) (m : gmap string V) :
  exists ps, ps ≡ₚ map_to_list m
             /\ Runner.encEntries enc m = prod_map Utf8.coerce enc <$> ps.
Proof.
  unfold Runner.encEntries.
  pose proof (sortMembers_Permutation (map_to_list (enc <$> m))) as Hperm.
  rewrite map_to_list_fmap in Hperm at 2.
  apply Permutation_map_inv in Hperm as (ps & Hms & Hps).
  exists ps. split; [symmetry; exact Hps|]. rewrite Hms.
  change (map (prod_map id enc) ps) with (prod_map id enc <$> ps).
  rewrite <- list_fmap_compose. apply list_fmap_ext. intros i [k v] _. reflexivity.
Qed.

Lemma decMap_enc {V} (P : V -> Prop) (dec : Runner.json -> option V)
    (enc : V -> Runner.json) (m : option (gmap string V)) :
  (forall v, P v -> dec (enc v) = Some v) ->
  textMap P m ->
  Runner.decMap dec None (Runner.encMap enc m) = Some m.
Proof.
  intros Hde Hm. destruct m as [m|]; [|reflexivity]. cbn.
  destruct (encEntries_members enc m) as (ps & Hps & ->).
  rewrite (decEntries_members dec _ ps m); [reflexivity | | exact Hps].
  apply Forall2_fmap_l. apply Forall_Forall2_diag. apply Forall_forall.
  intros [k v] Hkv. cbn.
  rewrite Hps in Hkv. apply elem_of_map_to_list in Hkv.
  destruct (Hm k v Hkv) as [Hk Hv]. split.
  - rewrite coerce_idempotent. exact Hk.
  - apply Hde, Hv.
Qed.

(** Induction on documents with the hypothesis for every element of
    an array and every member of an object. *)
Lemma json_nested_ind (P : Runner.json -> Prop) :
  P Runner.JNull ->
  (forall b, P (Runner.JBool b)) ->
  (forall lit, P (Runner.JNum lit)) ->
  (forall s, P (Runner.JStr s)) ->
  (forall elems, Forall P elems -> P (Runner.JArr elems)) ->
  (forall members, Forall (fun kv : string * Runner.json => P kv.2) members ->
                   P (Runner.JObj members)) ->
  forall j, P j.
Proof.
  intros Hnull Hbool Hnum Hstr Harr Hobj. fix IH 1.
  intros [| b | lit | s | elems | members].
  - exact Hnull.
  - apply Hbool.
  - apply Hnum.
  - apply Hstr.
  - apply Harr. revert elems. fix IHl 1. intros [|j elems].
    + constructor.
    + constructor; [apply IH | apply IHl].
  - apply Hobj. revert members. fix IHl 1. intros [|[k j] members].
    + constructor.
    + constructor; [apply IH | apply IHl].
Qed.

Section AnyFacts.

Context (FormatFloat : Runner.float64 -> option string).
Context (ParseFloat : string -> option Runner.float64).
Context (Hfloat : forall f lit, FormatFloat f = Some lit -> ParseFloat lit = Some f).

Lemma decValue_obj members :
  Runner.decValue ParseFloat (Runner.JObj members)
  = Runner.AnyMap <$> Runner.decEntries (Runner.decValue ParseFloat) members ∅.
Proof.
  cbn [Runner.decValue]. f_equal. generalize (∅ : gmap string Runner.any).
  induction members as [|[k v] ms IH]; intros acc; [reflexivity|].
  cbn [Runner.decEntries]. destruct (Runner.decValue ParseFloat v); cbn; [apply IH | reflexivity].
Qed.

Lemma encAny_map m :
  Runner.encAny FormatFloat (Runner.AnyMap m)
  = Runner.JObj <$> Runner.sequenceMembers
                      (Runner.sortMembers (map_to_list (Runner.encAny FormatFloat <$> m))).
Proof. reflexivity. Qed.

Lemma encAny_slice l :
  Runner.encAny FormatFloat (Runner.AnySlice l)
  = Runner.JArr <$> mapM (Runner.encAny FormatFloat) l.
Proof. reflexivity. Qed.

(** What [encAny] writes of a value of well-formed text, [decValue]
    reads back. *)
Lemma decValue_encAny j :
  forall a, textAny a ->
            Runner.encAny FormatFloat a = Some j -> Runner.decValue ParseFloat j = Some a.
Proof.
  induction j as [| b | lit | s | elems IH | members IH] using json_nested_ind;
    intros a Ht Ha;
    (destruct a as [| b' | f | s' | l | m];
     [ cbn in Ha
     | cbn in Ha
     | cbn in Ha; apply fmap_Some in Ha as (lit' & Hf & Heq)
     | cbn in Ha
     | rewrite encAny_slice in Ha; apply fmap_Some in Ha as (js & Hjs & Heq)
     | rewrite encAny_map in Ha; apply fmap_Some in Ha as (ms & Hms & Heq) ];
     try discriminate).
  - reflexivity.
  - injection Ha as ->. reflexivity.
  - injection Heq as ->. cbn. rewrite (Hfloat f lit' Hf). reflexivity.
  - injection Ha as <-. inversion Ht as [| | | s0 Hs | |]; subst. cbn.
    rewrite coerce_idempotent. do 2 f_equal. exact Hs.
  - injection Heq as ->. cbn [Runner.decValue].
    inversion Ht as [| | | | l0 Hl0 |]; subst.
    assert (Hl : mapM (Runner.decValue ParseFloat) js = Some l).
    { apply mapM_Some_2. apply mapM_Some_1 in Hjs. clear -Hjs IH Hl0.
      induction Hjs as [|a j l js Haj _ IHl]; [constructor|].
      apply Forall_cons in IH as [Hj IH]. apply Forall_cons in Hl0 as [Ha Hl0].
      constructor; [apply Hj; [exact Ha | exact Haj] | apply IHl; assumption]. }
    rewrite Hl. reflexivity.
  - injection Heq as ->. rewrite decValue_obj.
    inversion Ht as [| | | | | m0 Hm0]; subst.
    pose proof (sortMembers_Permutation
                  (map_to_list (Runner.encAny FormatFloat <$> m))) as Hperm.
    rewrite map_to_list_fmap in Hperm at 2.
    apply Permutation_map_inv in Hperm as (ps & Hsorted & Hps).
    rewrite Hsorted in Hms.
    change (map (prod_map id (Runner.encAny FormatFloat)) ps)
      with (prod_map id (Runner.encAny FormatFloat) <$> ps) in Hms.
    apply mapM_Some_1, Forall2_fmap_l in Hms.
    rewrite (decEntries_members (Runner.decValue ParseFloat) ms ps m);
      [reflexivity | | symmetry; exact Hps].
    assert (Htext : Forall (fun p => wellFormed p.1 /\ textAny p.2) ps).
    { apply Forall_forall. intros [k a] Hka. apply Hm0.
      apply elem_of_map_to_list. rewrite Hps. exact Hka. }
    clear -Hms IH Htext.
    induction Hms as [|[k a] [k' j] ps ms Hkj _ IHl]; [constructor|].
    apply Forall_cons in IH as [Hj IH]. apply Forall_cons in Htext as [[Hk Hta] Htext].
    cbn in Hkj, Hj, Hk, Hta.
    destruct (Runner.encAny FormatFloat a) as [j0|] eqn:Ea; [|discriminate].
    cbn in Hkj. injection Hkj as <- <-.
    constructor; [split; cbn | apply IHl; assumption].
    + rewrite coerce_idempotent. exact Hk.
    + apply Hj; assumption.
Qed.

Lemma decAny_encAny cur a j :
  textAny a ->
  Runner.encAny FormatFloat a = Some j -> Runner.decAny ParseFloat cur j = Some a.
Proof. apply decValue_encAny. Qed.

End AnyFacts.

Lemma decEnv_enc m :
  textMap wellFormed m ->
  Runner.decMap (Runner.decString EmptyString) None (Runner.encMap Runner.encString m)
  = Some m.
Proof. apply decMap_enc. intros v. apply decString_enc. Qed.

#[local] Hint Resolve decEnv_enc : codec.

Lemma decArtifacts_enc m :
  textMap textArtifact m ->
  Runner.decMap (Runner.decStruct Runner.decodeArtifact Runner.zeroArtifact) None
                (Runner.encMap Runner.encArtifact m)
  = Some m.
Proof. apply decMap_enc. apply decodeArtifact_enc. Qed.

#[local] Hint Resolve decArtifacts_enc : codec.

Section RequestFacts.

Context (FormatFloat : Runner.float64 -> option string).
Context (ParseFloat : string -> option Runner.float64).
Context (Hfloat : forall f lit, FormatFloat f = Some lit -> ParseFloat lit = Some f).

Lemma decodeConfig_enc c j :
  is_int64 (Runner.MessagingSenderId (Runner.Database_ c)) ->
  textConfig c ->
  Runner.encConfig FormatFloat c = Some j ->
  Runner.decStruct (Runner.decodeConfig ParseFloat) (Runner.zeroConfig, []) j
  = Some (c, []).
Proof.
  intros Hs (Hcloud & Hdb & Hfreq & Hlife & Hverb & Henv & Hpip & Hslack) Hj.
  unfold Runner.encConfig in Hj.
  destruct (Runner.encAny FormatFloat (Runner.Cloud c)) as [cloud|] eqn:Ecloud;
    [|discriminate].
  cbn in Hj. injection Hj as <-.
  pose proof (decAny_encAny FormatFloat ParseFloat Hfloat) as Hany.
  unfold Runner.decStruct, Runner.decodeConfig.
  route.
  destruct c; reflexivity.
Qed.

Lemma decFloat64_enc cur f lit :
  FormatFloat f = Some lit ->
  Runner.decFloat64 ParseFloat cur (Runner.JNum lit) = Some f.
Proof. intros H. cbn. apply Hfloat, H. Qed.

Lemma decodeInfo_enc cur :
  Runner.decStruct Runner.decodeInfo cur (Runner.JObj []) = Some cur.
Proof. reflexivity. Qed.

Lemma decodeExperiment_enc e j :
  is_int64 (Runner.PythonVer e) ->
  is_uint (Runner.Cpus (Runner.Resource_ e)) ->
  is_uint (Runner.Gpus (Runner.Resource_ e)) ->
  textExperiment e ->
  Runner.encExperiment FormatFloat e = Some j ->
  Runner.decStruct (Runner.decodeExperiment ParseFloat)
                   (Runner.zeroExperiment, ([], [])) j
  = Some (e, ([], [])).
Proof.
  intros Hv Hc Hg
         (Hargs & Harts & Hfile & Hgit & Hkey & Hmetric & Hproject & Hpy & Hres & Hstatus
          & Hmax & Hfin & Hlast & Hstart) Hj.
  unfold Runner.encExperiment in Hj.
  destruct (Runner.encAny FormatFloat (Runner.Git e)) as [git|] eqn:Egit;
    [|discriminate].
  destruct (Runner.encAny FormatFloat (Runner.Metric e)) as [metric|] eqn:Emetric;
    [|discriminate].
  destruct (Runner.encAny FormatFloat (Runner.Project e)) as [project|] eqn:Eproject;
    [|discriminate].
  destruct (FormatFloat (Runner.TimeAdded e)) as [timeAdded|] eqn:Eadded;
    [|discriminate].
  destruct (Runner.encAny FormatFloat (Runner.TimeFinished e)) as [finished|] eqn:Efinished;
    [|discriminate].
  destruct (Runner.encAny FormatFloat (Runner.TimeLastCheckpoint e)) as [lastc|] eqn:Elast;
    [|discriminate].
  destruct (Runner.encAny FormatFloat (Runner.TimeStarted e)) as [started|] eqn:Estarted;
    [|discriminate].
  cbn in Hj. injection Hj as <-.
  pose proof (decAny_encAny FormatFloat ParseFloat Hfloat) as Hany.
  pose proof decFloat64_enc as Hflt.
  unfold Runner.decStruct, Runner.decodeExperiment.
  route.
  destruct e as [? ? ? ? [] ? ? ? ? ? ? ? ? ? ? ? ?]; reflexivity.
Qed.

End RequestFacts.

(** *** What a decoded request holds is well-formed text *)

Lemma field_inv {T} (P : T -> Prop) (dec : T -> Runner.json -> option T) tag ms cur x :
  P cur ->
  (forall c j y, P c -> dec c j = Some y -> P y) ->
  Runner.field dec tag ms cur = Some x -> P x.
Proof.
  intros Hcur Hdec. unfold Runner.field.
  assert (Hacc : forall c, Some cur = Some c -> P c) by (intros c [= <-]; exact Hcur).
  revert Hacc. generalize (Some cur) as acc.
  induction ms as [|[k v] ms IH]; intros acc Hacc Hx; cbn [fold_left fst snd] in Hx.
  - apply Hacc, Hx.
  - apply (IH (if Runner.fieldIs tag (Utf8.coerce k)
               then acc ≫= (fun cur => dec cur v) else acc));
      [|exact Hx].
    intros c Hc. destruct (Runner.fieldIs tag (Utf8.coerce k)); [|apply Hacc, Hc].
    destruct acc as [c0|]; [|discriminate]. cbn in Hc.
    apply (Hdec c0 v c); [apply Hacc; reflexivity | exact Hc].
Qed.

Lemma decStruct_inv {T} (P : T -> Prop) (decode : T -> list (string * Runner.json) -> option T)
    c j y :
  (forall c ms y, P c -> decode c ms = Some y -> P y) ->
  P c -> Runner.decStruct decode c j = Some y -> P y.
Proof.
  intros Hdecode Hc. destruct j; try discriminate; cbn.
  - intros [= <-]. exact Hc.
  - apply Hdecode, Hc.
Qed.

(** A conjunction, conjunct by conjunct. *)
Ltac conjuncts := repeat match goal with |- _ /\ _ => split end.

(** The property [P] of a field is kept by the members routed to it. *)
Ltac kept :=
  match goal with
  | H : Runner.field ?dec ?tag ?ms ?cur = Some ?x |- ?P ?x =>
      apply (field_inv P dec tag ms cur x); [ assumption | | exact H ]
  end.

Lemma decString_text c j y : wellFormed c -> Runner.decString c j = Some y -> wellFormed y.
Proof.
  intros Hc. destruct j; try discriminate; cbn.
  - intros [= <-]. exact Hc.
  - intros [= <-]. apply wellFormed_coerce.
Qed.

Lemma decEntries_text {V} (P : V -> Prop) (dec : Runner.json -> option V) ms :
  Forall (fun kv : string * Runner.json => forall x, dec kv.2 = Some x -> P x) ms ->
  forall acc m,
    (forall k v, acc !! k = Some v -> wellFormed k /\ P v) ->
    Runner.decEntries dec ms acc = Some m ->
    forall k v, m !! k = Some v -> wellFormed k /\ P v.
Proof.
  induction 1 as [|[k0 j] ms Hj _ IH]; intros acc m Hacc Hm; cbn in Hm.
  - injection Hm as <-. exact Hacc.
  - apply bind_Some in Hm as (x & Hx & Hm). refine (IH _ _ _ Hm).
    intros k v Hkv.
    destruct (decide (k = Utf8.coerce k0)) as [->|Hne].
    + rewrite lookup_insert_eq in Hkv. injection Hkv as <-.
      split; [apply wellFormed_coerce | apply Hj, Hx].
    + rewrite lookup_insert_ne in Hkv by congruence. apply Hacc, Hkv.
Qed.

Lemma decMap_text {V} (P : V -> Prop) (dec : Runner.json -> option V) c j y :
  (forall j x, dec j = Some x -> P x) ->
  textMap P c -> Runner.decMap dec c j = Some y -> textMap P y.
Proof.
  intros Hdec Hc. destruct j as [| | | | | ms]; try discriminate; cbn.
  - intros [= <-]. intros k v Hkv. cbn in Hkv. rewrite lookup_empty in Hkv. discriminate.
  - intros Hy. apply fmap_Some in Hy as (m & Hm & ->). unfold textMap. cbn [default].
    apply (decEntries_text P dec ms) with (acc := default ∅ c); [|exact Hc | exact Hm].
    apply Forall_forall. intros kv _. apply Hdec.
Qed.

Lemma decValue_text ParseFloat j :
  forall a, Runner.decValue ParseFloat j = Some a -> textAny a.
Proof.
  induction j as [| b | lit | s | elems IH | members IH] using json_nested_ind; intros a Ha.
  - injection Ha as <-. constructor.
  - injection Ha as <-. constructor.
  - cbn in Ha. apply fmap_Some in Ha as (f & _ & ->). constructor.
  - injection Ha as <-. constructor. apply wellFormed_coerce.
  - cbn [Runner.decValue] in Ha. apply fmap_Some in Ha as (l & Hl & ->). constructor.
    apply mapM_Some_1 in Hl. clear -Hl IH.
    induction Hl as [|j a js l Hja _ IHl]; [constructor|].
    apply Forall_cons in IH as [Hj IH]. constructor; [apply Hj, Hja | apply IHl, IH].
  - rewrite decValue_obj in Ha. apply fmap_Some in Ha as (m & Hm & ->). constructor.
    apply (decEntries_text textAny (Runner.decValue ParseFloat) members IH ∅ m);
      [|exact Hm].
    intros k v Hkv. rewrite lookup_empty in Hkv. discriminate.
Qed.

Lemma decAny_text ParseFloat c j y :
  textAny c -> Runner.decAny ParseFloat c j = Some y -> textAny y.
Proof. intros _. apply decValue_text. Qed.

Lemma decElems_text elems :
  forall backing l,
    Forall wellFormed backing ->
    Runner.decElems backing elems = Some l -> Forall wellFormed l.
Proof.
  induction elems as [|j elems IH]; intros backing l Hb Hl; cbn in Hl.
  - injection Hl as <-. constructor.
  - apply bind_Some in Hl as (x & Hx & Hl). apply bind_Some in Hl as (xs & Hxs & Hl).
    injection Hl as <-. constructor.
    + apply (decString_text (hd EmptyString backing) j x); [|exact Hx].
      destruct Hb; [reflexivity | assumption].
    + apply (IH (tl backing) xs); [|exact Hxs]. destruct Hb; [constructor | assumption].
Qed.

(** A slice and what lies behind it in its backing array. *)
Lemma decStrings_text c j y :
  textStrings c.1 /\ Forall wellFormed c.2 ->
  Runner.decStrings c j = Some y ->
  textStrings y.1 /\ Forall wellFormed y.2.
Proof.
  intros [Hc1 Hc2]. unfold textStrings in *.
  destruct j as [| | | | elems |]; try discriminate; cbn [Runner.decStrings].
  - intros [= <-]. split; constructor.
  - destruct elems as [|j elems]; [intros [= <-]; split; constructor|].
    intros Hy. apply bind_Some in Hy as (l & Hl & Hy). injection Hy as <-.
    assert (Hb : Forall wellFormed (default [] c.1 ++ c.2))
      by (apply Forall_app; split; assumption).
    split.
    + apply (decElems_text _ _ _ Hb Hl).
    + apply Forall_drop, Hb.
Qed.

Lemma decodeResource_text c ms y :
  textResource c -> Runner.decodeResource c ms = Some y -> textResource y.
Proof.
  intros (Hh & Hr & Hm) H. unfold Runner.decodeResource in H.
  apply bind_Some in H as (cpus & _ & H).
  apply bind_Some in H as (gpus & _ & H).
  apply bind_Some in H as (hdd & Hhdd & H).
  apply bind_Some in H as (ram & Hram & H).
  apply bind_Some in H as (gpuMem & HgpuMem & H).
  injection H as <-. unfold textResource. cbn.
  conjuncts; kept; exact decString_text.
Qed.

Lemma decodeRunnerCustom_text c ms y :
  wellFormed (Runner.SlackDest c) ->
  Runner.decodeRunnerCustom c ms = Some y -> wellFormed (Runner.SlackDest y).
Proof.
  intros Hs H. unfold Runner.decodeRunnerCustom in H.
  apply bind_Some in H as (slack & Hslack & H).
  injection H as <-. cbn. kept. exact decString_text.
Qed.

Lemma decodeDatabase_text c ms y :
  textDatabase c -> Runner.decodeDatabase c ms = Some y -> textDatabase y.
Proof.
  intros (Ha & Hd & Hu & Hp & Hb & Ht) H. unfold Runner.decodeDatabase in H.
  apply bind_Some in H as (apiKey & HapiKey & H).
  apply bind_Some in H as (authDomain & HauthDomain & H).
  apply bind_Some in H as (databaseURL & HdatabaseURL & H).
  apply bind_Some in H as (sender & _ & H).
  apply bind_Some in H as (projectId & HprojectId & H).
  apply bind_Some in H as (bucket & Hbucket & H).
  apply bind_Some in H as (type & Htype & H).
  apply bind_Some in H as (emailAuth & _ & H).
  injection H as <-. unfold textDatabase. cbn.
  conjuncts; kept; exact decString_text.
Qed.

Lemma decodeArtifact_text c ms y :
  textArtifact c -> Runner.decodeArtifact c ms = Some y -> textArtifact y.
Proof.
  intros (Hb & Hk & Hh & Hl & Hq) H. unfold Runner.decodeArtifact in H.
  apply bind_Some in H as (bucket & Hbucket & H).
  apply bind_Some in H as (key & Hkey & H).
  apply bind_Some in H as (hash & Hhash & H).
  apply bind_Some in H as (loc & Hloc & H).
  apply bind_Some in H as (mutable & _ & H).
  apply bind_Some in H as (unpack & _ & H).
  apply bind_Some in H as (qualified & Hqualified & H).
  injection H as <-. unfold textArtifact. cbn.
  conjuncts; kept; exact decString_text.
Qed.

Lemma decArtifact_text j a :
  Runner.decStruct Runner.decodeArtifact Runner.zeroArtifact j = Some a -> textArtifact a.
Proof.
  apply decStruct_inv; [exact decodeArtifact_text|].
  unfold textArtifact. cbn. repeat split; reflexivity.
Qed.

Lemma decodeConfig_text ParseFloat c ms y :
  textConfig c.1 /\ Forall wellFormed c.2 ->
  Runner.decodeConfig ParseFloat c ms = Some y ->
  textConfig y.1 /\ Forall wellFormed y.2.
Proof.
  intros [(Hcloud & Hdb & Hfreq & Hlife & Hverb & Henv & Hpip & Hslack) Hback] H.
  unfold Runner.decodeConfig in H.
  apply bind_Some in H as (cloud & Ecloud & H).
  apply bind_Some in H as (database & Edatabase & H).
  apply bind_Some in H as (freq & Efreq & H).
  apply bind_Some in H as (lifetime & Elifetime & H).
  apply bind_Some in H as (verbose & Everbose & H).
  apply bind_Some in H as (env & Eenv & H).
  apply bind_Some in H as (pip & Epip & H).
  apply bind_Some in H as (runner & Erunner & H).
  injection H as <-. unfold textConfig. cbn [fst snd Runner.Cloud Runner.Database_
    Runner.SaveWorkspaceFrequency Runner.Lifetime Runner.Verbose Runner.Env Runner.Pip
    Runner.Runner].
  assert (Hp : textStrings pip.1 /\ Forall wellFormed pip.2).
  { revert Epip.
    apply (field_inv (fun p => textStrings p.1 /\ Forall wellFormed p.2));
      [split; assumption | exact decStrings_text]. }
  destruct Hp as [Hp1 Hp2].
  conjuncts; try assumption.
  - kept. exact (decAny_text ParseFloat).
  - kept. intros c0 j y0. apply decStruct_inv. exact decodeDatabase_text.
  - kept. exact decString_text.
  - kept. exact decString_text.
  - kept. exact decString_text.
  - kept. intros c0 j y0. apply decMap_text. intros j0 x. apply decString_text. reflexivity.
  - revert Erunner. apply (field_inv (fun r => wellFormed (Runner.SlackDest r)));
      [assumption|].
    intros c0 j y0. apply (decStruct_inv (fun r => wellFormed (Runner.SlackDest r))).
    exact decodeRunnerCustom_text.
Qed.

Lemma decodeExperiment_text ParseFloat c ms y :
  textExperiment c.1 /\ Forall wellFormed c.2.1 /\ Forall wellFormed c.2.2 ->
  Runner.decodeExperiment ParseFloat c ms = Some y ->
  textExperiment y.1 /\ Forall wellFormed y.2.1 /\ Forall wellFormed y.2.2.
Proof.
  intros ((Hargs & Harts & Hfile & Hgit & Hkey & Hmetric & Hproject & Hpy & Hres & Hstatus
           & Hmax & Hfin & Hlast & Hstart) & Hback1 & Hback2) H.
  unfold Runner.decodeExperiment in H.
  apply bind_Some in H as (args & Eargs & H).
  apply bind_Some in H as (artifacts & Eartifacts & H).
  apply bind_Some in H as (filename & Efilename & H).
  apply bind_Some in H as (git & Egit & H).
  apply bind_Some in H as (info & _ & H).
  apply bind_Some in H as (key & Ekey & H).
  apply bind_Some in H as (metric & Emetric & H).
  apply bind_Some in H as (project & Eproject & H).
  apply bind_Some in H as (pythonenv & Epythonenv & H).
  apply bind_Some in H as (pythonver & _ & H).
  apply bind_Some in H as (resource & Eresource & H).
  apply bind_Some in H as (status & Estatus & H).
  apply bind_Some in H as (timeAdded & _ & H).
  apply bind_Some in H as (maxDuration & EmaxDuration & H).
  apply bind_Some in H as (timeFinished & EtimeFinished & H).
  apply bind_Some in H as (timeLast & EtimeLast & H).
  apply bind_Some in H as (timeStarted & EtimeStarted & H).
  injection H as <-. unfold textExperiment. cbn [fst snd Runner.Args Runner.Artifacts
    Runner.Filename Runner.Git Runner.Key Runner.Metric Runner.Project Runner.Pythonenv
    Runner.Resource_ Runner.Status Runner.MaxDuration Runner.TimeFinished
    Runner.TimeLastCheckpoint Runner.TimeStarted].
  assert (Ha : textStrings args.1 /\ Forall wellFormed args.2).
  { revert Eargs.
    apply (field_inv (fun p => textStrings p.1 /\ Forall wellFormed p.2));
      [split; assumption | exact decStrings_text]. }
  assert (Hp : textStrings pythonenv.1 /\ Forall wellFormed pythonenv.2).
  { revert Epythonenv.
    apply (field_inv (fun p => textStrings p.1 /\ Forall wellFormed p.2));
      [split; assumption | exact decStrings_text]. }
  destruct Ha as [Ha1 Ha2], Hp as [Hp1 Hp2].
  conjuncts; try assumption.
  - kept. intros c0 j y0. apply decMap_text. exact decArtifact_text.
  - kept. exact decString_text.
  - kept. exact (decAny_text ParseFloat).
  - kept. exact decString_text.
  - kept. exact (decAny_text ParseFloat).
  - kept. exact (decAny_text ParseFloat).
  - kept. intros c0 j y0. apply decStruct_inv. exact decodeResource_text.
  - kept. exact decString_text.
  - kept. exact decString_text.
  - kept. exact (decAny_text ParseFloat).
  - kept. exact (decAny_text ParseFloat).
  - kept. exact (decAny_text ParseFloat).
Qed.

Lemma textRequest_zero : textRequest Runner.zeroRequest.
Proof.
  unfold textRequest, textConfig, textExperiment, textDatabase, textResource, textStrings,
    textMap. cbn.
  conjuncts;
    first [ reflexivity | exact text_nil | solve [constructor]
          | intros k v Hkv; rewrite lookup_empty in Hkv; discriminate ].
Qed.

(** The text of a request [UnmarshalRequest] has returned is
    well-formed UTF-8. *)
Lemma UnmarshalRequest_text ParseFloat doc r :
  Runner.UnmarshalRequest ParseFloat doc = Some r -> textRequest r.
Proof.
  unfold Runner.UnmarshalRequest. apply decStruct_inv; [|exact textRequest_zero].
  clear. intros c ms y [Hc He] H. unfold Runner.decodeRequest in H.
  apply bind_Some in H as (config & Hconfig & H).
  apply bind_Some in H as (experiment & Hexperiment & H).
  injection H as <-. unfold textRequest. cbn [Runner.Config_ Runner.Experiment_]. split.
  - assert (Hp : textConfig config.1 /\ Forall wellFormed config.2); [|apply Hp].
    revert Hconfig.
    apply (field_inv (fun p => textConfig p.1 /\ Forall wellFormed p.2));
      [split; [exact Hc | constructor]|].
    intros c0 j y0.
    apply (decStruct_inv (fun p => textConfig p.1 /\ Forall wellFormed p.2)).
    exact (decodeConfig_text ParseFloat).
  - assert (Hp : textExperiment experiment.1
                 /\ Forall wellFormed experiment.2.1 /\ Forall wellFormed experiment.2.2);
      [|apply Hp].
    revert Hexperiment.
    apply (field_inv (fun p => textExperiment p.1 /\ Forall wellFormed p.2.1
                               /\ Forall wellFormed p.2.2));
      [split; [exact He | split; constructor]|].
    intros c0 j y0.
    apply (decStruct_inv (fun p => textExperiment p.1 /\ Forall wellFormed p.2.1
                                   /\ Forall wellFormed p.2.2)).
    exact (decodeExperiment_text ParseFloat).
Qed.

(** *** The integers of a decoded request are within their types *)

Lemma ParseInt_is_int64 lit z : Runner.ParseInt lit = Some z -> is_int64 z.
Proof.
  unfold Runner.ParseInt, is_int64. intros H.
  apply bind_Some in H as (d & _ & H).
  destruct (- 2 ^ 63 <=? Z.of_int d) eqn:Hlo; [|discriminate].
  destruct (Z.of_int d <? 2 ^ 63) eqn:Hhi; [|discriminate].
  cbn in H. injection H as <-.
  apply Z.leb_le in Hlo. apply Z.ltb_lt in Hhi. split; assumption.
Qed.

Lemma ParseUint_is_uint lit n : Runner.ParseUint lit = Some n -> is_uint n.
Proof.
  unfold Runner.ParseUint, is_uint. intros H.
  apply bind_Some in H as (d & _ & H).
  destruct (N.of_uint d <? 2 ^ 64)%N eqn:Hhi; [|discriminate].
  injection H as <-. apply N.ltb_lt in Hhi. exact Hhi.
Qed.

Lemma decInt64_valid c j y : is_int64 c -> Runner.decInt64 c j = Some y -> is_int64 y.
Proof.
  intros Hc. destruct j; try discriminate; cbn.
  - intros [= <-]. exact Hc.
  - apply ParseInt_is_int64.
Qed.

Lemma decUint_valid c j y : is_uint c -> Runner.decUint c j = Some y -> is_uint y.
Proof.
  intros Hc. destruct j; try discriminate; cbn.
  - intros [= <-]. exact Hc.
  - apply ParseUint_is_uint.
Qed.

Lemma decodeDatabase_valid c ms y :
  is_int64 (Runner.MessagingSenderId c) ->
  Runner.decodeDatabase c ms = Some y -> is_int64 (Runner.MessagingSenderId y).
Proof.
  intros Hc H. unfold Runner.decodeDatabase in H.
  apply bind_Some in H as (apiKey & _ & H).
  apply bind_Some in H as (authDomain & _ & H).
  apply bind_Some in H as (databaseURL & _ & H).
  apply bind_Some in H as (sender & Hsender & H).
  apply bind_Some in H as (projectId & _ & H).
  apply bind_Some in H as (bucket & _ & H).
  apply bind_Some in H as (type & _ & H).
  apply bind_Some in H as (emailAuth & _ & H).
  injection H as <-. cbn.
  apply (field_inv is_int64 _ _ _ _ _ Hc decInt64_valid Hsender).
Qed.

Lemma decodeResource_valid c ms y :
  is_uint (Runner.Cpus c) /\ is_uint (Runner.Gpus c) ->
  Runner.decodeResource c ms = Some y ->
  is_uint (Runner.Cpus y) /\ is_uint (Runner.Gpus y).
Proof.
  intros [Hc Hg] H. unfold Runner.decodeResource in H.
  apply bind_Some in H as (cpus & Hcpus & H).
  apply bind_Some in H as (gpus & Hgpus & H).
  apply bind_Some in H as (hdd & _ & H).
  apply bind_Some in H as (ram & _ & H).
  apply bind_Some in H as (gpuMem & _ & H).
  injection H as <-. cbn. split.
  - apply (field_inv is_uint _ _ _ _ _ Hc decUint_valid Hcpus).
  - apply (field_inv is_uint _ _ _ _ _ Hg decUint_valid Hgpus).
Qed.

Lemma decodeConfig_valid ParseFloat c ms y :
  is_int64 (Runner.MessagingSenderId (Runner.Database_ c.1)) ->
  Runner.decodeConfig ParseFloat c ms = Some y ->
  is_int64 (Runner.MessagingSenderId (Runner.Database_ y.1)).
Proof.
  intros Hc H. unfold Runner.decodeConfig in H.
  apply bind_Some in H as (cloud & _ & H).
  apply bind_Some in H as (database & Hdatabase & H).
  apply bind_Some in H as (freq & _ & H).
  apply bind_Some in H as (lifetime & _ & H).
  apply bind_Some in H as (verbose & _ & H).
  apply bind_Some in H as (env & _ & H).
  apply bind_Some in H as (pip & _ & H).
  apply bind_Some in H as (runner & _ & H).
  injection H as <-. cbn.
  apply (field_inv (fun d => is_int64 (Runner.MessagingSenderId d)) _ _ _ _ _ Hc
           (fun c j y => decStruct_inv _ _ c j y decodeDatabase_valid) Hdatabase).
Qed.

Lemma decodeExperiment_valid ParseFloat c ms y :
  is_int64 (Runner.PythonVer c.1)
  /\ is_uint (Runner.Cpus (Runner.Resource_ c.1))
  /\ is_uint (Runner.Gpus (Runner.Resource_ c.1)) ->
  Runner.decodeExperiment ParseFloat c ms = Some y ->
  is_int64 (Runner.PythonVer y.1)
  /\ is_uint (Runner.Cpus (Runner.Resource_ y.1))
  /\ is_uint (Runner.Gpus (Runner.Resource_ y.1)).
Proof.
  intros (Hv & Hr) H. unfold Runner.decodeExperiment in H.
  apply bind_Some in H as (args & _ & H).
  apply bind_Some in H as (artifacts & _ & H).
  apply bind_Some in H as (filename & _ & H).
  apply bind_Some in H as (git & _ & H).
  apply bind_Some in H as (info & _ & H).
  apply bind_Some in H as (key & _ & H).
  apply bind_Some in H as (metric & _ & H).
  apply bind_Some in H as (project & _ & H).
  apply bind_Some in H as (pythonenv & _ & H).
  apply bind_Some in H as (pythonver & Hpythonver & H).
  apply bind_Some in H as (resource & Hresource & H).
  apply bind_Some in H as (status & _ & H).
  apply bind_Some in H as (timeAdded & _ & H).
  apply bind_Some in H as (maxDuration & _ & H).
  apply bind_Some in H as (timeFinished & _ & H).
  apply bind_Some in H as (timeLast & _ & H).
  apply bind_Some in H as (timeStarted & _ & H).
  injection H as <-. cbn. split.
  - apply (field_inv is_int64 _ _ _ _ _ Hv decInt64_valid Hpythonver).
  - apply (field_inv (fun r => is_uint (Runner.Cpus r) /\ is_uint (Runner.Gpus r))
             _ _ _ _ _ Hr
             (fun c j y => decStruct_inv _ _ c j y decodeResource_valid) Hresource).
Qed.

Lemma UnmarshalRequest_valid ParseFloat doc r :
  Runner.UnmarshalRequest ParseFloat doc = Some r -> validRequest r.
Proof.
  unfold Runner.UnmarshalRequest. intros H.
  assert (Hzero : validRequest Runner.zeroRequest).
  { unfold validRequest, is_int64, is_uint. cbn. repeat split; lia. }
  revert H. apply decStruct_inv; [|exact Hzero].
  clear. intros c ms y (Hs & Hv & Hc & Hg) H. unfold Runner.decodeRequest in H.
  apply bind_Some in H as (config & Hconfig & H).
  apply bind_Some in H as (experiment & Hexperiment & H).
  injection H as <-. unfold validRequest. cbn.
  split.
  - apply (field_inv (fun c => is_int64 (Runner.MessagingSenderId (Runner.Database_ c.1)))
             _ _ _ (Runner.Config_ c, []) _ Hs
             (fun c j y => decStruct_inv _ _ c j y (decodeConfig_valid ParseFloat))
             Hconfig).
  - apply (field_inv (fun e => is_int64 (Runner.PythonVer e.1)
                               /\ is_uint (Runner.Cpus (Runner.Resource_ e.1))
                               /\ is_uint (Runner.Gpus (Runner.Resource_ e.1)))
             _ _ _ (Runner.Experiment_ c, ([], [])) _ (conj Hv (conj Hc Hg))
             (fun c j y => decStruct_inv _ _ c j y (decodeExperiment_valid ParseFloat))
             Hexperiment).
Qed.

(** *** The names a written document has *)

Lemma encConfig_names FormatFloat c j :
  Runner.encConfig FormatFloat c = Some j ->
  memberNames j = ["cloud"; "database"; "saveWorkspaceFrequency"; "experimentLifetime";
                   "verbose"; "env"; "pip"; "runner"]%string
  /\ member "database" j = Some (Runner.encDatabase (Runner.Database_ c))
  /\ member "runner" j = Some (Runner.encRunnerCustom (Runner.Runner c)).
Proof.
  intros Hj. unfold Runner.encConfig in Hj.
  destruct (Runner.encAny FormatFloat (Runner.Cloud c)); [|discriminate].
  cbn in Hj. injection Hj as <-. repeat split; reflexivity.
Qed.

Lemma encExperiment_names FormatFloat e j :
  Runner.encExperiment FormatFloat e = Some j ->
  memberNames j = ["args"; "artifacts"; "filename"; "git"; "info"; "key"; "metric";
                   "project"; "pythonenv"; "pythonver"; "resources_needed"; "status";
                   "time_added"; "max_duration"; "time_finished";
                   "time_last_checkpoint"; "time_started"]%string
  /\ member "info" j = Some (Runner.JObj [])
  /\ member "resources_needed" j = Some (Runner.encResource (Runner.Resource_ e))
  /\ member "artifacts" j = Some (Runner.encMap Runner.encArtifact (Runner.Artifacts e)).
Proof.
  intros Hj. unfold Runner.encExperiment in Hj.
  destruct (Runner.encAny FormatFloat (Runner.Git e)); [|discriminate].
  destruct (Runner.encAny FormatFloat (Runner.Metric e)); [|discriminate].
  destruct (Runner.encAny FormatFloat (Runner.Project e)); [|discriminate].
  destruct (FormatFloat (Runner.TimeAdded e)); [|discriminate].
  destruct (Runner.encAny FormatFloat (Runner.TimeFinished e)); [|discriminate].
  destruct (Runner.encAny FormatFloat (Runner.TimeLastCheckpoint e)); [|discriminate].
  destruct (Runner.encAny FormatFloat (Runner.TimeStarted e)); [|discriminate].
  cbn in Hj. injection Hj as <-. repeat split; reflexivity.
Qed.

Lemma encArtifact_names a :
  memberNames (Runner.encArtifact a)
  ⊆ ["bucket"; "key"; "hash"; "local"; "mutable"; "unpack"; "qualified"]%string.
Proof.
  unfold Runner.encArtifact.
  destruct (omitempty_eq "hash" (Runner.Hash a)) as [[_ ->] | ->];
    destruct (omitempty_eq "local" (Runner.Local_ a)) as [[_ ->] | ->];
    intros n Hn; cbn in Hn;
    repeat (apply elem_of_cons in Hn as [->|Hn]; [solve [repeat constructor]|]);
    apply elem_of_nil in Hn; contradiction.
Qed.

Lemma encMap_values {V} (enc : V -> Runner.json) (m : option (gmap string V)) j :
  j ∈ memberValues (Runner.encMap enc m) -> exists x, j = enc x.
Proof.
  destruct m as [m|]; cbn; [|intros H; inversion H].
  destruct (encEntries_members enc m) as (ps & _ & ->).
  rewrite <- list_fmap_compose. intros H.
  apply list_elem_of_fmap in H as ([k x] & -> & _). exists x. reflexivity.
Qed.

(** The zero-only float texts read back what they write. *)
Lemma ParseZero_FormatZero f lit : FormatZero f = Some lit -> ParseZero lit = Some f.
Proof.
  destruct f as [[|] | | |]; cbn; intros H; try discriminate.
  injection H as <-. reflexivity.
Qed.

(** C5, as stated: keys of a message that the scheduler does not know
    survive parsing and serializing. Of [message0], [trace_id] beside
    [config] and [experiment] and [owner] under [info] are gone from
    what is written back; [zone] under the untyped [cloud] is kept. *)
Lemma unknown_keys_dropped :
  exists r out e c,
    Runner.UnmarshalRequest ParseZero message0 = Some r
    /\ Runner.Marshal FormatZero r = Some out
    /\ member "trace_id" message0 = Some (Runner.JStr "abc")
    /\ member "trace_id" out = None
    /\ memberNames out = ["config"; "experiment"]%string
    /\ member "experiment" out = Some e
    /\ member "info" e = Some (Runner.JObj [])
    /\ member "config" out = Some c
    /\ member "cloud" c
       = Some (Runner.JObj [("zone"%string, Runner.JStr "us-east")])
    /\ out <> message0.
Proof.
  do 4 eexists. repeat (split; [vm_compute; reflexivity|]).
  vm_compute. discriminate.
Qed.

(** Text that is no UTF-8 is not read back: for the byte 255 of the
    key of [request2], [Marshal] writes the replacement character. *)
Lemma Marshal_replaces_invalid_text :
  exists doc r,
    validRequest request2
    /\ Runner.Marshal FormatZero request2 = Some doc
    /\ Runner.UnmarshalRequest ParseZero doc = Some r
    /\ Runner.Key (Runner.Experiment_ r)
       = String "239" (String "191" (String "189" EmptyString))
    /\ r <> request2.
Proof.
  do 2 eexists. split.
  { unfold validRequest, is_int64, is_uint. vm_compute. repeat split; discriminate. }
  repeat (split; [vm_compute; reflexivity|]).
  vm_compute. discriminate.
Qed.

(** C5, amended. A request is valid when its integers are within
    their Go types and its text is well-formed UTF-8, its
    interface-typed fields holding what [json.Unmarshal] produces.
    Unmarshalling what [Marshal] wrote for a valid request gives the
    request back, maps compared as maps: so the entries of the maps
    [env] and [artifacts] and what stands under the interface-typed
    fields, which are part of the request, are carried. Every request
    [UnmarshalRequest] returns is valid. And whatever request it is
    written for, the document [Marshal] writes has the names its
    structs declare and no other: [config] and [experiment], under
    them the fields of the configuration, of its database and of its
    runner, and the fields of the experiment and of its resources, and
    under an artifact none but the fields of an artifact; and [info]
    is written empty. So a key no struct declares, at the top or
    directly under a struct, is not kept by a parse followed by a
    serialization. *)
Theorem Marshal_Unmarshal_roundtrip
    (FormatFloat : Runner.float64 -> option string)
    (ParseFloat : string -> option Runner.float64) :
  (forall f lit, FormatFloat f = Some lit -> ParseFloat lit = Some f) ->
  (forall r doc,
     validRequest r -> textRequest r ->
     Runner.Marshal FormatFloat r = Some doc ->
     Runner.UnmarshalRequest ParseFloat doc = Some r)
  /\ (forall message r,
        Runner.UnmarshalRequest ParseFloat message = Some r ->
        validRequest r /\ textRequest r)
  /\ (forall r doc,
        Runner.Marshal FormatFloat r = Some doc ->
        memberNames doc = ["config"; "experiment"]%string
        /\ (exists c d rn,
              member "config" doc = Some c
              /\ memberNames c
                 = ["cloud"; "database"; "saveWorkspaceFrequency"; "experimentLifetime";
                    "verbose"; "env"; "pip"; "runner"]%string
              /\ member "database" c = Some d
              /\ memberNames d
                 = ["apiKey"; "authDomain"; "databaseURL"; "messagingSenderId";
                    "projectId"; "storageBucket"; "type"; "use_email_auth"]%string
              /\ member "runner" c = Some rn
              /\ memberNames rn = ["slack_destination"]%string)
        /\ (exists e rs arts,
              member "experiment" doc = Some e
              /\ memberNames e
                 = ["args"; "artifacts"; "filename"; "git"; "info"; "key"; "metric";
                    "project"; "pythonenv"; "pythonver"; "resources_needed"; "status";
                    "time_added"; "max_duration"; "time_finished";
                    "time_last_checkpoint"; "time_started"]%string
              /\ member "info" e = Some (Runner.JObj [])
              /\ member "resources_needed" e = Some rs
              /\ memberNames rs = ["cpus"; "gpus"; "hdd"; "ram"; "gpuMem"]%string
              /\ member "artifacts" e = Some arts
              /\ (forall a, a ∈ memberValues arts ->
                            memberNames a
                            ⊆ ["bucket"; "key"; "hash"; "local"; "mutable"; "unpack";
                               "qualified"]%string))).
Proof.
  intros Hfloat. split; [|split].
  - intros r doc (Hs & Hv & Hc & Hg) (Htc & Hte) Hdoc. unfold Runner.Marshal in Hdoc.
    destruct (Runner.encConfig FormatFloat (Runner.Config_ r)) as [config|] eqn:Econfig;
      [|discriminate].
    destruct (Runner.encExperiment FormatFloat (Runner.Experiment_ r)) as [experiment|]
      eqn:Eexperiment; [|discriminate].
    cbn in Hdoc. injection Hdoc as <-.
    pose proof (decodeConfig_enc FormatFloat ParseFloat Hfloat _ _ Hs Htc Econfig) as Hcfg.
    pose proof (decodeExperiment_enc FormatFloat ParseFloat Hfloat _ _ Hv Hc Hg Hte
                  Eexperiment) as Hexp.
    unfold Runner.UnmarshalRequest, Runner.decStruct at 1, Runner.decodeRequest.
    route. destruct r; reflexivity.
  - intros message r Hr. split.
    + apply (UnmarshalRequest_valid ParseFloat message r Hr).
    + apply (UnmarshalRequest_text ParseFloat message r Hr).
  - intros r doc Hdoc. unfold Runner.Marshal in Hdoc.
    destruct (Runner.encConfig FormatFloat (Runner.Config_ r)) as [config|] eqn:Econfig;
      [|discriminate].
    destruct (Runner.encExperiment FormatFloat (Runner.Experiment_ r)) as [experiment|]
      eqn:Eexperiment; [|discriminate].
    cbn in Hdoc. injection Hdoc as <-.
    split; [reflexivity|split].
    + destruct (encConfig_names FormatFloat _ _ Econfig) as (Hnames & Hdb & Hrn).
      exists config, (Runner.encDatabase (Runner.Database_ (Runner.Config_ r))),
        (Runner.encRunnerCustom (Runner.Runner (Runner.Config_ r))).
      repeat split; assumption || reflexivity.
    + destruct (encExperiment_names FormatFloat _ _ Eexperiment)
        as (Hnames & Hinfo & Hrs & Harts).
      exists experiment, (Runner.encResource (Runner.Resource_ (Runner.Experiment_ r))),
        (Runner.encMap Runner.encArtifact (Runner.Artifacts (Runner.Experiment_ r))).
      split; [reflexivity|]. split; [exact Hnames|]. split; [exact Hinfo|].
      split; [exact Hrs|]. split; [reflexivity|]. split; [exact Harts|].
      intros a Ha. apply encMap_values in Ha as (x & ->). apply encArtifact_names.
Qed.

Lemma Marshal_Unmarshal_roundtrip_witness :
  exists doc,
    Runner.Marshal FormatZero request1 = Some doc
    /\ Runner.UnmarshalRequest ParseZero doc = Some request1.
Proof.
  destruct (Marshal_Unmarshal_roundtrip FormatZero ParseZero ParseZero_FormatZero)
    as (Hback & Hread & _).
  destruct (Hread message0 request1 eq_refl) as [Hvalid Htext].
  eexists. split; [vm_compute; reflexivity|].
  apply (Hback request1 _ Hvalid Htext). vm_compute. reflexivity.
Defined.

(** * Further properties of the code *)

(** ** The disk ledger, further *)

Lemma u64_add_sub a s : is_u64 a -> u64_sub (u64_add a s) s = a.
Proof.
  unfold is_u64, u64_sub, u64_add, wrap64, u64_modulus. intros Ha.
  rewrite Zminus_mod_idemp_l. replace (a + s - s) with a by lia.
  apply Z.mod_small. exact Ha.
Qed.

(** X1. Releasing a reservation [AllocDisk] has just granted puts the
    allocated total back to what it was before the grant, and leaves
    the device and the limit alone. *)
Theorem AllocDisk_Release_restores host maxSpace t a t' :
  is_u64 (Disk.AllocSpace t) ->
  Disk.AllocDisk host maxSpace t = ((Some a, None), t') ->
  exists t'',
    Disk.Release (Some a) t' = (None, t'')
    /\ Disk.AllocSpace t'' = Disk.AllocSpace t
    /\ Disk.Device t'' = Disk.Device t
    /\ Disk.SoftMinFree t'' = Disk.SoftMinFree t.
Proof.
  intros Ht Halloc. unfold Disk.AllocDisk in Halloc.
  destruct (host (Disk.Device t)) as [fs|]; [|discriminate].
  destruct (Disk.SoftMinFree t <? _); [discriminate|].
  injection Halloc as <- <-.
  unfold Disk.Release. cbn. rewrite String_eqb_refl_neg.
  eexists. split; [reflexivity|]. cbn.
  split; [apply u64_add_sub, Ht | split; reflexivity].
Qed.

Lemma AllocDisk_Release_restores_witness :
  let host := Disk.host1 {| Disk.Bavail := 250; Disk.Bsize := 4 |} in
  exists t'',
    Disk.Release (Some {| Disk.device := "/data"; Disk.size := 950 |})
                 (Disk.AllocDisk host 950 tracker_1000).2 = (None, t'')
    /\ Disk.AllocSpace t'' = 0.
Proof.
  intros host.
  destruct (AllocDisk_Release_restores host 950 tracker_1000
              {| Disk.device := "/data"; Disk.size := 950 |}
              (Disk.AllocDisk host 950 tracker_1000).2)
    as (t'' & Hrel & Hspace & _).
  - unfold is_u64, u64_modulus. vm_compute. split; [discriminate | reflexivity].
  - vm_compute. reflexivity.
  - exists t''. split; [exact Hrel | exact Hspace].
Defined.

(** X2. Once [SetDiskLimits] has moved the tracker to another device,
    nothing is allocated on it, and releasing a reservation made on
    the device tracked before is refused and changes nothing. *)
Theorem SetDiskLimits_voids_reservations host dev minFree t fs a :
  host dev = Some fs ->
  dev <> Disk.Device t ->
  Disk.device a = Disk.Device t ->
  let t1 := (Disk.SetDiskLimits host dev minFree t).2 in
  Disk.Device t1 = dev
  /\ Disk.AllocSpace t1 = 0
  /\ Disk.Release (Some a) t1
     = (Some (Disk.ErrUntracked (Disk.size a) (Disk.device a)), t1).
Proof.
  intros Hfs Hne Ha t1. unfold t1, Disk.SetDiskLimits. rewrite Hfs. cbn.
  apply String.eqb_neq in Hne. rewrite Hne. cbn.
  split; [reflexivity|]. split; [reflexivity|].
  unfold Disk.Release. cbn. rewrite Ha, String.eqb_sym, Hne. reflexivity.
Qed.

Lemma SetDiskLimits_voids_reservations_witness :
  let host := fun dev : string =>
                if String.eqb dev "/scratch"
                then Some {| Disk.Bavail := 10; Disk.Bsize := 512 |}
                else Disk.host1 {| Disk.Bavail := 250; Disk.Bsize := 4 |} dev in
  let a := {| Disk.device := "/data"; Disk.size := 950 |} in
  let t1 := (Disk.SetDiskLimits host "/scratch" 0
               (Disk.AllocDisk host 950 tracker_1000).2).2 in
  Disk.AllocSpace t1 = 0
  /\ Disk.Release (Some a) t1 = (Some (Disk.ErrUntracked 950 "/data"), t1).
Proof.
  intros host a t1.
  destruct (SetDiskLimits_voids_reservations host "/scratch" 0
              (Disk.AllocDisk host 950 tracker_1000).2
              {| Disk.Bavail := 10; Disk.Bsize := 512 |} a eq_refl)
    as (_ & Hzero & Hrel).
  - vm_compute. discriminate.
  - reflexivity.
  - split; [exact Hzero | exact Hrel].
Defined.

(** X3. [AllocDisk] never changes the device or the limit. When it
    returns an error it returns no reservation and the tracker is as
    it was; when it returns none, the reservation is for the tracked
    device and the size asked, and the allocated total has grown by
    that size modulo 2^64. *)
Theorem AllocDisk_frame host maxSpace t :
  let r := Disk.AllocDisk host maxSpace t in
  Disk.Device r.2 = Disk.Device t
  /\ Disk.SoftMinFree r.2 = Disk.SoftMinFree t
  /\ (r.1.2 <> None -> r.1.1 = None /\ r.2 = t)
  /\ (r.1.2 = None ->
      r.1.1 = Some {| Disk.device := Disk.Device t; Disk.size := maxSpace |}
      /\ Disk.AllocSpace r.2 = u64_add (Disk.AllocSpace t) maxSpace).
Proof.
  unfold Disk.AllocDisk. destruct (host (Disk.Device t)) as [fs|]; cbn.
  - destruct (Disk.SoftMinFree t <? _); cbn.
    + split; [reflexivity|]. split; [reflexivity|].
      split; [intros _; split; reflexivity | discriminate].
    + split; [reflexivity|]. split; [reflexivity|].
      split; [intros H; contradiction | intros _; split; reflexivity].
  - split; [reflexivity|]. split; [reflexivity|].
    split; [intros _; split; reflexivity | discriminate].
Qed.

(** X4. When [initDiskResource] cannot read the device it records the
    error and leaves device and total alone. While that error stands,
    a release is answered with it and changes nothing, and so is the
    next one; an allocation or a [SetDiskLimits] that fails leaves it
    standing, and one that succeeds clears it. *)
Theorem initDiskResource_failure_blocks_release host dev t :
  host dev = None ->
  let r := Disk.initDiskResource host dev t in
  r.1 = Some (Disk.ErrStatfs dev)
  /\ Disk.InitErr r.2 = r.1
  /\ Disk.Device r.2 = Disk.Device t
  /\ Disk.AllocSpace r.2 = Disk.AllocSpace t
  /\ (forall a, Disk.Release (Some a) r.2 = (r.1, r.2))
  /\ (forall host' maxSpace,
        let alloc := Disk.AllocDisk host' maxSpace r.2 in
        (alloc.1.2 <> None -> alloc.2 = r.2)
        /\ (alloc.1.2 = None -> Disk.InitErr alloc.2 = None))
  /\ (forall host' dev' minFree,
        let set := Disk.SetDiskLimits host' dev' minFree r.2 in
        (set.1.2 <> None -> set.2 = r.2)
        /\ (set.1.2 = None -> Disk.InitErr set.2 = None)).
Proof.
  intros Hdev r.
  assert (Hr : r = (Some (Disk.ErrStatfs dev),
                    {| Disk.Device := Disk.Device t; Disk.AllocSpace := Disk.AllocSpace t;
                       Disk.SoftMinFree := Disk.SoftMinFree t;
                       Disk.InitErr := Some (Disk.ErrStatfs dev) |})).
  { unfold r, Disk.initDiskResource, Disk.SetDiskLimits. rewrite Hdev. reflexivity. }
  rewrite Hr. clear r Hr. cbn [fst snd Disk.InitErr Disk.Device Disk.AllocSpace].
  split; [reflexivity|]. split; [reflexivity|]. split; [reflexivity|].
  split; [reflexivity|]. split; [intros a; reflexivity|]. split.
  - intros host' maxSpace. unfold Disk.AllocDisk. cbn [Disk.Device].
    destruct (host' (Disk.Device t)) as [fs|]; cbn.
    + destruct (_ <? _); cbn; split; try reflexivity; try discriminate.
      intros H; contradiction.
    + split; [reflexivity | discriminate].
  - intros host' dev' minFree. unfold Disk.SetDiskLimits.
    destruct (host' dev') as [fs|]; cbn; split; try reflexivity; try discriminate.
    intros H; contradiction.
Qed.

Lemma initDiskResource_failure_blocks_release_witness :
  let host := Disk.host1 {| Disk.Bavail := 250; Disk.Bsize := 4 |} in
  let a := {| Disk.device := "/data"; Disk.size := 950 |} in
  let r := Disk.initDiskResource host "/missing" (Disk.AllocDisk host 950 tracker_1000).2 in
  Disk.Release (Some a) r.2 = (Some (Disk.ErrStatfs "/missing"), r.2)
  /\ Disk.InitErr (Disk.AllocDisk host 100 r.2).2 = r.1
  /\ Disk.InitErr (Disk.AllocDisk host 10 r.2).2 = None.
Proof.
  intros host a r.
  destruct (initDiskResource_failure_blocks_release host "/missing"
              (Disk.AllocDisk host 950 tracker_1000).2 eq_refl)
    as (He & _ & _ & _ & Hrel & Halloc & _).
  fold r in He, Hrel, Halloc. split; [rewrite <- He; apply Hrel|]. split.
  - destruct (Halloc host 100) as [Hkept _]. rewrite Hkept; [|vm_compute; discriminate].
    vm_compute. reflexivity.
  - destruct (Halloc host 10) as [_ Hcleared]. apply Hcleared. vm_compute. reflexivity.
Defined.

(** X5. Setting the same limits twice is setting them once: the
    second call returns what the first returned and leaves the
    tracker the first left. *)
Theorem SetDiskLimits_idempotent host dev minFree t :
  let r := Disk.SetDiskLimits host dev minFree t in
  Disk.SetDiskLimits host dev minFree r.2 = r.
Proof.
  unfold Disk.SetDiskLimits. destruct (host dev) as [fs|] eqn:Hdev; cbn.
  - rewrite String.eqb_refl. cbn.
    destruct (String.eqb dev (Disk.Device t)); reflexivity.
  - reflexivity.
Qed.

(** ** [Fit], further *)

Section FitRevisions.

Variable ParseBytes : string -> N * bool.

Lemma nonempty_errs s (e : bool) :
  negb (Nat.eqb 0 (String.length s)) && e = false <-> s = EmptyString \/ e = false.
Proof.
  destruct s, e; cbn; split; auto; intros [H|H]; discriminate.
Qed.

Lemma Fit_cases l r :
  (readable_sizes ParseBytes l r
   /\ Runner.Fit ParseBytes l r =
        ((Runner.Cpus l <=? Runner.Cpus r)%N
         && (Runner.Gpus l <=? Runner.Gpus r)%N
         && ((ParseBytes (Runner.Hdd l)).1 <=? (ParseBytes (Runner.Hdd r)).1)%N
         && ((ParseBytes (Runner.Ram l)).1 <=? (ParseBytes (Runner.Ram r)).1)%N
         && ((ParseBytes (Runner.GpuMem l)).1 <=? (ParseBytes (Runner.GpuMem r)).1)%N,
         None))
  \/ (~ readable_sizes ParseBytes l r
      /\ exists e, Runner.Fit ParseBytes l r = (false, Some e)).
Proof.
  unfold readable_sizes, parses, Runner.Fit.
  destruct (ParseBytes (Runner.Ram l)) as [lRam e1].
  destruct (ParseBytes (Runner.Ram r)) as [rRam e2].
  destruct (ParseBytes (Runner.Hdd l)) as [lHdd e3].
  destruct (ParseBytes (Runner.Hdd r)) as [rHdd e4].
  destruct (ParseBytes (Runner.GpuMem l)) as [lGpu e5].
  destruct (ParseBytes (Runner.GpuMem r)) as [rGpu e6].
  cbn [fst snd].
  destruct e1; [right; split; [intros (H&_); discriminate | eauto]|].
  destruct e2; [right; split; [intros (_&H&_); discriminate | eauto]|].
  destruct e3; [right; split; [intros (_&_&H&_); discriminate | eauto]|].
  destruct e4; [right; split; [intros (_&_&_&H&_); discriminate | eauto]|].
  destruct (negb (Nat.eqb 0 (String.length (Runner.GpuMem l))) && e5) eqn:H5.
  { right. split; [|eauto]. intros (_&_&_&_&H&_).
    apply nonempty_errs in H. congruence. }
  destruct (negb (Nat.eqb 0 (String.length (Runner.GpuMem r))) && e6) eqn:H6.
  { right. split; [|eauto]. intros (_&_&_&_&_&H).
    apply nonempty_errs in H. congruence. }
  left. apply nonempty_errs in H5, H6. tauto.
Qed.

(** X6. The later [Fit] reports an error exactly when one of the
    sizes it insists on does not parse (an empty [GpuMem] is not
    insisted on), and whenever it reports an error its answer is
    false. *)
Theorem Fit_error_iff_unreadable l r :
  ((Runner.Fit ParseBytes l r).2 = None <-> readable_sizes ParseBytes l r)
  /\ ((Runner.Fit ParseBytes l r).2 <> None -> (Runner.Fit ParseBytes l r).1 = false).
Proof.
  destruct (Fit_cases l r) as [(Hread & ->) | (Hno & e & ->)]; cbn.
  - split; [tauto | congruence].
  - split; [|reflexivity]. split; [discriminate | contradiction].
Qed.

(** X7. Fitting composes: when [a] fits [b] and [b] fits [c], then
    [a] fits [c], and without an error. *)
Theorem Fit_transitive a b c :
  (Runner.Fit ParseBytes a b).1 = true ->
  (Runner.Fit ParseBytes b c).1 = true ->
  Runner.Fit ParseBytes a c = (true, None).
Proof.
  intros Hab Hbc.
  destruct (Fit_cases a b) as [(Rab & Eab) | (_ & e & Eab)];
    rewrite Eab in Hab; [|discriminate].
  destruct (Fit_cases b c) as [(Rbc & Ebc) | (_ & e & Ebc)];
    rewrite Ebc in Hbc; [|discriminate].
  destruct (Fit_cases a c) as [(_ & ->) | (Hno & _)].
  - f_equal. cbn [fst] in Hab, Hbc.
    rewrite !andb_true_iff, !N.leb_le in Hab, Hbc.
    rewrite !andb_true_iff, !N.leb_le. lia.
  - exfalso. apply Hno. unfold readable_sizes in *. tauto.
Qed.

(** X8. A resource whose sizes parse fits itself. *)
Theorem Fit_reflexive a :
  parses ParseBytes (Runner.Ram a) -> parses ParseBytes (Runner.Hdd a) ->
  Runner.GpuMem a = EmptyString \/ parses ParseBytes (Runner.GpuMem a) ->
  Runner.Fit ParseBytes a a = (true, None).
Proof.
  intros Hr Hh Hg.
  destruct (Fit_cases a a) as [(_ & ->) | (Hno & _)].
  - f_equal. rewrite !N.leb_refl. reflexivity.
  - exfalso. apply Hno. unfold readable_sizes. tauto.
Qed.

(** X9. The later revision is the stricter one: what it accepts the
    earlier revision accepts, and where it reports no error the two
    give the same answer. *)
Theorem Fit_refines_Fit_v0 l r :
  ((Runner.Fit ParseBytes l r).1 = true -> Runner.Fit_v0 ParseBytes l r = true)
  /\ ((Runner.Fit ParseBytes l r).2 = None ->
      Runner.Fit_v0 ParseBytes l r = (Runner.Fit ParseBytes l r).1).
Proof.
  assert (Hv0 : Runner.Fit_v0 ParseBytes l r =
    ((Runner.Cpus l <=? Runner.Cpus r)%N
     && (Runner.Gpus l <=? Runner.Gpus r)%N
     && ((ParseBytes (Runner.Hdd l)).1 <=? (ParseBytes (Runner.Hdd r)).1)%N
     && ((ParseBytes (Runner.Ram l)).1 <=? (ParseBytes (Runner.Ram r)).1)%N
     && ((ParseBytes (Runner.GpuMem l)).1 <=? (ParseBytes (Runner.GpuMem r)).1)%N)).
  { unfold Runner.Fit_v0.
    destruct (ParseBytes (Runner.Ram l)), (ParseBytes (Runner.Ram r)),
      (ParseBytes (Runner.Hdd l)), (ParseBytes (Runner.Hdd r)),
      (ParseBytes (Runner.GpuMem l)), (ParseBytes (Runner.GpuMem r)).
    reflexivity. }
  destruct (Fit_cases l r) as [(_ & ->) | (_ & e & ->)]; cbn [fst snd].
  - rewrite Hv0. split; auto.
  - split; discriminate.
Qed.

End FitRevisions.

Lemma Fit_transitive_witness :
  let job := {| Runner.Cpus := 2; Runner.Gpus := 1; Runner.Hdd := "10Gb";
                Runner.Ram := "4Gb"; Runner.GpuMem := EmptyString |} in
  let slot := {| Runner.Cpus := 4; Runner.Gpus := 1; Runner.Hdd := "100Gb";
                 Runner.Ram := "8Gb"; Runner.GpuMem := "8Gb" |} in
  let machine := {| Runner.Cpus := 8; Runner.Gpus := 2; Runner.Hdd := "500Gb";
                    Runner.Ram := "64Gb"; Runner.GpuMem := "16Gb" |} in
  Runner.Fit Humanize.ParseBytes job machine = (true, None).
Proof.
  intros job slot machine.
  apply (Fit_transitive Humanize.ParseBytes job slot machine);
    vm_compute; reflexivity.
Defined.

Lemma Fit_reflexive_witness :
  let slot := {| Runner.Cpus := 4; Runner.Gpus := 1; Runner.Hdd := "100Gb";
                 Runner.Ram := "8Gb"; Runner.GpuMem := EmptyString |} in
  Runner.Fit Humanize.ParseBytes slot slot = (true, None).
Proof.
  intros slot.
  apply (Fit_reflexive Humanize.ParseBytes slot);
    [vm_compute; reflexivity | vm_compute; reflexivity | left; reflexivity].
Defined.

(** ** The queue scheduler, further *)

Lemma insert_swap_Permutation {A} (l : list A) i x y :
  l !! i = Some y -> y :: <[i:=x]> l ≡ₚ x :: l.
Proof.
  revert i. induction l as [|z l IH]; intros [|i] H; try discriminate.
  - cbn in H. injection H as ->. cbn. apply perm_swap.
  - cbn in H. cbn. rewrite (perm_swap z y), (perm_swap z x).
    apply perm_skip, IH, H.
Qed.

Lemma swap_Permutation {A} i r (slc : list A) : Queue.swap i r slc ≡ₚ slc.
Proof.
  unfold Queue.swap.
  destruct (slc !! i) as [x|] eqn:Hi; [|reflexivity].
  destruct (slc !! r) as [y|] eqn:Hr; [|reflexivity].
  revert i r Hi Hr. induction slc as [|z l IH]; intros [|i] [|r] Hi Hr;
    try discriminate; cbn in *.
  - injection Hi as ->. injection Hr as ->. reflexivity.
  - injection Hi as ->. apply insert_swap_Permutation, Hr.
  - injection Hr as ->. apply insert_swap_Permutation, Hi.
  - apply perm_skip, IH; assumption.
Qed.

Lemma shuffleFrom_Permutation k i rnd slc : Queue.shuffleFrom k i rnd slc ≡ₚ slc.
Proof.
  revert i rnd slc. induction k as [|k IH]; intros i rnd slc; cbn; [reflexivity|].
  rewrite IH. apply swap_Permutation.
Qed.

(** X10. Whatever the random draws, [shuffle] returns the
    subscriptions it was given, each as often as it was given. *)
Theorem shuffle_permutes rnd slc : Queue.shuffle rnd slc ≡ₚ slc.
Proof. apply shuffleFrom_Permutation. Qed.

Lemma rangeValues_Permutation rangeKeys {V} (m : gmap string V) :
  ranges rangeKeys -> Queue.rangeValues rangeKeys m ≡ₚ (map_to_list m).*2.
Proof.
  intros H. unfold Queue.rangeValues. rewrite (H V m).
  assert (Hall : forall kv, kv ∈ map_to_list m -> m !! kv.1 = Some kv.2).
  { intros [k v] Hin. apply elem_of_map_to_list. exact Hin. }
  induction (map_to_list m) as [|[k v] l IH]; [reflexivity|].
  pose proof (Hall (k, v) ltac:(left)) as Hk. cbn in Hk.
  cbn. rewrite Hk. cbn.
  rewrite IH; [reflexivity|]. intros kv Hkv. apply Hall. right. exact Hkv.
Qed.

Lemma byCnt_total : Total Queue.byCnt.
Proof. intros a b. unfold Queue.byCnt. lia. Qed.

Lemma rank_Permutation rangeKeys (qr : Queue.Queuer) :
  ranges rangeKeys -> Queue.rank rangeKeys qr ≡ₚ (map_to_list (Queue.subs qr)).*2.
Proof.
  intros H. unfold Queue.rank.
  rewrite merge_sort_Permutation. apply rangeValues_Permutation, H.
Qed.

(** X11. [rank] returns every subscription of the catalog once, in
    ascending order of [cnt], whatever order the map is ranged in. *)
Theorem rank_sorted_catalog rangeKeys (qr : Queue.Queuer) :
  ranges rangeKeys ->
  Sorted Queue.byCnt (Queue.rank rangeKeys qr)
  /\ Queue.rank rangeKeys qr ≡ₚ (map_to_list (Queue.subs qr)).*2.
Proof.
  intros H. split.
  - unfold Queue.rank. apply Sorted_merge_sort. exact byCnt_total.
  - apply rank_Permutation, H.
Qed.

Lemma rank_sorted_catalog_witness :
  Sorted Queue.byCnt (Queue.rank rangeInOrder queuer0)
  /\ Queue.rank rangeInOrder queuer0 ≡ₚ (map_to_list catalog0).*2.
Proof.
  apply (rank_sorted_catalog rangeInOrder queuer0). intros V m. reflexivity.
Defined.

(** What [check] hands over and why. *)
Lemma check_cases ParseBytes qr name machine rQ :
  let r := Queue.check ParseBytes qr name machine rQ in
  (r.1 = None
   /\ r.2 = [sentinel;
             {| Queue.project_ := Queue.project qr; Queue.subscription := name;
                Queue.creds := Queue.cred qr |}]
   /\ Queue.ready1 rQ = true /\ Queue.ready2 rQ = true
   /\ exists sub, Queue.subs qr !! name = Some sub
                  /\ forall need, Queue.rsc sub = Some need ->
                                  (Runner.Fit ParseBytes need machine).1 = true)
  \/ (r.1 <> None /\ (r.2 = [] \/ r.2 = [sentinel])).
Proof.
  unfold Queue.check. fold sentinel.
  destruct (Queue.ready1 rQ); cbn; [|right; split; [discriminate | left; reflexivity]].
  destruct (Queue.subs qr !! name) as [sub|] eqn:Hsub;
    [|right; split; [discriminate | right; reflexivity]].
  destruct (Queue.rsc sub) as [need|] eqn:Hrsc.
  - destruct (Runner.Fit ParseBytes need machine) as [fit err] eqn:Hfit.
    destruct fit; cbn.
    + destruct (Queue.ready2 rQ); cbn;
        [|right; split; [discriminate | right; reflexivity]].
      left. repeat split. exists sub. split; [reflexivity|].
      intros need' Hneed. rewrite Hrsc in Hneed. injection Hneed as <-.
      rewrite Hfit. reflexivity.
    + destruct err; right; (split; [discriminate | right; reflexivity]).
  - destruct (Queue.ready2 rQ); cbn;
      [|right; split; [discriminate | right; reflexivity]].
    left. repeat split. exists sub. split; [reflexivity|].
    intros need' Hneed. rewrite Hrsc in Hneed. discriminate.
Qed.

Lemma idleOf_elem_of qr backoffs now ranked sub :
  sub ∈ Queue.idleOf qr backoffs now ranked
  <-> sub ∈ ranked /\ Queue.cnt sub = 0%N
      /\ Queue.Get backoffs (Queue.project qr ++ ":" ++ Queue.name sub) now = false.
Proof.
  unfold Queue.idleOf. rewrite !list_elem_of_In, filter_In.
  rewrite andb_true_iff, negb_true_iff, N.eqb_eq. tauto.
Qed.

Lemma shuffle_head rnd slc first rest :
  Queue.shuffle rnd slc = first :: rest -> first ∈ slc.
Proof.
  intros H. rewrite <- (shuffleFrom_Permutation (length slc) 0 rnd slc).
  unfold Queue.shuffle in H. rewrite H. left.
Qed.

(** The catalog is filed by name when the scheduler is made, and
    [align] and [setResources], the two functions that write to it,
    keep it so. *)
Lemma filed_NewQueuer projectID credFile :
  filed (Queue.subs (Queue.NewQueuer projectID credFile)).
Proof. intros key sub H. cbn in H. rewrite lookup_empty in H. discriminate. Qed.

Lemma filed_align rangeKeys {V} (expected : gmap string V) subs :
  ranges rangeKeys -> filed subs -> filed (Queue.align rangeKeys expected subs).2.
Proof.
  intros Hranges Hfiled key sub Hsub.
  destruct (align_unfold rangeKeys Hranges expected subs) as (subs1 & H1 & _ & _ & Hleft).
  rewrite Hleft in Hsub. destruct (decide (is_Some (expected !! key))); [|discriminate].
  rewrite H1 in Hsub. destruct (subs !! key) as [old|] eqn:Hold.
  - injection Hsub as <-. apply (Hfiled key old Hold).
  - destruct (decide (is_Some (expected !! key))); [|discriminate].
    injection Hsub as <-. reflexivity.
Qed.

Lemma filed_setResources name rsc subs :
  filed subs -> filed (Queue.setResources name rsc subs).2.
Proof.
  intros Hfiled key sub Hsub. unfold Queue.setResources in Hsub.
  destruct rsc as [r|]; [|apply (Hfiled key sub Hsub)].
  destruct (subs !! name) as [q|] eqn:Hq; [|apply (Hfiled key sub Hsub)].
  cbn in Hsub. destruct (decide (key = name)) as [->|Hne].
  - rewrite lookup_insert_eq in Hsub. injection Hsub as <-. apply (Hfiled name q Hq).
  - rewrite lookup_insert_ne in Hsub by congruence. apply (Hfiled key sub Hsub).
Qed.

(** X12. In a catalog filed by name, a tick hands a real request to
    the consumer only for a queue of the catalog that has nothing
    running here, had no live back-off when the idle queues were
    collected and whose resource hint, if it has one, fits the
    machine; the request carries the project and credentials of the
    scheduler, follows the empty request, and the tick then leaves
    the back-offs alone, sets both ready times to the time the probe
    came back and does not send the warning of an hour without
    work. *)
Theorem tick_hands_over_idle_only
    (ParseBytes : string -> N * bool)
    (rangeKeys : forall V, gmap string V -> list string)
    (qr : Queue.Queuer) (backoffs : Queue.Cache) (st : Queue.producerState)
    (t0 t1 : Z) (rnd : list nat) (machine : Runner.Resource) (rQ : Queue.consumerEnd)
    (rq : Queue.subRequest) :
  ranges rangeKeys ->
  filed (Queue.subs qr) ->
  let r := Queue.tick ParseBytes rangeKeys qr backoffs st t0 t1 rnd machine rQ in
  Queue.sent r !! 1%nat = Some rq ->
  Queue.sent r = [sentinel; rq]
  /\ Queue.project_ rq = Queue.project qr /\ Queue.creds rq = Queue.cred qr
  /\ (exists sub,
        Queue.subs qr !! Queue.subscription rq = Some sub
        /\ Queue.name sub = Queue.subscription rq
        /\ Queue.cnt sub = 0%N
        /\ Queue.Get backoffs (Queue.project qr ++ ":" ++ Queue.subscription rq) t0
           = false
        /\ forall need, Queue.rsc sub = Some need ->
                        (Runner.Fit ParseBytes need machine).1 = true)
  /\ Queue.ready1 rQ = true /\ Queue.ready2 rQ = true
  /\ Queue.backoffs' r = backoffs
  /\ Queue.state' r = {| Queue.lastReady := t1; Queue.lastReadyAbs := t1 |}
  /\ Queue.warned r = false.
Proof.
  intros Hranges Hfiled r Hsent. unfold r, Queue.tick in *. clear r.
  destruct (Queue.shuffle rnd _) as [|first rest] eqn:Hpick.
  { unfold Queue.lastReadyCheck in Hsent.
    destruct (Queue.lastReady st <? t1 - Queue.hour); discriminate. }
  apply shuffle_head, idleOf_elem_of in Hpick as (Hin & Hcnt & Hfree).
  rewrite (rank_Permutation _ _ Hranges) in Hin.
  apply list_elem_of_fmap in Hin as ([key sub] & Hfirst & Hin). cbn in Hfirst. subst sub.
  apply elem_of_map_to_list in Hin.
  pose proof (Hfiled key first Hin) as Hkey. subst key.
  pose proof (check_cases ParseBytes qr (Queue.name first) machine rQ) as Hcheck.
  destruct (Queue.check ParseBytes qr (Queue.name first) machine rQ) as [err sent].
  cbn [fst snd] in Hcheck.
  destruct Hcheck as [(-> & -> & H1 & H2 & known & Hknown & Hfits) | (Herr & Hnone)].
  - unfold Queue.lastReadyCheck in *. cbn [Queue.lastReady] in *.
    assert (Hnow : (t1 <? t1 - Queue.hour) = false).
    { apply Z.ltb_ge. unfold Queue.hour, Queue.minute, Queue.second. lia. }
    rewrite Hnow in *. cbn in Hsent. injection Hsent as <-. cbn.
    rewrite Hin in Hknown. injection Hknown as <-.
    repeat split; try assumption. exists first. repeat split; assumption.
  - destruct err; [|contradiction]. cbn in Hsent.
    destruct Hnone as [-> | ->]; discriminate.
Qed.

Lemma tick_hands_over_idle_only_witness :
  let r := Queue.tick Humanize.ParseBytes rangeInOrder queuer1 Queue.backoffs0 started
                      0 7 [] machine0 listening in
  Queue.sent r = [sentinel; {| Queue.project_ := "proj"; Queue.subscription := "q1";
                               Queue.creds := "cred.json" |}]
  /\ Queue.backoffs' r = Queue.backoffs0.
Proof.
  intros r.
  destruct (tick_hands_over_idle_only Humanize.ParseBytes rangeInOrder queuer1
              Queue.backoffs0 started 0 7 [] machine0 listening
              {| Queue.project_ := "proj"; Queue.subscription := "q1";
                 Queue.creds := "cred.json" |})
    as (Hsent & _ & _ & _ & _ & _ & Hback & _).
  - intros V m. reflexivity.
  - intros key sub Hsub. cbn in Hsub.
    destruct (decide (key = "q1"%string)) as [->|Hne].
    + rewrite lookup_insert_eq in Hsub. injection Hsub as <-. reflexivity.
    + rewrite lookup_insert_ne in Hsub by congruence. rewrite lookup_empty in Hsub.
      discriminate.
  - vm_compute. reflexivity.
  - split; [exact Hsent | exact Hback].
Defined.

Lemma Get_entry c k e t :
  Queue.items c !! k = Some e -> t <= e -> Queue.Get c k t = true.
Proof.
  intros He Ht. unfold Queue.Get. rewrite He.
  destruct (0 <? e); [|reflexivity].
  destruct (Z.ltb_spec e t); [lia | reflexivity].
Qed.

(** X13. When a tick finds a queue idle and yet hands no real
    request over, for whatever reason the probe gave up, it writes a
    back-off of one minute for one of the idle queues, leaves the
    ready times alone and does not send the warning of an hour
    without work. The entry it wrote expires a minute after the probe
    came back, and for as long as a cache holds that entry, and until
    it expires, the queue is not among the idle ones; a handler that
    succeeds meanwhile may replace the entry by one of a second. *)
Theorem tick_failed_probe_backs_off
    (ParseBytes : string -> N * bool)
    (rangeKeys : forall V, gmap string V -> list string)
    (qr : Queue.Queuer) (backoffs : Queue.Cache) (st : Queue.producerState)
    (t0 t1 : Z) (rnd : list nat) (machine : Runner.Resource) (rQ : Queue.consumerEnd) :
  let idle := Queue.idleOf qr backoffs t0 (Queue.rank rangeKeys qr) in
  let r := Queue.tick ParseBytes rangeKeys qr backoffs st t0 t1 rnd machine rQ in
  idle <> [] ->
  Queue.sent r !! 1%nat = None ->
  exists first,
    let key := (Queue.project qr ++ ":" ++ Queue.name first)%string in
    first ∈ idle
    /\ Queue.backoffs' r = Queue.Set_ backoffs key Queue.minute t1
    /\ Queue.items (Queue.backoffs' r) !! key = Some (t1 + Queue.minute)
    /\ Queue.state' r = st
    /\ Queue.warned r = false
    /\ forall cache t ranked sub,
         Queue.items cache !! key = Some (t1 + Queue.minute) ->
         t <= t1 + Queue.minute ->
         sub ∈ Queue.idleOf qr cache t ranked ->
         Queue.name sub <> Queue.name first.
Proof.
  intros idle r Hidle Hsent. unfold r, Queue.tick in *. clear r. fold idle in Hsent |- *.
  destruct (Queue.shuffle rnd idle) as [|first rest] eqn:Hpick.
  { exfalso. apply Hidle.
    apply Permutation_nil_r. rewrite <- Hpick.
    symmetry. apply (shuffleFrom_Permutation (length idle) 0 rnd idle). }
  exists first. cbv zeta.
  set (key := (Queue.project qr ++ ":" ++ Queue.name first)%string).
  split; [apply (shuffle_head rnd idle first rest Hpick)|].
  pose proof (check_cases ParseBytes qr (Queue.name first) machine rQ) as Hcheck.
  destruct (Queue.check ParseBytes qr (Queue.name first) machine rQ) as [err sent].
  cbn [fst snd] in Hcheck.
  destruct Hcheck as [(-> & -> & _) | (Herr & _)].
  - exfalso. unfold Queue.lastReadyCheck in Hsent.
    destruct (_ <? _); discriminate.
  - destruct err; [|contradiction]. cbn [Queue.backoffs' Queue.state' Queue.warned].
    split; [reflexivity|]. split; [apply Set_items; reflexivity|].
    split; [reflexivity|]. split; [reflexivity|].
    intros cache t ranked sub Hentry Ht Hsub Hname.
    apply idleOf_elem_of in Hsub as (_ & _ & Hfree).
    rewrite Hname in Hfree. fold key in Hfree.
    rewrite (Get_entry cache key _ t Hentry Ht) in Hfree. discriminate.
Qed.

Lemma tick_failed_probe_backs_off_witness :
  let r := Queue.tick Humanize.ParseBytes rangeInOrder queuer1 Queue.backoffs0 started
                      0 7 [] machine0
                      {| Queue.ready1 := true; Queue.ready2 := false |} in
  exists first,
    first ∈ Queue.idleOf queuer1 Queue.backoffs0 0 (Queue.rank rangeInOrder queuer1)
    /\ Queue.backoffs' r
       = Queue.Set_ Queue.backoffs0 ("proj:" ++ Queue.name first) Queue.minute 7.
Proof.
  intros r.
  destruct (tick_failed_probe_backs_off Humanize.ParseBytes rangeInOrder queuer1
              Queue.backoffs0 started 0 7 [] machine0
              {| Queue.ready1 := true; Queue.ready2 := false |})
    as (first & Hin & Hback & _).
  - vm_compute. discriminate.
  - vm_compute. reflexivity.
  - exists first. split; [exact Hin | exact Hback].
Defined.

(** What [setResources] does to the catalog. *)
Lemma setResources_cases name rsc subs :
  (exists r q, rsc = Some r /\ subs !! name = Some q
     /\ Queue.setResources name rsc subs
        = (None, <[name := {| Queue.name := Queue.name q; Queue.rsc := Some r;
                              Queue.cnt := Queue.cnt q |}]> subs))
  \/ ((rsc = None \/ subs !! name = None)
      /\ exists e, Queue.setResources name rsc subs = (Some e, subs)).
Proof.
  unfold Queue.setResources. destruct rsc as [r|]; [|right; eauto].
  destruct (subs !! name) as [q|] eqn:Hq; [|right; eauto].
  left. eauto.
Qed.

Lemma setResources_keeps name rsc subs :
  let s := (Queue.setResources name rsc subs).2 in
  dom s = dom subs
  /\ (forall k, k <> name -> s !! k = subs !! k)
  /\ (forall k q', s !! k = Some q' ->
        exists q, subs !! k = Some q /\ Queue.name q' = Queue.name q
                  /\ Queue.cnt q' = Queue.cnt q).
Proof.
  destruct (setResources_cases name rsc subs)
    as [(res & q & -> & Hq & ->) | (Hno & e & ->)]; cbn.
  - split; [apply set_eq; intros k; rewrite dom_insert, elem_of_union, elem_of_singleton,
              !elem_of_dom; split; [intros [->|H]; eauto | auto]|].
    split; [intros k Hk; apply lookup_insert_ne; congruence|].
    intros k q' Hq'. destruct (decide (k = name)) as [->|Hne].
    + rewrite lookup_insert_eq in Hq'. injection Hq' as <-. eauto.
    + rewrite lookup_insert_ne in Hq' by congruence. eauto.
  - split; [reflexivity|]. split; [reflexivity|]. eauto.
Qed.

(** X14. [setResources] succeeds exactly when it is given a resource
    for a queue of the catalog, and then that queue has the resource
    as its hint; when it fails the catalog is as it was; and it never
    adds or removes a queue, nor changes a name, a count, or the hint
    of a queue other than the one named. *)
Theorem setResources_frame name rsc subs :
  let r := Queue.setResources name rsc subs in
  (r.1 = None <-> is_Some rsc /\ is_Some (subs !! name))
  /\ (r.1 <> None -> r.2 = subs)
  /\ (r.1 = None -> Queue.rsc <$> r.2 !! name = Some rsc)
  /\ dom r.2 = dom subs
  /\ (forall k, k <> name -> r.2 !! k = subs !! k)
  /\ (forall k q', r.2 !! k = Some q' ->
        exists q, subs !! k = Some q /\ Queue.name q' = Queue.name q
                  /\ Queue.cnt q' = Queue.cnt q).
Proof.
  intros r. pose proof (setResources_keeps name rsc subs) as Hkeep.
  fold r in Hkeep. cbv zeta in Hkeep.
  split; [|split; [|split; [|exact Hkeep]]]; unfold r; clear r Hkeep;
    destruct (setResources_cases name rsc subs)
      as [(res & q & -> & Hq & ->) | (Hno & e & ->)]; cbn.
  - split; [eauto | reflexivity].
  - split; [discriminate|]. intros [[? ->] [? Hq]].
    destruct Hno as [?|Hno]; [discriminate | rewrite Hno in Hq; discriminate].
  - intros H; contradiction.
  - reflexivity.
  - intros _. rewrite lookup_insert_eq. reflexivity.
  - discriminate.
Qed.




(** X16. Whatever the message and whatever becomes of it, the
    handler leaves the project, the credentials and the set of queues
    of the scheduler as they are, changes no name and no count, and
    changes the resource hint of no queue but the one the request is
    for; a negative acknowledgement always comes with the receive
    being cancelled. *)
Theorem handler_catalog_frame
    (newProcessor : string -> Queue.Message -> string -> string + Queue.processor)
    (Process : Queue.processor -> Queue.Message -> Z * bool * option string)
    (qr : Queue.Queuer) (request : Queue.subRequest) (backoffs : Queue.Cache)
    (t0 t1 : Z) (msg : Queue.Message) (meanwhile : Queue.Cache -> Queue.Cache) :
  let r := Queue.handler newProcessor Process qr request backoffs t0 msg meanwhile t1 in
  Queue.project (Queue.queuer' r) = Queue.project qr
  /\ Queue.cred (Queue.queuer' r) = Queue.cred qr
  /\ dom (Queue.subs (Queue.queuer' r)) = dom (Queue.subs qr)
  /\ (forall k, k <> Queue.subscription request ->
                Queue.subs (Queue.queuer' r) !! k = Queue.subs qr !! k)
  /\ (forall k q', Queue.subs (Queue.queuer' r) !! k = Some q' ->
        exists q, Queue.subs qr !! k = Some q /\ Queue.name q' = Queue.name q
                  /\ Queue.cnt q' = Queue.cnt q)
  /\ (Queue.reply r = Queue.Nack -> Queue.cancelled r = true).
Proof.
  intros r.
  pose proof (setResources_keeps (Queue.subscription request)
                (Runner.Clone (Runner.Resource_ (Runner.Experiment_ (Queue.Request_
                   (match newProcessor (Queue.subscription request) msg (Queue.cred qr)
                    with inr proc => proc
                       | inl _ => {| Queue.Request_ := Runner.zeroRequest |} end)))))
                (Queue.subs qr)) as (Hdom & Hother & Hkeep).
  assert (Hsame : dom (Queue.subs qr) = dom (Queue.subs qr)
    /\ (forall k, k <> Queue.subscription request ->
                  Queue.subs qr !! k = Queue.subs qr !! k)
    /\ (forall k q', Queue.subs qr !! k = Some q' ->
          exists q, Queue.subs qr !! k = Some q /\ Queue.name q' = Queue.name q
                    /\ Queue.cnt q' = Queue.cnt q)).
  { split; [reflexivity|]. split; [reflexivity|]. eauto. }
  unfold r, Queue.handler. clear r.
  destruct (Queue.Get backoffs _ t0).
  { cbn. split_and?; try apply Hsame; reflexivity. }
  destruct (newProcessor _ msg _) as [e|proc].
  { cbn. split_and?; try apply Hsame; reflexivity. }
  destruct (Process proc msg) as [[backoff ack] [err|]];
    cbn [Queue.queuer' Queue.reply Queue.cancelled Queue.project Queue.cred Queue.subs];
    (split; [reflexivity|]); (split; [reflexivity|]);
    (split; [exact Hdom|]); (split; [exact Hother|]); (split; [exact Hkeep|]).
  - reflexivity.
  - discriminate.
Qed.

(** ** Refreshing the catalog *)

Lemma refreshMessage_None project added removed :
  Queue.refreshMessage project added removed = None <-> added = [] /\ removed = [].
Proof.
  unfold Queue.refreshMessage, GoStrings.Join.
  destruct added as [|a added], removed as [|r removed]; cbn;
    (split; [try discriminate; auto | intros [? ?]; try discriminate; reflexivity]).
Qed.

Lemma refreshMessage_removed project r removed :
  Queue.refreshMessage project [] (r :: removed)
  = Some ("project " ++ project ++ " , and removed queues "
            ++ GoStrings.Join (r :: removed) ", ")%string.
Proof.
  unfold Queue.refreshMessage, GoStrings.Join. cbn [length Nat.eqb negb String.concat].
  cbn. reflexivity.
Qed.

Lemma filter_nil_iff {A} (P : A -> Prop) `{!forall x, Decision (P x)} (l : list A) :
  filter P l = [] <-> forall x, x ∈ l -> ~ P x.
Proof.
  split; [|apply filter_none].
  intros Hnil x Hx HP.
  assert (Hin : x ∈ filter P l) by (apply list_elem_of_filter; auto).
  rewrite Hnil in Hin. inversion Hin.
Qed.

Section RefreshFacts.

Context (rangeKeys : forall V, gmap string V -> list string).
Context (Hranges : ranges rangeKeys).
Context {V : Type}.

Lemma align_changes (known : gmap string V) (subs : gmap string Queue.Subscription) :
  let r := Queue.align rangeKeys known subs in
  (r.1.1 = [] <-> dom known ⊆ dom subs)
  /\ (r.1.2 = [] <-> dom subs ⊆ dom known)
  /\ dom r.2 = dom known
  /\ (dom known = dom subs -> r.2 = subs).
Proof.
  intros r.
  destruct (align_unfold rangeKeys Hranges known subs)
    as (subs1 & H1 & Hadd & Hrem & Hleft).
  fold r in Hadd, Hrem, Hleft.
  split; [|split; [|split]].
  - rewrite Hadd, filter_nil_iff. split.
    + intros Hall k Hk. apply elem_of_dom in Hk. apply elem_of_dom.
      apply not_eq_None_Some. apply Hall. apply ranges_elem_of; assumption.
    + intros Hsub k Hk. apply (ranges_elem_of _ _ _ _ Hranges) in Hk.
      apply elem_of_dom, Hsub, elem_of_dom in Hk. destruct Hk as [? ->]. discriminate.
  - rewrite Hrem, filter_nil_iff. split.
    + intros Hall k Hk. apply elem_of_dom in Hk. apply elem_of_dom.
      apply not_eq_None_Some. apply Hall. apply ranges_elem_of; [assumption|].
      rewrite H1. destruct Hk as [? ->]. eauto.
    + intros Hsub k Hk. apply (ranges_elem_of _ _ _ _ Hranges) in Hk.
      rewrite H1 in Hk. destruct (subs !! k) eqn:Ek.
      * assert (Hin : k ∈ dom subs) by (apply elem_of_dom; eauto).
        apply Hsub, elem_of_dom in Hin. destruct Hin as [? ->]. discriminate.
      * destruct (decide (is_Some (known !! k))) as [[? ->]|];
          [discriminate | destruct Hk; discriminate].
  - apply set_eq. intros k. rewrite !elem_of_dom, Hleft, H1.
    destruct (decide (is_Some (known !! k))) as [Hk|Hk].
    + split; [intros _; exact Hk|]. intros _. destruct (subs !! k); eauto.
    + split; [intros [? ?]; discriminate | intros ?; contradiction].
  - intros Hdom. apply map_eq. intros k. rewrite Hleft, H1.
    assert (Hk : is_Some (known !! k) <-> is_Some (subs !! k)).
    { rewrite <- !elem_of_dom, Hdom. reflexivity. }
    destruct (decide (is_Some (known !! k))) as [Hin|Hout].
    + apply Hk in Hin. destruct Hin as [? ->]. reflexivity.
    + rewrite Hk in Hout. symmetry. apply eq_None_not_Some. exact Hout.
Qed.

End RefreshFacts.

(** X17. When the listing succeeds, [refresh] logs nothing exactly
    when the listing names the queues the catalog has, and then leaves
    the catalog as it was; when queues went and none came the message
    starts with the separator, "project P , and removed queues ...";
    and a second refresh on the same listing logs nothing and changes
    nothing. *)
Theorem refresh_logs_changes
    (rangeKeys : forall V, gmap string V -> list string)
    {V} (known : gmap string V) (qr : Queue.Queuer) :
  ranges rangeKeys ->
  let r := Queue.refresh rangeKeys (Some known) qr in
  Queue.failed r = false
  /\ (Queue.logged r = None <-> dom known = dom (Queue.subs qr))
  /\ (Queue.logged r = None -> Queue.catalog r = qr)
  /\ (dom known ⊆ dom (Queue.subs qr) -> dom known <> dom (Queue.subs qr) ->
      Queue.logged r
      = Some ("project " ++ Queue.project qr ++ " , and removed queues "
                ++ GoStrings.Join (Queue.align rangeKeys known (Queue.subs qr)).1.2 ", ")%string)
  /\ Queue.refresh rangeKeys (Some known) (Queue.catalog r)
     = {| Queue.failed := false; Queue.logged := None; Queue.catalog := Queue.catalog r |}.
Proof.
  intros Hranges r.
  pose proof (align_changes rangeKeys Hranges known (Queue.subs qr))
    as (Hadd & Hrem & Hdom & Hsame).
  assert (Hlog : Queue.logged r = None <-> dom known = dom (Queue.subs qr)).
  { unfold r, Queue.refresh.
    destruct (Queue.align rangeKeys known (Queue.subs qr)) as [[added removed] subs'].
    cbn [fst snd Queue.logged] in *. rewrite refreshMessage_None, Hadd, Hrem.
    split; [intros [? ?]; apply set_eq; intros k; split; auto|].
    intros ->. split; reflexivity. }
  split; [|split; [exact Hlog|split; [|split]]].
  - unfold r, Queue.refresh.
    destruct (Queue.align rangeKeys known (Queue.subs qr)) as [[added removed] subs'].
    reflexivity.
  - intros Hnone. apply Hlog, Hsame in Hnone. unfold r, Queue.refresh.
    destruct (Queue.align rangeKeys known (Queue.subs qr)) as [[added removed] subs'].
    cbn in *. subst subs'. destruct qr; reflexivity.
  - intros Hsub Hne. unfold r, Queue.refresh.
    destruct (Queue.align rangeKeys known (Queue.subs qr)) as [[added removed] subs'].
    cbn [fst snd Queue.logged] in *.
    apply Hadd in Hsub. subst added.
    destruct removed as [|x removed]; [|apply refreshMessage_removed].
    exfalso. apply Hne. apply set_eq. intros k. split; [apply Hadd | apply Hrem];
      reflexivity.
  - assert (Hdom' : dom known = dom (Queue.subs (Queue.catalog r))).
    { unfold r, Queue.refresh.
      destruct (Queue.align rangeKeys known (Queue.subs qr)) as [[added removed] subs'].
      cbn in *. symmetry. exact Hdom. }
    pose proof (align_changes rangeKeys Hranges known (Queue.subs (Queue.catalog r)))
      as (Hadd' & Hrem' & _ & Hsame').
    specialize (Hsame' Hdom').
    unfold Queue.refresh at 1.
    destruct (Queue.align rangeKeys known (Queue.subs (Queue.catalog r)))
      as [[added' removed'] subs''].
    cbn [fst snd] in *. subst subs''.
    assert (Ha : added' = []) by (apply Hadd'; rewrite Hdom'; reflexivity).
    assert (Hr : removed' = []) by (apply Hrem'; rewrite Hdom'; reflexivity).
    subst added' removed'. f_equal. destruct (Queue.catalog r); reflexivity.
Qed.

Lemma refresh_logs_changes_witness :
  Queue.logged (Queue.refresh rangeInOrder (Some (<["q1" := true]> (∅ : gmap string bool)))
                              queuer0)
  = Some "project proj , and removed queues gone"%string.
Proof.
  destruct (refresh_logs_changes rangeInOrder (<["q1" := true]> (∅ : gmap string bool))
              queuer0 rangeInOrder_ranges) as (_ & _ & _ & Hmsg & _).
  rewrite Hmsg; [vm_compute; reflexivity | |].
  - intros k Hk. apply elem_of_dom in Hk. apply elem_of_dom.
    destruct (decide (k = "q1"%string)) as [->|Hne]; [vm_compute; eauto|].
    rewrite lookup_insert_ne in Hk by congruence. destruct Hk; discriminate.
  - intros Heq.
    assert (Hin : "gone"%string ∈ dom (Queue.subs queuer0))
      by (apply elem_of_dom; vm_compute; eauto).
    rewrite <- Heq in Hin. apply elem_of_dom in Hin.
    vm_compute in Hin. destruct Hin; discriminate.
Defined.

(** ** The SQS queues *)

Lemma length_append (a b : string) :
  String.length (a ++ b) = (String.length a + String.length b)%nat.
Proof. induction a as [|c a IH]; simpl; [reflexivity | f_equal; exact IH]. Qed.

Lemma drop_append (a b : string) : GoStrings.drop (String.length a) (a ++ b) = b.
Proof. induction a as [|c a IH]; cbn; [destruct b; reflexivity | exact IH]. Qed.

Lemma append_assoc (a b c : string) : (a ++ b ++ c = (a ++ b) ++ c)%string.
Proof.
  induction a as [|x a IH]; [reflexivity|].
  change (String x (a ++ b ++ c) = String x ((a ++ b) ++ c))%string.
  f_equal. exact IH.
Qed.

Lemma HasSuffix_append (a b : string) : GoStrings.HasSuffix (a ++ b) b = true.
Proof.
  unfold GoStrings.HasSuffix. rewrite length_append.
  replace (String.length a + String.length b - String.length b)%nat
    with (String.length a) by lia.
  rewrite drop_append, String.eqb_refl, andb_true_r.
  apply Nat.leb_le. lia.
Qed.

Lemma index_cons (s1 : string) b s2 :
  String.index 0 s1 (String b s2)
  = if String.prefix s1 (String b s2) then Some 0%nat
    else match String.index 0 s1 s2 with Some n => Some (S n) | None => None end.
Proof. reflexivity. Qed.

Lemma prefix_colon b s2 :
  String.prefix ":" (String b s2) = if ascii_dec ":" b then true else false.
Proof. cbn -[ascii_dec]. destruct (ascii_dec ":" b), s2; reflexivity. Qed.

Lemma index_colon (region url : string) :
  String.index 0 ":" region = None ->
  String.index 0 ":" (region ++ String ":" url) = Some (String.length region)
  /\ String.substring 0 (String.length region) (region ++ String ":" url) = region.
Proof.
  induction region as [|c region IH].
  - intros _. destruct url; split; reflexivity.
  - change (String c region ++ String ":" url)%string
      with (String c (region ++ String ":" url)).
    rewrite !index_cons, !prefix_colon.
    destruct (ascii_dec ":" c) as [e|Hc]; [discriminate|].
    destruct (String.index 0 ":" region) as [n|] eqn:Hn; [discriminate|].
    intros _. destruct (IH eq_refl) as [IH1 IH2].
    rewrite IH1. cbn [String.length String.substring]. rewrite IH2.
    split; reflexivity.
Qed.

Lemma SplitN2_colon (region url : string) :
  String.index 0 ":" region = None ->
  GoStrings.SplitN2 (region ++ ":" ++ url) ":" = [region; url].
Proof.
  intros Hno. unfold GoStrings.SplitN2.
  change (":" ++ url)%string with (String ":" url).
  destruct (index_colon region url Hno) as [-> ->]. do 2 f_equal.
  clear. induction region as [|c region IH]; [reflexivity | exact IH].
Qed.

Lemma matching_sublist urlPath m qs result q :
  Sqs.matching urlPath m qs = inr result -> q ∈ result -> q ∈ qs.
Proof.
  revert result. induction qs as [|[u|] qs IH]; intros result Hm Hq; cbn in Hm.
  - injection Hm as <-. exact Hq.
  - destruct (urlPath u) as [path|]; [|discriminate].
    destruct (Sqs.matching urlPath m qs) as [e|queues]; [discriminate|].
    destruct (m _); injection Hm as <-.
    + apply elem_of_cons in Hq as [->|Hq]; [left | right; eauto].
    + right. eauto.
  - right. eauto.
Qed.

Lemma known_keys (region : string) (found : list string) (acc : gmap string unit) key :
  key ∈ dom (fold_left (fun known url => <[(region ++ ":" ++ url)%string := tt]> known)
                       found acc)
  -> key ∈ dom acc \/ exists url, url ∈ found /\ key = (region ++ ":" ++ url)%string.
Proof.
  revert acc. induction found as [|u found IH]; intros acc Hkey; cbn in Hkey.
  - left. exact Hkey.
  - apply IH in Hkey as [Hkey | (url & Hin & ->)].
    + rewrite dom_insert, elem_of_union, elem_of_singleton in Hkey.
      destruct Hkey as [-> | Hkey]; [right; exists u; split; [left | reflexivity] | auto].
    + right. exists url. split; [right; exact Hin | reflexivity].
Qed.

(** X18. Every queue [Refresh] returns, under whatever expression,
    is a queue [Exists] finds on the same listing when asked for it by
    the key [Refresh] gave it. *)
Theorem Refresh_keys_exist urlPath sq listed qNameMatch known key :
  Sqs.Refresh urlPath sq listed qNameMatch = (Some known, None) ->
  key ∈ dom known ->
  Sqs.Exists urlPath listed key = (true, None).
Proof.
  unfold Sqs.Refresh, Sqs.refresh, Sqs.Exists, Sqs.listQueues.
  intros Hrefresh Hkey.
  destruct listed as [qs|]; [|discriminate].
  assert (Hfound : exists result,
            (forall q, q ∈ result -> q ∈ qs)
            /\ known = fold_left (fun known url =>
                                   <[(Sqs.region sq ++ ":" ++ url)%string := tt]> known)
                                 (omap id result) ∅).
  { destruct qNameMatch as [m|].
    - destruct (Sqs.matching urlPath m qs) as [e|result] eqn:Hm; [discriminate|].
      injection Hrefresh as <-. exists result. split; [|reflexivity].
      intros q. apply (matching_sublist urlPath m qs result q Hm).
    - injection Hrefresh as <-. exists qs. split; [auto | reflexivity]. }
  destruct Hfound as (result & Hsub & ->).
  apply known_keys in Hkey as [Hkey | (url & Hin & ->)].
  { rewrite dom_empty in Hkey. inversion Hkey. }
  f_equal. apply existsb_exists. exists (Some url). split.
  - apply list_elem_of_In, Hsub. apply list_elem_of_omap in Hin as (q & Hq & Hid).
    cbn in Hid. subst q. exact Hq.
  - rewrite append_assoc. apply HasSuffix_append.
Qed.

Lemma Refresh_keys_exist_witness :
  Sqs.Exists (fun qURL => Some qURL)
             (Some [Some "https://sqs/q1"; None; Some "https://sqs/q2"]%string)
             "us-west-2:https://sqs/q2"
  = (true, None).
Proof.
  apply (Refresh_keys_exist (fun qURL => Some qURL)
           {| Sqs.project := "proj"; Sqs.region := "us-west-2" |}
           (Some [Some "https://sqs/q1"; None; Some "https://sqs/q2"]%string)
           (Some (fun name => String.eqb name "q2"))
           (<["us-west-2:https://sqs/q2"%string := tt]> ∅)).
  - vm_compute. reflexivity.
  - apply elem_of_dom. vm_compute. eauto.
Defined.

(** X19. [Work] panics exactly when the subscription it is given has
    no colon; given a key made of a region without a colon, a colon
    and a URL, as [Refresh] makes them, the handler is given that URL
    and every call on the service, of [Work] itself and of the
    goroutine that renews the visibility, is on that URL. *)
Theorem Work_splits_subscription sq qt session received done Handler renewed :
  (Sqs.Work sq qt session received done Handler renewed = None
   <-> String.index 0 ":" (Sqs.Subscription qt) = None)
  /\ forall region url w,
       String.index 0 ":" region = None ->
       Sqs.Subscription qt = (region ++ ":" ++ url)%string ->
       Sqs.Work sq qt session received done Handler renewed = Some w ->
       (forall qt', Sqs.handled w = Some qt' -> Sqs.Subscription qt' = url)
       /\ (forall c, c ∈ Sqs.calls w ++ Sqs.renewals w -> calledOn c = url).
Proof.
  split.
  - unfold Sqs.Work, GoStrings.SplitN2.
    destruct (String.index 0 ":" (Sqs.Subscription qt)) as [i|].
    + split; [|discriminate].
      destruct (negb session); [discriminate|].
      destruct received as [[|m ms]|]; try discriminate.
      destruct done; [discriminate|].
      destruct (Handler _) as [rsc [|]]; discriminate.
    + split; reflexivity.
  - intros region url w Hregion Hsub Hw. unfold Sqs.Work in Hw.
    rewrite Hsub, (SplitN2_colon region url Hregion) in Hw.
    assert (Hnothing : forall calls e,
              Some {| Sqs.msgCnt := 0; Sqs.resource := None; Sqs.err := e;
                      Sqs.calls := calls; Sqs.renewals := []; Sqs.handled := None |}
              = Some w ->
              (forall c, c ∈ calls -> calledOn c = url) ->
              (forall qt', Sqs.handled w = Some qt' -> Sqs.Subscription qt' = url)
              /\ (forall c, c ∈ Sqs.calls w ++ Sqs.renewals w -> calledOn c = url)).
    { intros calls e [= <-] Hcalls. cbn. split; [discriminate|].
      intros c Hc. rewrite app_nil_r in Hc. apply Hcalls, Hc. }
    assert (Hreceive : forall c, c ∈ [Sqs.ReceiveMessage url 30 5] -> calledOn c = url).
    { intros c Hc. apply list_elem_of_singleton in Hc as ->. reflexivity. }
    destruct (negb session); [apply (Hnothing _ _ Hw); intros c Hc; inversion Hc|].
    destruct received as [[|m ms]|]; try (apply (Hnothing _ _ Hw Hreceive)).
    destruct done; [apply (Hnothing _ _ Hw Hreceive)|].
    destruct (Handler _) as [rsc ack].
    assert (Hrenew : forall c,
              c ∈ map (fun late : bool =>
                         Sqs.ChangeMessageVisibility url (Sqs.ReceiptHandle m)
                           (if late && negb ack then 0 else 30)) renewed ->
              calledOn c = url).
    { intros c Hc. apply list_elem_of_fmap in Hc as (late & -> & _). reflexivity. }
    destruct ack; injection Hw as <-; cbn [Sqs.handled Sqs.calls Sqs.renewals];
      (split; [intros qt' [= <-]; reflexivity|]);
      intros c Hc; apply elem_of_app in Hc as [Hc | Hc]; try (apply Hrenew, Hc);
      repeat (apply elem_of_cons in Hc as [-> | Hc]; [reflexivity|]); inversion Hc.
Qed.

(** X20. What [Work] returns adds up: it counts no message or one;
    with an error it counts none; counting none it has run no handler,
    started no renewal and returns no resource, and has called the
    queue at most to receive; counting one it has run the handler
    once, on the body of the first message received and under the
    project of the queue, and has itself called the queue twice: to
    receive, and then for that message a delete when the handler
    acknowledged, and then the handler's resource is returned, or a
    visibility of zero when it did not, and then no resource is.
    Every renewal beside it is a change of the visibility of that
    message to 30, or to 0 where the handler did not acknowledge and
    the renewal came late. *)
Theorem Work_accounts sq qt session received done Handler renewed w :
  Sqs.Work sq qt session received done Handler renewed = Some w ->
  (Sqs.msgCnt w = 0 \/ Sqs.msgCnt w = 1)
  /\ (Sqs.err w <> None -> Sqs.msgCnt w = 0)
  /\ (Sqs.msgCnt w = 0 ->
      Sqs.handled w = None /\ Sqs.resource w = None /\ Sqs.renewals w = []
      /\ (Sqs.calls w = []
          \/ exists url, Sqs.calls w = [Sqs.ReceiveMessage url 30 5]))
  /\ (Sqs.msgCnt w = 1 ->
      exists m rest qt',
        received = Some (m :: rest)
        /\ Sqs.handled w = Some qt'
        /\ Sqs.Msg qt' = Sqs.Body m
        /\ Sqs.Project qt' = Sqs.project sq
        /\ Sqs.calls w
           = [Sqs.ReceiveMessage (Sqs.Subscription qt') 30 5;
              if (Handler qt').2
              then Sqs.DeleteMessage (Sqs.Subscription qt') (Sqs.ReceiptHandle m)
              else Sqs.ChangeMessageVisibility (Sqs.Subscription qt')
                                               (Sqs.ReceiptHandle m) 0]
        /\ Sqs.resource w = (if (Handler qt').2 then (Handler qt').1 else None)
        /\ length (Sqs.renewals w) = length renewed
        /\ forall c, c ∈ Sqs.renewals w ->
              c = Sqs.ChangeMessageVisibility (Sqs.Subscription qt')
                                              (Sqs.ReceiptHandle m) 30
              \/ ((Handler qt').2 = false
                  /\ c = Sqs.ChangeMessageVisibility (Sqs.Subscription qt')
                                                     (Sqs.ReceiptHandle m) 0)).
Proof.
  unfold Sqs.Work.
  destruct (GoStrings.SplitN2 (Sqs.Subscription qt) ":") as [|region [|url more]];
    try discriminate.
  assert (Hnothing : forall calls e,
    calls = [] \/ calls = [Sqs.ReceiveMessage url 30 5] ->
    Some {| Sqs.msgCnt := 0; Sqs.resource := None; Sqs.err := e; Sqs.calls := calls;
            Sqs.renewals := []; Sqs.handled := None |} = Some w ->
    (Sqs.msgCnt w = 0 \/ Sqs.msgCnt w = 1)
    /\ (Sqs.err w <> None -> Sqs.msgCnt w = 0)
    /\ (Sqs.msgCnt w = 0 ->
        Sqs.handled w = None /\ Sqs.resource w = None /\ Sqs.renewals w = []
        /\ (Sqs.calls w = []
            \/ exists url, Sqs.calls w = [Sqs.ReceiveMessage url 30 5]))
    /\ (Sqs.msgCnt w = 1 ->
        exists m rest qt',
          received = Some (m :: rest)
          /\ Sqs.handled w = Some qt'
          /\ Sqs.Msg qt' = Sqs.Body m
          /\ Sqs.Project qt' = Sqs.project sq
          /\ Sqs.calls w
             = [Sqs.ReceiveMessage (Sqs.Subscription qt') 30 5;
                if (Handler qt').2
                then Sqs.DeleteMessage (Sqs.Subscription qt') (Sqs.ReceiptHandle m)
                else Sqs.ChangeMessageVisibility (Sqs.Subscription qt')
                                                 (Sqs.ReceiptHandle m) 0]
          /\ Sqs.resource w = (if (Handler qt').2 then (Handler qt').1 else None)
          /\ length (Sqs.renewals w) = length renewed
          /\ forall c, c ∈ Sqs.renewals w ->
                c = Sqs.ChangeMessageVisibility (Sqs.Subscription qt')
                                                (Sqs.ReceiptHandle m) 30
                \/ ((Handler qt').2 = false
                    /\ c = Sqs.ChangeMessageVisibility (Sqs.Subscription qt')
                                                       (Sqs.ReceiptHandle m) 0))).
  { intros calls e Hcalls [= <-]. cbn. split; [left; reflexivity|]. split; [reflexivity|].
    split; [|discriminate]. intros _. split; [reflexivity|]. split; [reflexivity|].
    split; [reflexivity|]. destruct Hcalls as [-> | ->]; [left | right; exists url];
      reflexivity. }
  destruct (negb session); [apply Hnothing; left; reflexivity|].
  destruct received as [[|m ms]|]; try (apply Hnothing; right; reflexivity).
  destruct done; [apply Hnothing; right; reflexivity|]. clear Hnothing.
  destruct (Handler _) as [rsc ack] eqn:Hhandler.
  destruct ack; intros [= <-]; cbn;
    (split; [right; reflexivity|]); (split; [intros H; contradiction|]);
    (split; [discriminate|]); intros _;
    eexists m, ms, _; (split; [reflexivity|]); (split; [reflexivity|]);
    rewrite Hhandler; cbn;
    (split; [reflexivity|]); (split; [reflexivity|]); (split; [reflexivity|]);
    (split; [reflexivity|]); (split; [apply length_map|]);
    intros c Hc; apply list_elem_of_fmap in Hc as (late & -> & _).
  - left. rewrite andb_false_r. reflexivity.
  - destruct late; [right; split; reflexivity | left; reflexivity].
Qed.

Lemma Work_accounts_witness :
  let sq := {| Sqs.project := "proj"; Sqs.region := "us-west-2" |} in
  let qt := {| Sqs.FQProject := "fq"; Sqs.Project := EmptyString; Sqs.QueueType := "sqs";
               Sqs.Subscription := "us-west-2:https://sqs/q1";
               Sqs.Credentials := "creds"; Sqs.Msg := EmptyString |} in
  let w := {| Sqs.msgCnt := 1; Sqs.resource := None; Sqs.err := None;
              Sqs.calls := [Sqs.ReceiveMessage "https://sqs/q1" 30 5;
                            Sqs.ChangeMessageVisibility "https://sqs/q1" "h1" 0];
              Sqs.renewals := [Sqs.ChangeMessageVisibility "https://sqs/q1" "h1" 30;
                               Sqs.ChangeMessageVisibility "https://sqs/q1" "h1" 0];
              Sqs.handled :=
                Some {| Sqs.FQProject := "fq"; Sqs.Project := "proj";
                        Sqs.QueueType := "sqs"; Sqs.Subscription := "https://sqs/q1";
                        Sqs.Credentials := "creds"; Sqs.Msg := "body" |} |} in
  Sqs.msgCnt w = 0 \/ Sqs.msgCnt w = 1.
Proof.
  intros sq qt w.
  destruct (Work_accounts sq qt true
              (Some [{| Sqs.Body := "body"; Sqs.ReceiptHandle := "h1" |}]) false
              (fun _ => (Some Runner.zeroResource, false)) [false; true] w eq_refl)
    as (Hcnt & _).
  exact Hcnt.
Defined.

(** ** Choosing the queue implementation *)

(** X21. [NewTaskQueue] goes for SQS exactly when the credentials do
    not end in [.json], the project does not start with [amqp://] and
    every file the credentials name can be found; when it fails, it
    fails on the first file in the credentials that cannot be found,
    and only where it would otherwise have gone for SQS. *)
Theorem NewTaskQueue_selects stat project creds :
  (TaskQueue.NewTaskQueue stat project creds = inr TaskQueue.SQS
   <-> GoStrings.HasSuffix creds ".json" = false
       /\ GoStrings.HasPrefix project "amqp://" = false
       /\ forall file, file ∈ GoStrings.Split creds "," -> stat file = true)
  /\ (forall file,
        TaskQueue.NewTaskQueue stat project creds = inl file ->
        GoStrings.HasSuffix creds ".json" = false
        /\ GoStrings.HasPrefix project "amqp://" = false
        /\ exists found rest,
             GoStrings.Split creds "," = found ++ file :: rest
             /\ stat file = false
             /\ forall f, f ∈ found -> stat f = true).
Proof.
  unfold TaskQueue.NewTaskQueue.
  destruct (GoStrings.HasSuffix creds ".json").
  { split; [split; [discriminate | intros [? _]; discriminate] | discriminate]. }
  destruct (GoStrings.HasPrefix project "amqp://").
  { split; [split; [discriminate | intros (_ & ? & _); discriminate] | discriminate]. }
  induction (GoStrings.Split creds ",") as [|f files [IH1 IH2]]; cbn.
  - split; [|discriminate]. split; [|reflexivity].
    intros _. repeat split. intros file Hfile. inversion Hfile.
  - destruct (stat f) eqn:Hf; cbn.
    + split.
      * rewrite IH1. split; intros (_ & _ & Hall); repeat split.
        -- intros file Hfile. apply elem_of_cons in Hfile as [-> | Hfile]; auto.
        -- intros file Hfile. apply Hall. right. exact Hfile.
      * intros file Hfile. destruct (IH2 file Hfile) as (_ & _ & found & rest & -> & Hno & Hall).
        repeat split. exists (f :: found), rest. repeat split; [exact Hno|].
        intros f' Hf'. apply elem_of_cons in Hf' as [-> | Hf']; auto.
    + split.
      * split; [discriminate|]. intros (_ & _ & Hall).
        rewrite Hall in Hf by left. discriminate.
      * intros file [= <-]. repeat split. exists [], files. repeat split; [exact Hf|].
        intros f' Hf'. inversion Hf'.
Qed.

(** ** The packages of the python environment *)

Lemma groom_pkgs hasGPU st pkg :
  groomedOut pkg = true /\ PythonEnv.pkgs (PythonEnv.groom hasGPU st pkg) = PythonEnv.pkgs st
  \/ groomedOut pkg = false
     /\ exists pkg', PythonEnv.pkgs (PythonEnv.groom hasGPU st pkg) = PythonEnv.pkgs st ++ [pkg']
                     /\ (pkg' = pkg
                         \/ hasGPU = true /\ plainTensorflow pkg = true
                            /\ GoStrings.HasPrefix pkg "tensorflow_gpu" = false
                            /\ exists version, pkg' = ("tensorflow_gpu" ++ version)%string).
Proof.
  unfold PythonEnv.groom, groomedOut, plainTensorflow.
  destruct (GoStrings.HasPrefix pkg "studioml=="); [left; split; reflexivity|].
  destruct (GoStrings.HasPrefix pkg "pkg-resources"); [left; split; reflexivity|].
  right. split; [reflexivity|].
  destruct (GoStrings.HasPrefix pkg "tensorflow_gpu") eqn:Hgpu.
  { rewrite andb_false_r. cbn. eauto. }
  destruct hasGPU; [|cbn; eauto].
  destruct (PythonEnv.gpuSeen st); [cbn; eauto|].
  destruct (GoStrings.HasPrefix pkg "tensorflow==" || String.eqb pkg "tensorflow");
    [|cbn; eauto].
  cbn [andb negb].
  destruct (length (GoStrings.Split pkg "==") <? 2)%nat; cbn [PythonEnv.pkgs].
  - eexists. split; [reflexivity|]. right. repeat split. exists EmptyString. reflexivity.
  - eexists. split; [reflexivity|]. right. repeat split. eexists. reflexivity.
Qed.

Lemma fold_groom_inv (I : PythonEnv.groomed -> Prop) hasGPU l st :
  I st ->
  (forall st pkg, pkg ∈ l -> I st -> I (PythonEnv.groom hasGPU st pkg)) ->
  I (fold_left (PythonEnv.groom hasGPU) l st).
Proof.
  revert st. induction l as [|pkg l IH]; intros st Hst Hstep; [exact Hst|].
  cbn. apply IH.
  - apply Hstep; [left | exact Hst].
  - intros st' pkg' Hin. apply Hstep. right. exact Hin.
Qed.

Lemma groom_studioML hasGPU st pkg :
  PythonEnv.studioML (PythonEnv.groom hasGPU st pkg) = PythonEnv.studioML st
  \/ PythonEnv.studioML (PythonEnv.groom hasGPU st pkg) = pkg
     /\ GoStrings.HasPrefix pkg "studioml==" = true.
Proof.
  unfold PythonEnv.groom.
  destruct (GoStrings.HasPrefix pkg "studioml=="); [right; split; reflexivity|].
  destruct (GoStrings.HasPrefix pkg "pkg-resources"); [left; reflexivity|].
  destruct (_ && _); [destruct (_ <? _)%nat|]; left; reflexivity.
Qed.

Lemma groomedOut_gpu version : groomedOut ("tensorflow_gpu" ++ version) = false.
Proof. reflexivity. Qed.

Lemma plainTensorflow_gpu version : plainTensorflow ("tensorflow_gpu" ++ version) = false.
Proof. reflexivity. Qed.

Lemma groom_kept hasGPU l st :
  (forall p, p ∈ PythonEnv.pkgs st -> groomedOut p = false) ->
  forall p, p ∈ PythonEnv.pkgs (fold_left (PythonEnv.groom hasGPU) l st) ->
            groomedOut p = false.
Proof.
  intros Hst.
  apply (fold_groom_inv (fun st => forall p, p ∈ PythonEnv.pkgs st -> groomedOut p = false));
    [exact Hst|].
  clear st Hst. intros st pkg _ Hst p Hp.
  destruct (groom_pkgs hasGPU st pkg) as [(_ & Heq) | (Hout & pkg' & Heq & Hpkg')];
    rewrite Heq in Hp; [auto|].
  apply elem_of_app in Hp as [Hp | Hp]; [auto|].
  apply list_elem_of_singleton in Hp as ->.
  destruct Hpkg' as [-> | (_ & _ & _ & version & ->)];
    [exact Hout | apply groomedOut_gpu].
Qed.

Lemma groom_studio hasGPU l st (all : list string) :
  (forall p, p ∈ l -> p ∈ all) ->
  PythonEnv.studioML st = EmptyString
  \/ GoStrings.HasPrefix (PythonEnv.studioML st) "studioml==" = true
     /\ PythonEnv.studioML st ∈ all ->
  let st' := fold_left (PythonEnv.groom hasGPU) l st in
  PythonEnv.studioML st' = EmptyString
  \/ GoStrings.HasPrefix (PythonEnv.studioML st') "studioml==" = true
     /\ PythonEnv.studioML st' ∈ all.
Proof.
  intros Hall Hst.
  apply (fold_groom_inv
           (fun st => PythonEnv.studioML st = EmptyString
                      \/ GoStrings.HasPrefix (PythonEnv.studioML st) "studioml==" = true
                         /\ PythonEnv.studioML st ∈ all)); [exact Hst|].
  clear st Hst. intros st pkg Hin Hst.
  destruct (groom_studioML hasGPU st pkg) as [-> | (-> & Hprefix)]; [exact Hst|].
  right. split; [exact Hprefix | apply Hall, Hin].
Qed.

(** X22. Neither list [pythonModules] returns holds a package whose
    name starts with [studioml==] or with [pkg-resources]; the
    studioML package it returns is empty or is one of the request's
    packages whose name starts with [studioml==]. *)
Theorem pythonModules_grooms {G} (rqst : Runner.Request) (alloc : PythonEnv.Allocated G) :
  let r := PythonEnv.pythonModules rqst alloc in
  (forall p, p ∈ r.1.1.1 ++ r.1.1.2 -> groomedOut p = false)
  /\ (r.1.2 = EmptyString
      \/ GoStrings.HasPrefix r.1.2 "studioml==" = true /\ r.1.2 ∈ packagesOf rqst).
Proof.
  unfold PythonEnv.pythonModules, packagesOf. cbn [fst snd]. split.
  - intros p Hp. apply elem_of_app in Hp as [Hp | Hp];
      (eapply groom_kept; [|exact Hp]); intros q Hq; inversion Hq.
  - apply groom_studio; [intros p Hp; apply elem_of_app; right; exact Hp|].
    cbn [PythonEnv.studioML].
    apply groom_studio; [intros p Hp; apply elem_of_app; left; exact Hp|].
    left. reflexivity.
Qed.

Lemma groom_plain l st :
  PythonEnv.pkgs (fold_left (PythonEnv.groom false) l st)
  = PythonEnv.pkgs st ++ List.filter (fun pkg => negb (groomedOut pkg)) l
  /\ PythonEnv.tfVer (fold_left (PythonEnv.groom false) l st) = PythonEnv.tfVer st.
Proof.
  revert st. induction l as [|pkg l IH]; intros st; cbn [fold_left List.filter].
  - rewrite app_nil_r. split; reflexivity.
  - destruct (IH (PythonEnv.groom false st pkg)) as [-> ->].
    unfold PythonEnv.groom, groomedOut.
    destruct (GoStrings.HasPrefix pkg "studioml=="); [split; reflexivity|].
    destruct (GoStrings.HasPrefix pkg "pkg-resources"); [split; reflexivity|].
    cbn. rewrite <- app_assoc. split; reflexivity.
Qed.

(** X23. With no GPU allocated, [pythonModules] returns the packages
    of the experiment and those of the configuration as they are
    and in their order, less the ones whose name starts with
    [studioml==] or [pkg-resources], and no tensorflow version. *)
Theorem pythonModules_without_gpu {G} (rqst : Runner.Request)
    (alloc : PythonEnv.Allocated G) :
  PythonEnv.GPU alloc = [] ->
  let r := PythonEnv.pythonModules rqst alloc in
  r.1.1.1 = List.filter (fun pkg => negb (groomedOut pkg))
                        (default [] (Runner.Pythonenv (Runner.Experiment_ rqst)))
  /\ r.1.1.2 = List.filter (fun pkg => negb (groomedOut pkg))
                           (default [] (Runner.Pip (Runner.Config_ rqst)))
  /\ r.2 = EmptyString.
Proof.
  intros Hgpu. unfold PythonEnv.pythonModules. rewrite Hgpu. cbn [length Nat.eqb negb fst snd].
  split; [|split].
  - apply groom_plain.
  - apply groom_plain.
  - rewrite (proj2 (groom_plain _ _)). cbn [PythonEnv.tfVer].
    rewrite (proj2 (groom_plain _ _)). reflexivity.
Qed.

Lemma pythonModules_without_gpu_witness :
  let r := PythonEnv.pythonModules
             (requestWith ["pkg-resources==0.0.0"; "tensorflow==1.4.1"; "scipy"]%string
                          ["studioml==0.1"; "numpy"]%string)
             {| PythonEnv.GPU := @nil unit |} in
  r.1.1.1 = ["tensorflow==1.4.1"; "scipy"]%string
  /\ r.1.1.2 = ["numpy"]%string /\ r.2 = EmptyString.
Proof.
  intros r.
  apply (pythonModules_without_gpu
           (requestWith ["pkg-resources==0.0.0"; "tensorflow==1.4.1"; "scipy"]%string
                        ["studioml==0.1"; "numpy"]%string)
           {| PythonEnv.GPU := @nil unit |}).
  reflexivity.
Defined.

Lemma groom_gpu l st :
  (forall p, p ∈ l -> GoStrings.HasPrefix p "tensorflow_gpu" = false) ->
  PythonEnv.gpuSeen st = false ->
  (forall p, p ∈ PythonEnv.pkgs st -> plainTensorflow p = false) ->
  let st' := fold_left (PythonEnv.groom true) l st in
  PythonEnv.gpuSeen st' = false
  /\ forall p, p ∈ PythonEnv.pkgs st' -> plainTensorflow p = false.
Proof.
  intros Hl Hseen Hst.
  apply (fold_groom_inv
           (fun st => PythonEnv.gpuSeen st = false
                      /\ forall p, p ∈ PythonEnv.pkgs st -> plainTensorflow p = false));
    [split; assumption|].
  clear st Hseen Hst. intros st pkg Hin [Hseen Hst].
  specialize (Hl pkg Hin). unfold PythonEnv.groom. fold (plainTensorflow pkg).
  destruct (GoStrings.HasPrefix pkg "studioml=="); [split; assumption|].
  destruct (GoStrings.HasPrefix pkg "pkg-resources"); [split; assumption|].
  rewrite Hl, Hseen. cbn [andb negb].
  destruct (plainTensorflow pkg) eqn:Hplain.
  - destruct (_ <? _)%nat; cbn [PythonEnv.gpuSeen PythonEnv.pkgs];
      (split; [reflexivity|]); intros p Hp;
      (apply elem_of_app in Hp as [Hp | Hp]; [auto|]);
      apply list_elem_of_singleton in Hp as ->; reflexivity.
  - cbn [PythonEnv.gpuSeen PythonEnv.pkgs]. split; [reflexivity|]. intros p Hp.
    apply elem_of_app in Hp as [Hp | Hp]; [auto|].
    apply list_elem_of_singleton in Hp as ->. exact Hplain.
Qed.

(** X24. With a GPU allocated and no package of the request named
    for [tensorflow_gpu] already, neither list [pythonModules]
    returns asks for the plain build of tensorflow any more. *)
Theorem pythonModules_with_gpu {G} (rqst : Runner.Request)
    (alloc : PythonEnv.Allocated G) :
  PythonEnv.GPU alloc <> [] ->
  (forall p, p ∈ packagesOf rqst -> GoStrings.HasPrefix p "tensorflow_gpu" = false) ->
  let r := PythonEnv.pythonModules rqst alloc in
  forall p, p ∈ r.1.1.1 ++ r.1.1.2 -> plainTensorflow p = false.
Proof.
  intros Hgpu Hnone. unfold PythonEnv.pythonModules, packagesOf in *.
  destruct (PythonEnv.GPU alloc) as [|g gs]; [contradiction|].
  cbn [length Nat.eqb negb fst snd].
  assert (Hgeneral := groom_gpu
            (default [] (Runner.Pythonenv (Runner.Experiment_ rqst)))
            {| PythonEnv.pkgs := []; PythonEnv.studioML := EmptyString;
               PythonEnv.tfVer := EmptyString; PythonEnv.gpuSeen := false |}).
  destruct Hgeneral as [Hseen Hplain];
    [intros p Hp; apply Hnone, elem_of_app; left; exact Hp | reflexivity
     | intros p Hp; inversion Hp |].
  intros p Hp. apply elem_of_app in Hp as [Hp | Hp]; [apply Hplain, Hp|].
  eapply groom_gpu; [| | |exact Hp].
  - intros q Hq. apply Hnone, elem_of_app. right. exact Hq.
  - exact Hseen.
  - intros q Hq. inversion Hq.
Qed.

Lemma pythonModules_with_gpu_witness :
  let r := PythonEnv.pythonModules
             (requestWith ["pkg-resources==0.0.0"; "tensorflow==1.4.1"; "scipy"]%string
                          ["tensorflow"; "numpy"]%string)
             {| PythonEnv.GPU := [tt] |} in
  Forall (fun p => plainTensorflow p = false) (r.1.1.1 ++ r.1.1.2).
Proof.
  intros r. apply Forall_forall.
  apply (pythonModules_with_gpu
           (requestWith ["pkg-resources==0.0.0"; "tensorflow==1.4.1"; "scipy"]%string
                        ["tensorflow"; "numpy"]%string)
           {| PythonEnv.GPU := [tt] |}).
  - discriminate.
  - intros p Hp. vm_compute in Hp.
    repeat (apply elem_of_cons in Hp as [-> | Hp]; [reflexivity|]).
    inversion Hp.
Defined.

(** ** The manifest of an experiment *)

Lemma manifestEntry_asserted manifest name artifact :
  Firebase.manifestEntry manifest name artifact
  = if asserted artifact
    then Some (match described artifact with
               | Some a => <[name := a]> manifest
               | None => manifest
               end)
    else None.
Proof.
  unfold Firebase.manifestEntry, asserted, described.
  destruct artifact as [| | | | |m]; try reflexivity.
  destruct (m !! "key"%string) as [archive|]; [|reflexivity].
  destruct (m !! "mutable"%string) as [mutable|]; [|destruct archive; reflexivity].
  destruct archive, mutable; reflexivity.
Qed.

Lemma manifest_fold (artifacts : gmap string Runner.any) (l : list string) acc :
  (forall k, k ∈ l -> is_Some (artifacts !! k)) ->
  let r := fold_left
             (fun acc name =>
                manifest ← acc;
                artifact ← artifacts !! name;
                Firebase.manifestEntry manifest name artifact)
             l acc in
  ((forall k a, k ∈ l -> artifacts !! k = Some a -> asserted a = true) ->
   forall m0, acc = Some m0 ->
   exists m, r = Some m
             /\ forall k, m !! k = match (if decide (k ∈ l)
                                          then artifacts !! k ≫= described else None) with
                                   | Some a => Some a
                                   | None => m0 !! k
                                   end)
  /\ ((acc = None \/ exists k a, k ∈ l /\ artifacts !! k = Some a /\ asserted a = false) ->
      r = None).
Proof.
  revert acc. induction l as [|name l IH]; intros acc Hin; cbn [fold_left].
  - split.
    + intros _ m0 ->. exists m0. split; [reflexivity|]. intros k.
      rewrite decide_False by apply not_elem_of_nil. reflexivity.
    + intros [-> | (k & a & Hk & _)]; [reflexivity | inversion Hk].
  - destruct (Hin name ltac:(left)) as [a Ha].
    specialize (IH (manifest ← acc; artifact ← artifacts !! name;
                    Firebase.manifestEntry manifest name artifact)
                   (fun k Hk => Hin k ltac:(right; exact Hk))).
    cbv zeta in IH. destruct IH as [IHok IHno]. split.
    + intros Hall m0 ->.
      assert (Hstep : (manifest ← Some m0; artifact ← artifacts !! name;
                       Firebase.manifestEntry manifest name artifact)
                      = Some (match described a with
                              | Some x => <[name := x]> m0
                              | None => m0
                              end)).
      { change (artifacts !! name ≫= Firebase.manifestEntry m0 name = Some
                  (match described a with
                   | Some x => <[name := x]> m0
                   | None => m0
                   end)).
        rewrite Ha. change (Firebase.manifestEntry m0 name a = Some
                  (match described a with
                   | Some x => <[name := x]> m0
                   | None => m0
                   end)).
        rewrite manifestEntry_asserted, (Hall name a ltac:(left) Ha). reflexivity. }
      rewrite Hstep in IHok |- *.
      destruct (IHok (fun k a' Hk => Hall k a' ltac:(right; exact Hk)) _ eq_refl)
        as (m & -> & Hm).
      exists m. split; [reflexivity|]. intros k. rewrite Hm.
      destruct (decide (k = name)) as [->|Hne].
      * rewrite (decide_True (P := name ∈ name :: l)) by left.
        rewrite Ha. change (Some a ≫= described) with (described a).
        destruct (decide (name ∈ l)), (described a); try reflexivity.
        apply lookup_insert_eq.
      * assert (Hiff : k ∈ name :: l <-> k ∈ l).
        { rewrite elem_of_cons. tauto. }
        rewrite (decide_ext (k ∈ name :: l) (k ∈ l) _ _ Hiff).
        destruct (if decide (k ∈ l) then artifacts !! k ≫= described else None);
          [reflexivity|].
        destruct (described a); [apply lookup_insert_ne; congruence | reflexivity].
    + intros [-> | (k & a' & Hk & Ha' & Hbad)]; [apply IHno; left; reflexivity|].
      apply elem_of_cons in Hk as [-> | Hk].
      * apply IHno. left. destruct acc as [m0|]; [|reflexivity].
        change (artifacts !! name ≫= Firebase.manifestEntry m0 name = None).
        rewrite Ha'. change (Firebase.manifestEntry m0 name a' = None).
        rewrite manifestEntry_asserted, Hbad. reflexivity.
      * apply IHno. right. eauto.
Qed.

(** X25. In whatever order the artifacts are ranged over,
    [GetManifest] panics when one of them is not an object, or has a
    key that is not a string or a mutable flag that is not a boolean
    beside the other; otherwise its manifest has exactly the
    artifacts that carry both, each with its key and flag. *)
Theorem GetManifest_describes
    (rangeKeys : forall V, gmap string V -> list string)
    (artifacts : gmap string Runner.any) :
  ranges rangeKeys ->
  ((forall name a, artifacts !! name = Some a -> asserted a = true) ->
   Firebase.GetManifest rangeKeys (Some artifacts) = Firebase.Manifest (omap described artifacts))
  /\ ((exists name a, artifacts !! name = Some a /\ asserted a = false) ->
      Firebase.GetManifest rangeKeys (Some artifacts) = Firebase.Panics).
Proof.
  intros Hranges. unfold Firebase.GetManifest.
  destruct (manifest_fold artifacts (rangeKeys Runner.any artifacts) (Some ∅))
    as [Hok Hno].
  { intros k Hk. apply (ranges_elem_of _ _ _ _ Hranges). exact Hk. }
  split.
  - intros Hall. destruct (Hok (fun k a _ => Hall k a) ∅ eq_refl) as (m & -> & Hm).
    f_equal. apply map_eq. intros k. rewrite Hm, lookup_omap, lookup_empty.
    destruct (decide (k ∈ rangeKeys Runner.any artifacts)) as [Hk|Hk].
    + destruct (artifacts !! k ≫= described); reflexivity.
    + assert (Hnone : artifacts !! k = None).
      { apply eq_None_not_Some. intros Hsome. apply Hk.
        apply (ranges_elem_of _ _ _ _ Hranges). exact Hsome. }
      rewrite Hnone. reflexivity.
  - intros (name & a & Ha & Hbad). rewrite Hno; [reflexivity|].
    right. exists name, a. split; [|split; assumption].
    apply (ranges_elem_of _ _ _ _ Hranges). eauto.
Qed.

Lemma GetManifest_describes_witness :
  Firebase.GetManifest rangeInOrder
    (Some (<["workspace" := Runner.AnyMap
                              (<["key" := Runner.AnyString "w.tgz"]>
                                 (<["mutable" := Runner.AnyBool true]> ∅))]>
             (<["output" := Runner.AnyMap ∅]> ∅)))
  = Firebase.Manifest
      (omap described
            (<["workspace" := Runner.AnyMap
                                (<["key" := Runner.AnyString "w.tgz"]>
                                   (<["mutable" := Runner.AnyBool true]> ∅))]>
               (<["output" := Runner.AnyMap ∅]> ∅))).
Proof.
  apply (GetManifest_describes rangeInOrder _ rangeInOrder_ranges).
  intros name a Ha.
  destruct (decide (name = "workspace"%string)) as [->|Hw].
  - rewrite lookup_insert_eq in Ha. injection Ha as <-. reflexivity.
  - rewrite lookup_insert_ne in Ha by congruence.
    destruct (decide (name = "output"%string)) as [->|Ho].
    + rewrite lookup_insert_eq in Ha. injection Ha as <-. reflexivity.
    + rewrite lookup_insert_ne in Ha by congruence. discriminate.
Defined.

(** ** Requests as JSON, further *)

Lemma field_skip {T} (dec : T -> Runner.json -> option T) tag ms1 k v ms2 cur :
  isASCII (Runner.foldName tag) = true ->
  Runner.fieldIs tag k = false ->
  Runner.field dec tag (ms1 ++ (k, v) :: ms2) cur = Runner.field dec tag (ms1 ++ ms2) cur.
Proof.
  intros Htag Hk. unfold Runner.field. rewrite !fold_left_app. cbn [fold_left fst snd].
  rewrite (fieldIs_coerce tag k Htag Hk). reflexivity.
Qed.

(** X26. A member of the message whose name matches neither
    [config] nor [experiment] makes no difference to what
    [UnmarshalRequest] returns, wherever it stands and whatever its
    value. *)
Theorem UnmarshalRequest_ignores_unknown
    (ParseFloat : string -> option Runner.float64)
    (ms1 ms2 : list (string * Runner.json)) (k : string) (v : Runner.json) :
  Runner.fieldIs "config" k = false ->
  Runner.fieldIs "experiment" k = false ->
  Runner.UnmarshalRequest ParseFloat (Runner.JObj (ms1 ++ (k, v) :: ms2))
  = Runner.UnmarshalRequest ParseFloat (Runner.JObj (ms1 ++ ms2)).
Proof.
  intros Hconfig Hexperiment.
  unfold Runner.UnmarshalRequest, Runner.decStruct, Runner.decodeRequest.
  rewrite !(field_skip _ _ ms1 k v ms2) by (assumption || reflexivity). reflexivity.
Qed.

Lemma UnmarshalRequest_ignores_unknown_witness :
  Runner.UnmarshalRequest ParseZero message0
  = Runner.UnmarshalRequest ParseZero
      (Runner.JObj (firstn 1 (match message0 with Runner.JObj ms => ms | _ => [] end)
                      ++ skipn 2 (match message0 with Runner.JObj ms => ms | _ => [] end))).
Proof.
  apply (UnmarshalRequest_ignores_unknown ParseZero
           (firstn 1 (match message0 with Runner.JObj ms => ms | _ => [] end))
           (skipn 2 (match message0 with Runner.JObj ms => ms | _ => [] end))
           "trace_id" (Runner.JStr "abc"));
    vm_compute; reflexivity.
Defined.

(** X27. The integers of a request [UnmarshalRequest] has returned
    are within their Go types, so that what [Marshal] writes for it
    is read back by [UnmarshalRequest] as that same request: after
    the first parse, serializing and parsing again changes nothing. *)
Theorem Unmarshal_Marshal_stable
    (FormatFloat : Runner.float64 -> option string)
    (ParseFloat : string -> option Runner.float64)
    (doc doc' : Runner.json) (r : Runner.Request) :
  (forall f lit, FormatFloat f = Some lit -> ParseFloat lit = Some f) ->
  Runner.UnmarshalRequest ParseFloat doc = Some r ->
  Runner.Marshal FormatFloat r = Some doc' ->
  validRequest r /\ Runner.UnmarshalRequest ParseFloat doc' = Some r.
Proof.
  intros Hfloat Hr Hdoc.
  pose proof (UnmarshalRequest_valid ParseFloat doc r Hr) as Hvalid.
  split; [exact Hvalid|]. destruct Hvalid as (Hs & Hv & Hc & Hg).
  destruct (UnmarshalRequest_text ParseFloat doc r Hr) as [Htc Hte].
  unfold Runner.Marshal in Hdoc.
  destruct (Runner.encConfig FormatFloat (Runner.Config_ r)) as [config|] eqn:Econfig;
    [|discriminate].
  destruct (Runner.encExperiment FormatFloat (Runner.Experiment_ r)) as [experiment|]
    eqn:Eexperiment; [|discriminate].
  cbn in Hdoc. injection Hdoc as <-.
  pose proof (decodeConfig_enc FormatFloat ParseFloat Hfloat _ _ Hs Htc Econfig) as Hcfg.
  pose proof (decodeExperiment_enc FormatFloat ParseFloat Hfloat _ _ Hv Hc Hg Hte
                Eexperiment) as Hexp.
  unfold Runner.UnmarshalRequest, Runner.decStruct at 1, Runner.decodeRequest.
  route. destruct r; reflexivity.
Qed.

Lemma Unmarshal_Marshal_stable_witness :
  exists doc',
    Runner.Marshal FormatZero request1 = Some doc'
    /\ doc' <> message0
    /\ Runner.UnmarshalRequest ParseZero doc' = Some request1.
Proof.
  eexists. split; [vm_compute; reflexivity|]. split; [vm_compute; discriminate|].
  apply (Unmarshal_Marshal_stable FormatZero ParseZero message0 _ request1).
  - exact ParseZero_FormatZero.
  - vm_compute. reflexivity.
  - vm_compute. reflexivity.
Defined.

(** ** The consumer and its workers *)

(** X28. Of the requests a producer tick sends, the consumer starts
    a worker for none but the real one, and for that one exactly when
    the name of its queue is not empty. *)
Theorem consumer_spawns_real_requests
    (ParseBytes : string -> N * bool)
    (rangeKeys : forall V, gmap string V -> list string)
    (qr : Queue.Queuer) (backoffs : Queue.Cache) (st : Queue.producerState)
    (t0 t1 : Z) (rnd : list nat) (machine : Runner.Resource) (rQ : Queue.consumerEnd) :
  let r := Queue.tick ParseBytes rangeKeys qr backoffs st t0 t1 rnd machine rQ in
  forall i rq request,
    Queue.sent r !! i = Some rq ->
    Consumer.consumer (Some rq) = Consumer.Spawns request ->
    i = 1%nat /\ request = rq /\ Queue.subscription rq <> EmptyString
    /\ Queue.project_ rq = Queue.project qr /\ Queue.creds rq = Queue.cred qr.
Proof.
  intros r i rq request Hi Hspawn. unfold r, Queue.tick in *. clear r.
  assert (Hreal : Consumer.consumer (Some rq) = Consumer.Spawns request ->
                  request = rq /\ Queue.subscription rq <> EmptyString).
  { unfold Consumer.consumer. destruct (Queue.subscription rq); cbn.
    - discriminate.
    - intros [= <-]. split; [reflexivity | discriminate]. }
  destruct (Queue.shuffle rnd _) as [|first rest].
  { unfold Queue.lastReadyCheck in Hi. destruct (_ <? _); cbn in Hi; discriminate. }
  pose proof (check_cases ParseBytes qr (Queue.name first) machine rQ) as Hcheck.
  destruct (Queue.check ParseBytes qr (Queue.name first) machine rQ) as [err sent].
  cbn [fst snd] in Hcheck.
  assert (Hsent : forall sent',
            sent' = [] \/ sent' = [sentinel]
            \/ sent' = [sentinel;
                        {| Queue.project_ := Queue.project qr;
                           Queue.subscription := Queue.name first;
                           Queue.creds := Queue.cred qr |}] ->
            sent' !! i = Some rq ->
            i = 1%nat /\ request = rq /\ Queue.subscription rq <> EmptyString
            /\ Queue.project_ rq = Queue.project qr /\ Queue.creds rq = Queue.cred qr).
  { intros sent' [-> | [-> | ->]] Hrq; [discriminate| |].
    - destruct i as [|[|i]]; try discriminate. injection Hrq as <-.
      cbn in Hspawn. discriminate.
    - destruct i as [|[|[|i]]]; try discriminate; injection Hrq as <-.
      + cbn in Hspawn. discriminate.
      + destruct (Hreal Hspawn) as [-> Hname]. repeat split. exact Hname. }
  destruct Hcheck as [(-> & -> & _) | (Herr & Hnone)].
  - unfold Queue.lastReadyCheck in Hi.
    apply (Hsent [sentinel; {| Queue.project_ := Queue.project qr;
                               Queue.subscription := Queue.name first;
                               Queue.creds := Queue.cred qr |}]); [auto|].
    destruct (_ <? _); exact Hi.
  - destruct err; [|contradiction]. cbn in Hi.
    apply (Hsent sent); [tauto | exact Hi].
Qed.

Lemma consumer_spawns_real_requests_witness :
  let rq := {| Queue.project_ := "proj"; Queue.subscription := "q1";
               Queue.creds := "cred.json" |} in
  Queue.subscription rq <> EmptyString
  /\ Queue.project_ rq = Queue.project queuer1
  /\ Queue.creds rq = Queue.cred queuer1.
Proof.
  intros rq.
  destruct (consumer_spawns_real_requests Humanize.ParseBytes rangeInOrder queuer1
              Queue.backoffs0 started 0 7 [] machine0 listening 1%nat rq rq)
    as (_ & _ & Hname & Hproject & Hcreds).
  - vm_compute. reflexivity.
  - reflexivity.
  - split; [exact Hname|]. split; [exact Hproject | exact Hcreds].
Defined.

Lemma NoDup_middle_fmap {A B} (f : A -> B) (l1 l2 : list A) x :
  NoDup (f <$> (l1 ++ x :: l2)) ->
  NoDup (f <$> (l1 ++ l2))
  /\ forall y, y ∈ f <$> (l1 ++ l2) <-> y ∈ f <$> (l1 ++ x :: l2) /\ y <> f x.
Proof.
  rewrite !fmap_app, fmap_cons. intros Hnd.
  apply NoDup_app in Hnd as (Hnd1 & Hdisj & Hnd2).
  apply NoDup_cons in Hnd2 as (Hx & Hnd2).
  split.
  - apply NoDup_app. split; [exact Hnd1|]. split; [|exact Hnd2].
    intros y Hy Hy'. apply (Hdisj y Hy). right. exact Hy'.
  - intros y. rewrite !elem_of_app, elem_of_cons. split.
    + intros [Hy | Hy].
      * split; [auto|]. intros ->. apply (Hdisj _ Hy). left.
      * split; [auto|]. intros ->. contradiction.
    + intros [[Hy | [-> | Hy]] Hne]; [auto | contradiction | auto].
Qed.

Lemma step_exclusive w w' : Consumer.step w w' -> exclusive w -> exclusive w'.
Proof.
  intros Hstep [Hnd Hbusy]. destruct Hstep as [request backoffs now w | i request w Hi].
  - unfold Consumer.filterWorkEnter.
    destruct (Queue.Get backoffs _ now); [split; assumption|].
    destruct (decide (Consumer.busyKey request ∈ Consumer.busyQs w)) as [Hin|Hout];
      [split; assumption|].
    split; cbn.
    + apply NoDup_cons. split; [|exact Hnd]. rewrite <- Hbusy. exact Hout.
    + intros key. rewrite elem_of_union, elem_of_singleton, elem_of_cons, Hbusy.
      reflexivity.
  - cbn [Consumer.busyQs Consumer.working]. rewrite delete_take_drop.
    rewrite <- (take_drop_middle _ _ _ Hi) in Hnd, Hbusy.
    destruct (NoDup_middle_fmap Consumer.busyKey _ _ _ Hnd) as [Hnd' Hin].
    split; cbn [Consumer.busyQs Consumer.working]; [exact Hnd'|].
    intros key. unfold Consumer.filterWorkLeave.
    rewrite elem_of_difference, elem_of_singleton, Hin, Hbusy. reflexivity.
Qed.

(** X29. However the workers interleave, no queue is worked by two
    of them at a time, and [busyQs] marks exactly the queues that are
    being worked: a request for a queue that is being worked, or
    that has a live back-off, starts no work. *)
Theorem workers_exclusive w :
  rtc Consumer.step Consumer.idle w ->
  exclusive w
  /\ forall request backoffs now,
       (Consumer.busyKey request ∈ Consumer.busyKey <$> Consumer.working w
        \/ Queue.Get backoffs (Consumer.busyKey request) now = true) ->
       Consumer.filterWorkEnter request backoffs now (Consumer.busyQs w)
       = (false, Consumer.busyQs w).
Proof.
  intros Hsteps.
  assert (Hex : exclusive w).
  { revert w Hsteps. apply (rtc_ind_r (fun w => exclusive w) Consumer.idle).
    - split; cbn; [apply NoDup_nil_2|]. intros key. split; intros H; inversion H.
    - intros w2 w3 _ Hstep IH. apply (step_exclusive w2 w3 Hstep IH). }
  split; [exact Hex|].
  intros request backoffs now Hwhy. unfold Consumer.filterWorkEnter.
  destruct (Queue.Get backoffs _ now); [reflexivity|].
  destruct Hwhy as [Hworking | Hlive]; [|discriminate].
  apply Hex in Hworking. rewrite decide_True by exact Hworking. reflexivity.
Qed.

Lemma workers_exclusive_witness :
  Consumer.filterWorkEnter request0 Queue.backoffs0 0 {["proj:q1"%string]}
  = (false, {["proj:q1"%string]}).
Proof.
  destruct (workers_exclusive
              {| Consumer.busyQs := {["proj:q1"%string]}; Consumer.working := [request0] |})
    as [_ Hskip].
  - eapply rtc_l; [|apply rtc_refl].
    pose proof (Consumer.step_enter request0 Queue.backoffs0 0 Consumer.idle) as Hstep.
    unfold Consumer.filterWorkEnter in Hstep.
    replace {["proj:q1"%string]} with ({["proj:q1"%string]} ∪ (∅ : gset string))
      by apply (right_id_L ∅ (∪)).
    exact Hstep.
  - apply (Hskip request0 Queue.backoffs0 0). left. cbn. left.
Defined.

(** ** Polling RabbitMQ *)

(** X30. After a firing of the timer the next wait is the check
    interval when queues were found without an error, twice it when
    either the listing failed or nothing was found, four times it
    when both, and the check interval again when the server is not
    running: a doubling never carries over to the firing after.
    [Lifecycle] is called exactly when the server is running and
    queues were found, whether or not the listing failed. *)
Theorem serviceRMQ_waits {V} (checkInterval : Z) (running : bool)
    (found : gmap string V) (failed : bool) :
  0 <= checkInterval < 2 ^ 61 ->
  let r := Rabbit.serviceRMQ checkInterval running found failed in
  Rabbit.qCheck r
  = (if running
     then (if failed then 2 else 1) * (if decide (found = ∅) then 2 else 1)
     else 1) * checkInterval
  /\ checkInterval <= Rabbit.qCheck r <= 4 * checkInterval
  /\ (Rabbit.lifecycle r = Some found <-> running = true /\ found <> ∅)
  /\ (Rabbit.lifecycle r = None <-> running = false \/ found = ∅)
  /\ Rabbit.ignored r = negb running.
Proof.
  intros Hci r.
  assert (Hwrap : forall z, 0 <= z < 2 ^ 63 -> Rabbit.wrap_i64 z = z).
  { intros z Hz. unfold Rabbit.wrap_i64. rewrite Z.mod_small; lia. }
  assert (Hsize : Nat.eqb (size found) 0 = if decide (found = ∅) then true else false).
  { destruct (decide (found = ∅)) as [->|Hne].
    - rewrite map_size_empty. reflexivity.
    - apply Nat.eqb_neq. intros Hzero. apply Hne, map_size_empty_iff, Hzero. }
  unfold r, Rabbit.serviceRMQ. rewrite Hsize. clear r Hsize.
  destruct running; cbn [negb Rabbit.qCheck Rabbit.lifecycle Rabbit.ignored].
  - destruct failed, (decide (found = ∅)) as [Hempty|Hfound];
      cbn [Rabbit.qCheck Rabbit.lifecycle Rabbit.ignored];
      rewrite ?Hwrap by (rewrite ?Hwrap by lia; lia);
      (split; [lia|]); (split; [lia|]);
      (split; [|split; [|reflexivity]]);
      try (split; [discriminate | intros [_ ?]; contradiction]);
      try (split; [intros _; split; [reflexivity | assumption] | reflexivity]);
      try (split; [right; assumption | reflexivity]);
      try (split; [discriminate | intros [?|?]; [discriminate | contradiction]]).
  - split; [lia|]. split; [lia|]. split; [|split; [|reflexivity]].
    + split; [discriminate | intros [? _]; discriminate].
    + split; [left; reflexivity | reflexivity].
Qed.

Lemma serviceRMQ_waits_witness :
  Rabbit.qCheck (Rabbit.serviceRMQ (5 * Queue.second) true (∅ : gmap string string) true)
  = 20 * Queue.second.
Proof.
  destruct (serviceRMQ_waits (5 * Queue.second) true (∅ : gmap string string) true)
    as (Hwait & _).
  - unfold Queue.second. lia.
  - rewrite Hwait. reflexivity.
Defined.
